(** * PNGReader: a shallow embedding of [PNGReader/src/test2.py]

    The development follows the Python module function by function:
    the four reconstruction filters, [paeth_predictor],
    [apply_filters_to_data], [interpret_rgb_8bit] and [read_png].

    Conventions.
    - A Python [bytes]/[bytearray] object is a [list Z]; the values that
      come out of a file are in [0, 256).
    - Sizes, indices and the unsigned header fields [width] and [height]
      are [nat].
    - A Python exception is a value of [exn]; a computation that may raise
      is in [res]; a computation that may also write to standard output is
      in [py] (the lines written so far, then the outcome). *)

From Stdlib Require Import ZArith Lia String Ascii.
From stdpp Require Import base list.
From Equations Require Import Equations.

Local Open Scope Z_scope.

(** ** Python values and effects *)

Abbreviation bytes := (list Z).

Definition is_byte (v : Z) : Prop := 0 <= v < 256.

Inductive exn :=
| IndexError
| TypeError
| StructError
| UnicodeDecodeError.

Inductive res (A : Type) :=
| Ok (a : A)
| Raise (e : exn).
Arguments Ok {A} a.
Arguments Raise {A} e.

Definition res_bind {A B} (m : res A) (k : A -> res B) : res B :=
  match m with
  | Ok a => k a
  | Raise e => Raise e
  end.

Notation "'let*' x ':=' m 'in' k" := (res_bind m (fun x => k))
  (at level 10, x name, m at level 100, k at level 200).

(** The lines the module prints, one constructor per [print] call. *)
Inductive message :=
| PrintInvalidSignature
| PrintEOFChunkLength
| PrintEOFChunkType
| PrintExpectedBytes (expected got : nat)
| PrintEOFCRC
| PrintHeader (width height : nat) (color_type bit_depth : Z)
| PrintIgnoringChunk (chunk_type_str : string)
| PrintZlibError
| PrintFileNotFound (filename : string)
| PrintUnexpected (e : exn)
| PrintUnsupportedFilter (filter_type : Z)
| PrintPixelSizeIncorrect.

Definition py (A : Type) : Type := (list message * res A)%type.

Definition py_ret {A} (a : A) : py A := ([], Ok a).
Definition py_raise {A} (e : exn) : py A := ([], Raise e).
Definition py_lift {A} (m : res A) : py A := ([], m).

Definition py_bind {A B} (m : py A) (k : A -> py B) : py B :=
  match m with
  | (out, Ok a) => let '(out', r) := k a in (out ++ out', r)
  | (out, Raise e) => (out, Raise e)
  end.

Definition print {A} (m : message) (k : py A) : py A :=
  (m :: fst k, snd k).

Notation "'do*' x ':=' m 'in' k" := (py_bind m (fun x => k))
  (at level 10, x name, m at level 100, k at level 200).

(** [l[i]] for a non-negative index. *)
Definition getitem (l : bytes) (i : nat) : res Z :=
  match l !! i with
  | Some v => Ok v
  | None => Raise IndexError
  end.

(** [l[i] = v] on a bytearray. *)
Definition setitem (l : bytes) (i : nat) (v : Z) : res bytes :=
  if (i <? length l)%nat then Ok (<[i := v]> l) else Raise IndexError.

(** [l[a:b]] for non-negative bounds: the slice is clamped to the object. *)
Definition slice (l : bytes) (a b : nat) : bytes := take (b - a) (drop a l).

(** [range(a, b)]. *)
Definition range (a b : nat) : list nat := seq a (b - a).

(** [for i in idxs: s = body(i, s)], stopping at the first exception. *)
Fixpoint for_each {S : Type} (idxs : list nat) (body : nat -> S -> res S) (s : S)
  : res S :=
  match idxs with
  | [] => Ok s
  | i :: idxs' =>
      match body i s with
      | Ok s' => for_each idxs' body s'
      | Raise e => Raise e
      end
  end.

(** Truth value of an object that is [None] or a [bytes]: only a non-empty
    [bytes] is true. *)
Definition truthy (o : option bytes) : bool :=
  match o with
  | Some (_ :: _) => true
  | _ => false
  end.

Definition byte_and (v : Z) : Z := Z.land v 255.

(** ** The reconstruction filters *)

Definition apply_sub_filter (scanline_data : bytes) (width : nat) : res bytes :=
  let filtered_scanline := scanline_data in
  let bytes_per_pixel := 3%nat in
  for_each (range bytes_per_pixel (length scanline_data))
    (fun i filtered_scanline =>
       let* x := getitem scanline_data i in
       let* a := getitem filtered_scanline (i - bytes_per_pixel) in
       setitem filtered_scanline i (byte_and (x + a)))
    filtered_scanline.

Definition apply_up_filter (scanline_data : bytes) (width : nat)
    (previous_scanline_data : option bytes) : res bytes :=
  let filtered_scanline := scanline_data in
  match previous_scanline_data with
  | None => Ok scanline_data
  | Some previous =>
      for_each (range 0 (length scanline_data))
        (fun i filtered_scanline =>
           let* x := getitem scanline_data i in
           let* b := getitem previous i in
           setitem filtered_scanline i (byte_and (x + b)))
        filtered_scanline
  end.

(** [previous_scanline_data[i]] where the caller has tested the object's
    truth value; indexing [None] cannot happen there. *)
Definition previous_item (previous_scanline_data : option bytes) (i : nat) : res Z :=
  match previous_scanline_data with
  | Some previous => getitem previous i
  | None => Raise TypeError
  end.

Definition apply_average_filter (scanline_data : bytes) (width : nat)
    (previous_scanline_data : option bytes) (bytes_per_pixel : nat) : res bytes :=
  let filtered_scanline := scanline_data in
  for_each (range 0 (length scanline_data))
    (fun i filtered_scanline =>
       let* a :=
         if (bytes_per_pixel <=? i)%nat
         then getitem filtered_scanline (i - bytes_per_pixel)
         else Ok 0 in
       let* b :=
         if truthy previous_scanline_data
         then previous_item previous_scanline_data i
         else Ok 0 in
       let avg := (a + b) / 2 in
       let* x := getitem scanline_data i in
       setitem filtered_scanline i (byte_and (x + avg)))
    filtered_scanline.

Definition paeth_predictor (a b c : Z) : Z :=
  let p := a + b - c in
  let pa := Z.abs (p - a) in
  let pb := Z.abs (p - b) in
  let pc := Z.abs (p - c) in
  if (pa <=? pb) && (pa <=? pc) then a
  else if pb <=? pc then b
  else c.

Definition apply_paeth_filter (scanline_data : bytes) (width : nat)
    (previous_scanline_data : option bytes) (bytes_per_pixel : nat) : res bytes :=
  let filtered_scanline := scanline_data in
  for_each (range 0 (length scanline_data))
    (fun i filtered_scanline =>
       let* a :=
         if (bytes_per_pixel <=? i)%nat
         then getitem filtered_scanline (i - bytes_per_pixel)
         else Ok 0 in
       let* b :=
         if truthy previous_scanline_data
         then previous_item previous_scanline_data i
         else Ok 0 in
       let* c :=
         if truthy previous_scanline_data && (bytes_per_pixel <=? i)%nat
         then previous_item previous_scanline_data (i - bytes_per_pixel)
         else Ok 0 in
       let paeth := paeth_predictor a b c in
       let* x := getitem scanline_data i in
       setitem filtered_scanline i (byte_and (x + paeth)))
    filtered_scanline.

(** ** The defilter loop *)

(** The two variables the row loop of [apply_filters_to_data] updates. *)
Record defilter_state := DefilterState {
  unfiltered_data : bytes;
  previous_scanline : option bytes
}.

Definition defilter_init : defilter_state :=
  {| unfiltered_data := []; previous_scanline := None |}.

(** [unfiltered_data.extend(r); previous_scanline = scanline]. *)
Definition extend_and_track (st : defilter_state) (r : res bytes) (scanline : bytes)
  : py defilter_state :=
  do* row_bytes := py_lift r in
  py_ret {| unfiltered_data := unfiltered_data st ++ row_bytes;
            previous_scanline := Some scanline |}.

(** The body of [for row in range(height)]. *)
Definition defilter_row (width : nat) (pixel_data : bytes) (row : nat)
    (st : defilter_state) : py defilter_state :=
  let scanline_length := (width * 3 + 1)%nat in
  let bytes_per_pixel := 3%nat in
  do* filter_type := py_lift (getitem pixel_data (row * scanline_length)) in
  let scanline :=
    slice pixel_data (row * scanline_length + 1) ((row + 1) * scanline_length) in
  if filter_type =? 0 then
    extend_and_track st (Ok scanline) scanline
  else if filter_type =? 1 then
    extend_and_track st (apply_sub_filter scanline width) scanline
  else if filter_type =? 2 then
    extend_and_track st
      (apply_up_filter scanline width (previous_scanline st)) scanline
  else if filter_type =? 3 then
    extend_and_track st
      (apply_average_filter scanline width (previous_scanline st) bytes_per_pixel)
      scanline
  else if filter_type =? 4 then
    extend_and_track st
      (apply_paeth_filter scanline width (previous_scanline st) bytes_per_pixel)
      scanline
  else
    print (PrintUnsupportedFilter filter_type) (py_ret st).

(** The row loop, run over a list of row indices. *)
Fixpoint defilter_rows (width : nat) (pixel_data : bytes) (rows : list nat)
    (st : defilter_state) : py defilter_state :=
  match rows with
  | [] => py_ret st
  | row :: rows' =>
      do* st' := defilter_row width pixel_data row st in
      defilter_rows width pixel_data rows' st'
  end.

Definition apply_filters_to_data (width height : nat) (pixel_data : bytes)
  : py bytes :=
  do* st := defilter_rows width pixel_data (range 0 height) defilter_init in
  py_ret (unfiltered_data st).

(** ** The pixel assembler *)

Definition pixel := (Z * Z * Z)%type.

(** [range(0, n, 3)]. *)
Definition range_step3 (n : nat) : list nat :=
  map (fun k => (3 * k)%nat) (seq 0 ((n + 2) / 3)).

Fixpoint collect_pixels (pixel_data : bytes) (idxs : list nat) (pixels : list pixel)
  : res (list pixel) :=
  match idxs with
  | [] => Ok pixels
  | i :: idxs' =>
      let* r := getitem pixel_data i in
      let* g := getitem pixel_data (i + 1) in
      let* b := getitem pixel_data (i + 2) in
      collect_pixels pixel_data idxs' (pixels ++ [(r, g, b)])
  end.

(** The result is [None] (the error return) or the list of pixels. *)
Definition interpret_rgb_8bit (width height : nat) (pixel_data : bytes)
  : py (option (list pixel)) :=
  if negb (length pixel_data =? width * height * 3)%nat then
    print PrintPixelSizeIncorrect (py_ret None)
  else
    do* pixels := py_lift (collect_pixels pixel_data (range_step3 (length pixel_data)) []) in
    py_ret (Some pixels).


(** ** The chunk stream reader and [read_png] *)

(** [b'\x89PNG\r\n\x1a\n'] *)
Definition PNG_SIGNATURE : bytes := [137; 80; 78; 71; 13; 10; 26; 10].

(** [struct.unpack('>I', b)[0]]; the caller has checked [len(b) == 4]. *)
Definition unpack_be32 (b : bytes) : nat :=
  Z.to_nat (fold_left (fun acc v => acc * 256 + v) b 0).

(** [b.decode('ascii')]: a byte above 127 raises. *)
Definition decode_ascii (b : bytes) : res string :=
  if forallb (fun v => v <? 128) b
  then Ok (string_of_list_ascii (map (fun v => ascii_of_N (Z.to_N v)) b))
  else Raise UnicodeDecodeError.

(** The seven header variables of [read_png]. One tuple assignment sets
    them all, so they are [None] together or integers together. *)
Record header_vars := HeaderVars {
  width : nat;
  height : nat;
  bit_depth : Z;
  color_type : Z;
  compression_method : Z;
  filter_method : Z;
  interlace_method : Z
}.

(** The local variables of [read_png] that the chunk loop assigns:
    [header = None] while the seven header variables are still [None]. *)
Record png_state := PngState {
  header : option header_vars;
  pixel_data : bytes
}.

Definition png_init : png_state := {| header := None; pixel_data := [] |}.

(** [struct.unpack('>IIBBBBB', chunk_data)]; any length other than 13
    raises [struct.error]. *)
Definition unpack_header (chunk_data : bytes) : res header_vars :=
  match chunk_data with
  | [w0; w1; w2; w3; h0; h1; h2; h3; bd; ct; cm; fm; im] =>
      Ok {| width := unpack_be32 [w0; w1; w2; w3];
            height := unpack_be32 [h0; h1; h2; h3];
            bit_depth := bd;
            color_type := ct;
            compression_method := cm;
            filter_method := fm;
            interlace_method := im |}
  | _ => Raise StructError
  end.

Definition set_header (hdr : header_vars) (st : png_state) : png_state :=
  {| header := Some hdr; pixel_data := pixel_data st |}.

(** [pixel_data += chunk_data] *)
Definition add_pixel_data (chunk_data : bytes) (st : png_state) : png_state :=
  {| header := header st; pixel_data := pixel_data st ++ chunk_data |}.

Definition header_message (hdr : header_vars) : message :=
  PrintHeader (width hdr) (height hdr) (color_type hdr) (bit_depth hdr).

(** The [while True] loop over the open file [f] (its unread bytes).
    The outcome [None] is a [return None] inside the loop, [Some st] is the
    [break] at [IEND] with the variables as they are then. *)
Equations? chunk_loop (f : bytes) (st : png_state) : py (option png_state)
  by wf (length f) lt :=
chunk_loop f st :=
  let length_bytes := take 4 f in
  let f1 := drop 4 f in
  match decide (length length_bytes = 4%nat) with
  | right _ => print PrintEOFChunkLength (py_ret None)
  | left Hlen =>
      let length := unpack_be32 length_bytes in
      let chunk_type := take 4 f1 in
      let f2 := drop 4 f1 in
      if negb (List.length chunk_type =? 4)%nat then
        print PrintEOFChunkType (py_ret None)
      else
        match decode_ascii chunk_type with
        | Raise e => py_raise e
        | Ok chunk_type_str =>
            let chunk_data := take length f2 in
            let f3 := drop length f2 in
            if negb (List.length chunk_data =? length)%nat then
              print (PrintExpectedBytes length (List.length chunk_data)) (py_ret None)
            else
              let crc_bytes := take 4 f3 in
              let f4 := drop 4 f3 in
              if negb (List.length crc_bytes =? 4)%nat then
                print PrintEOFCRC (py_ret None)
              else if String.eqb chunk_type_str "IHDR" then
                match unpack_header chunk_data with
                | Raise e => py_raise e
                | Ok hdr => print (header_message hdr) (chunk_loop f4 (set_header hdr st))
                end
              else if String.eqb chunk_type_str "IDAT" then
                chunk_loop f4 (add_pixel_data chunk_data st)
              else if String.eqb chunk_type_str "IEND" then
                py_ret (Some st)
              else
                print (PrintIgnoringChunk chunk_type_str) (chunk_loop f4 st)
        end
  end.
Proof.
  all: subst f4 f3 f2 f1 length_bytes; rewrite length_take in Hlen;
    rewrite !length_drop; lia.
Qed.

Definition png_result := (nat * nat * Z * Z * bytes)%type.

(** The header variables where an integer is needed: [None * 3] raises
    [TypeError]. *)
Definition header_ints (st : png_state) : res header_vars :=
  match header st with
  | Some hdr => Ok hdr
  | None => Raise TypeError
  end.

Section ReadPng.

(** [zlib.decompress], used as a black box: [None] stands for
    [zlib.error]. *)
Variable zlib_decompress : bytes -> option bytes.

(** The files that exist, by name; opening any other name raises
    [FileNotFoundError]. *)
Variable fs : string -> option bytes.

(** Steps 4 and 5 of [read_png], after the loop has left by [break]. *)
Definition decode_pixels (st : png_state) : py (option png_result) :=
  match zlib_decompress (pixel_data st) with
  | None => print PrintZlibError (py_ret None)
  | Some decompressed_data =>
      do* hdr := py_lift (header_ints st) in
      let scanline_length := (width hdr * 3 + 1)%nat in
      do* unfiltered_data :=
        apply_filters_to_data (width hdr) (height hdr) decompressed_data in
      py_ret (Some (width hdr, height hdr, color_type hdr, bit_depth hdr,
                    unfiltered_data))
  end.

(** The body of the [with open(filename, 'rb') as f] block. *)
Definition read_png_file (f : bytes) : py (option png_result) :=
  let signature := take 8 f in
  let f := drop 8 f in
  if negb (bool_decide (signature = PNG_SIGNATURE)) then
    print PrintInvalidSignature (py_ret None)
  else
    do* broke := chunk_loop f png_init in
    match broke with
    | None => py_ret None
    | Some st => decode_pixels st
    end.

(** [read_png]: what was printed, and the value returned. Both [except]
    clauses print one line and return [None]. *)
Definition read_png (filename : string) : list message * option png_result :=
  match fs filename with
  | None => ([PrintFileNotFound filename], None)
  | Some f =>
      match read_png_file f with
      | (out, Ok r) => (out, r)
      | (out, Raise e) => (out ++ [PrintUnexpected e], None)
      end
  end.

End ReadPng.

(** ** Vocabulary of the specification *)

(** The first candidate, in list order, that no other candidate beats in
    distance to [p]: [best] is replaced only by a strictly closer one. *)
Fixpoint closest_first (p best : Z) (cands : list Z) : Z :=
  match cands with
  | [] => best
  | c :: cands' =>
      closest_first p (if Z.abs (p - c) <? Z.abs (p - best) then c else best) cands'
  end.

(** The Paeth selection in the specification's words: the closest to the
    predictor [a + b - c] among the candidates [a], [b] and [a + b - c]. *)
Definition paeth_as_worded (a b c : Z) : Z :=
  closest_first (a + b - c) a [b; a + b - c].

(** The same selection over the candidates [a], [b] and [c]. *)
Definition paeth_closest_abc (a b c : Z) : Z :=
  closest_first (a + b - c) a [b; c].

(** The neighbours [a], [b], [c] of byte position [i]: the reconstructed
    byte [bpp] places to the left, the byte above in the previous-row
    reference, and the byte above and to the left; 0 where there is none. *)
Definition left_of (out : bytes) (bpp i : nat) : Z :=
  if (bpp <=? i)%nat then default 0 (out !! (i - bpp)%nat) else 0.

Definition above (previous : option bytes) (i : nat) : Z :=
  if truthy previous then default 0 (default [] previous !! i) else 0.

Definition above_left (previous : option bytes) (bpp i : nat) : Z :=
  if truthy previous && (bpp <=? i)%nat
  then default 0 (default [] previous !! (i - bpp)%nat)
  else 0.

(** ** The loop bodies as "compute the value, then store it" *)

Definition store_at (g : nat -> bytes -> res Z) (i : nat) (fs : bytes) : res bytes :=
  let* v := g i fs in setitem fs i v.

(** The value each filter stores at position [i], given the row [fs] as
    rebuilt so far. *)
Definition sub_value (scanline_data : bytes) (i : nat) (fs : bytes) : res Z :=
  let* x := getitem scanline_data i in
  let* a := getitem fs (i - 3) in
  Ok (byte_and (x + a)).

Definition up_value (scanline_data previous : bytes) (i : nat) (fs : bytes) : res Z :=
  let* x := getitem scanline_data i in
  let* b := getitem previous i in
  Ok (byte_and (x + b)).

Definition average_value (scanline_data : bytes) (previous : option bytes)
    (bpp i : nat) (fs : bytes) : res Z :=
  let* a := if (bpp <=? i)%nat then getitem fs (i - bpp) else Ok 0 in
  let* b := if truthy previous then previous_item previous i else Ok 0 in
  let* x := getitem scanline_data i in
  Ok (byte_and (x + (a + b) / 2)).

Definition paeth_value (scanline_data : bytes) (previous : option bytes)
    (bpp i : nat) (fs : bytes) : res Z :=
  let* a := if (bpp <=? i)%nat then getitem fs (i - bpp) else Ok 0 in
  let* b := if truthy previous then previous_item previous i else Ok 0 in
  let* c :=
    if truthy previous && (bpp <=? i)%nat
    then previous_item previous (i - bpp)
    else Ok 0 in
  let* x := getitem scanline_data i in
  Ok (byte_and (x + paeth_predictor a b c)).

(** ** Rows of the scanline stream *)

(** What [apply_filters_to_data] reads for row [row]: the filter-type byte
    (absent when the stream ends before it) and the scanline slice. *)
Definition filter_type_of (w : nat) (data : bytes) (row : nat) : option Z :=
  data !! (row * (w * 3 + 1))%nat.

Definition scanline_of (w : nat) (data : bytes) (row : nat) : bytes :=
  slice data (row * (w * 3 + 1) + 1) ((row + 1) * (w * 3 + 1)).

(** The filter types with a branch of their own in the row loop. *)
Definition supported (ft : Z) : bool := (0 <=? ft) && (ft <=? 4).

Definition row_supported (w : nat) (data : bytes) (row : nat) : bool :=
  match filter_type_of w data row with
  | Some ft => supported ft
  | None => false
  end.

(** The line the row loop prints for row [row], if any. *)
Definition row_messages (w : nat) (data : bytes) (row : nat) : list message :=
  match filter_type_of w data row with
  | Some ft => if supported ft then [] else [PrintUnsupportedFilter ft]
  | None => []
  end.

(** The number of bytes row [row] adds to the output. *)
Definition row_output_length (w : nat) (data : bytes) (row : nat) : nat :=
  if row_supported w data row then length (scanline_of w data row) else 0%nat.

(** The previous-row reference is absent or has at least [n] bytes. *)
Definition covers (previous : option bytes) (n : nat) : Prop :=
  match previous with
  | None => True
  | Some p => (n <= length p)%nat
  end.

(** Every filter-type byte of the first [h] rows that the stream holds is
    one of 0..4. *)
Definition filter_types_supported (w h : nat) (data : bytes) : Prop :=
  forall r ft, (r < h)%nat -> filter_type_of w data r = Some ft -> 0 <= ft <= 4.

(** ** The forward filter *)

(** Modelled from the spec: the forward filter of the round-trip property,
    which the repository does not contain. It inverts the rules of the
    defilter engine: the byte stored at a position is the unfiltered byte
    minus the prediction, modulo 256, the prediction being computed from
    the unfiltered neighbours [a] (left), [b] (above) and [c] (above and to
    the left), each 0 where there is none. *)
Definition prediction (ft a b c : Z) : Z :=
  if ft =? 1 then a
  else if ft =? 2 then b
  else if ft =? 3 then (a + b) / 2
  else if ft =? 4 then paeth_predictor a b c
  else 0.

Definition filter_byte (ft : Z) (bpp : nat) (previous : option bytes)
    (row : bytes) (i : nat) : Z :=
  (default 0 (row !! i)
   - prediction ft (left_of row bpp i) (above previous i) (above_left previous bpp i))
  mod 256.

Definition filter_row (ft : Z) (bpp : nat) (previous : option bytes) (row : bytes)
  : bytes :=
  map (filter_byte ft bpp previous row) (seq 0 (length row)).

(** Row [r] of an unfiltered image of [w * 3] bytes per row. *)
Definition image_row (w : nat) (image : bytes) (r : nat) : bytes :=
  slice image (r * (w * 3)) ((r + 1) * (w * 3)).

(** Row [r] filtered with type [ft] against the unfiltered row above it,
    prefixed by its filter-type byte. *)
Definition filtered_block (ft : Z) (w : nat) (image : bytes) (r : nat) : bytes :=
  ft :: filter_row ft 3
          (if (r =? 0)%nat then None else Some (image_row w image (r - 1)))
          (image_row w image r).

(** The scanline stream of an image of [h] rows. *)
Definition forward_filter (ft : Z) (w h : nat) (image : bytes) : bytes :=
  flat_map (filtered_block ft w image) (seq 0 h).

(** ** Chunks of the stream *)

(** A chunk as it lies in the stream: the four length bytes, the four type
    bytes, the payload and the four checksum bytes. *)
Record chunk := Chunk {
  chunk_length : bytes;
  chunk_type : bytes;
  chunk_data : bytes;
  chunk_crc : bytes
}.

Definition chunk_bytes (c : chunk) : bytes :=
  chunk_length c ++ chunk_type c ++ chunk_data c ++ chunk_crc c.

(** The chunk is complete: its payload has the declared length. *)
Definition chunk_wf (c : chunk) : Prop :=
  length (chunk_length c) = 4%nat
  /\ length (chunk_type c) = 4%nat
  /\ length (chunk_data c) = unpack_be32 (chunk_length c)
  /\ length (chunk_crc c) = 4%nat.

(** What one iteration of the loop does with a complete chunk. *)
Inductive chunk_effect :=
| ChunkRaises (e : exn)
| ChunkBreaks
| ChunkContinues (out : list message) (st' : png_state).

Definition process_chunk (c : chunk) (st : png_state) : chunk_effect :=
  match decode_ascii (chunk_type c) with
  | Raise e => ChunkRaises e
  | Ok chunk_type_str =>
      if String.eqb chunk_type_str "IHDR" then
        match unpack_header (chunk_data c) with
        | Raise e => ChunkRaises e
        | Ok hdr => ChunkContinues [header_message hdr] (set_header hdr st)
        end
      else if String.eqb chunk_type_str "IDAT" then
        ChunkContinues [] (add_pixel_data (chunk_data c) st)
      else if String.eqb chunk_type_str "IEND" then
        ChunkBreaks
      else
        ChunkContinues [PrintIgnoringChunk chunk_type_str] st
  end.

(** The lines printed and the variables after a run of chunks that the
    loop reads one after the other without leaving; [None] if it leaves. *)
Fixpoint process_chunks (cs : list chunk) (st : png_state)
  : option (list message * png_state) :=
  match cs with
  | [] => Some ([], st)
  | c :: cs' =>
      match process_chunk c st with
      | ChunkContinues out st' =>
          match process_chunks cs' st' with
          | Some (out', st'') => Some (out ++ out', st'')
          | None => None
          end
      | _ => None
      end
  end.

(** [out] was printed before the computation [k] ran. *)
Definition after_printing {A} (out : list message) (k : py A) : py A :=
  (out ++ fst k, snd k).

(** Two chunk sequences that differ only in checksum bytes: from some
    chunk on they are the same stream, or they start with chunks of the
    same length bytes, type and payload and go on in the same way. *)
Inductive crc_variant : bytes -> bytes -> Prop :=
| crc_variant_same (f : bytes) : crc_variant f f
| crc_variant_chunk (c1 c2 : chunk) (rest1 rest2 : bytes) :
    chunk_wf c1 -> chunk_wf c2 ->
    chunk_length c1 = chunk_length c2 ->
    chunk_type c1 = chunk_type c2 ->
    chunk_data c1 = chunk_data c2 ->
    crc_variant rest1 rest2 ->
    crc_variant (chunk_bytes c1 ++ rest1) (chunk_bytes c2 ++ rest2).

(** [zlib.decompress] on the one payload the examples use, a zlib stream
    holding the seven bytes [0, 255,0,0, 0,255,0] in a single stored
    block. *)
Definition sample_payload : bytes :=
  [120; 1; 1; 7; 0; 248; 255; 0; 255; 0; 0; 0; 255; 0; 7; 255; 1; 255].

Definition sample_decompress (compressed : bytes) : option bytes :=
  if bool_decide (compressed = sample_payload)
  then Some [0; 255; 0; 0; 0; 255; 0]
  else None.

(** The chunks of a minimal 2x1 file with that payload. *)
Definition sample_ihdr (bd ct : Z) : chunk :=
  Chunk [0; 0; 0; 13] [73; 72; 68; 82]
        [0; 0; 0; 2; 0; 0; 0; 1; bd; ct; 0; 0; 0] [1; 2; 3; 4].

Definition sample_idat : chunk :=
  Chunk [0; 0; 0; 18] [73; 68; 65; 84] sample_payload [5; 6; 7; 8].

Definition sample_iend : chunk :=
  Chunk [0; 0; 0; 0] [73; 69; 78; 68] [] [174; 66; 96; 130].

(** ** The reconstruction rule of the specification *)

(** [out] is [scan] rebuilt by rule [ft] against the reference [previous]:
    each byte is the raw byte plus the prediction from its rebuilt left
    neighbour and the reference's bytes above, modulo 256. *)
Definition rebuilds (ft : Z) (previous : option bytes) (scan out : bytes) : Prop :=
  length out = length scan
  /\ forall i x, scan !! i = Some x ->
       out !! i
       = Some ((x + prediction ft (left_of out 3 i) (above previous i)
                                  (above_left previous 3 i)) mod 256).

(** The previous-row reference the row loop holds when it reaches row [r]
    of a stream whose earlier rows all have supported filter types: the
    scanline slice of row [r - 1], as read from the stream. *)
Definition reference_at (w : nat) (data : bytes) (r : nat) : option bytes :=
  match r with
  | O => None
  | S r' => Some (scanline_of w data r')
  end.

(** ** Chunk sequences *)

(** The line [read_png] prints when the file ends after the first [n]
    bytes of the chunk [c]. *)
Definition truncation_message (c : chunk) (n : nat) : message :=
  if (n <? 4)%nat then PrintEOFChunkLength
  else if (n <? 8)%nat then PrintEOFChunkType
  else if (n <? 8 + length (chunk_data c))%nat then
    PrintExpectedBytes (length (chunk_data c)) (n - 8)
  else PrintEOFCRC.

(** The chunk's type bytes decode to [name]. *)
Definition has_type (name : string) (c : chunk) : bool :=
  match decode_ascii (chunk_type c) with
  | Ok chunk_type_str => String.eqb chunk_type_str name
  | Raise _ => false
  end.

(** The payloads of the [IDAT] chunks, in stream order. *)
Definition idat_payloads (cs : list chunk) : bytes :=
  flat_map (fun c => if has_type "IDAT" c then chunk_data c else []) cs.

(** The header variables after the chunks [cs]: those of the last [IHDR]
    chunk, or [hdr0] if there is none. *)
Definition last_header (cs : list chunk) (hdr0 : option header_vars)
  : option header_vars :=
  fold_left
    (fun hdr c =>
       if has_type "IHDR" c then
         match unpack_header (chunk_data c) with
         | Ok hdr' => Some hdr'
         | Raise _ => hdr
         end
       else hdr)
    cs hdr0.

(** ** The script of the module *)

(** The lines of the [if __name__ == "__main__"] block, next to those the
    functions it calls print. *)
Inductive script_message :=
| Printed (m : message)
| PrintSuccess (png_file : string)
| PrintDimensions (width height : nat) (color_type bit_depth : Z)
| PrintDataLength (n : nat)
| PrintFirstPixels (pixel_values : list pixel)
| PrintNotTruecolor
| PrintFailed (png_file : string).

Section Script.

Variable zlib_decompress : bytes -> option bytes.
Variable fs : string -> option bytes.

(** The block up to the point where it opens the window: the outcome
    [Ok (Some pixel_values)] is the display loop entered with that list,
    [Ok None] is a run that ends without opening a window. The display
    loop itself is not modelled. *)
Definition script (png_file : string)
  : list script_message * res (option (list pixel)) :=
  let '(printed, result) := read_png zlib_decompress fs png_file in
  match result with
  | Some (width, height, color_type, bit_depth, pixel_data) =>
      let out :=
        map Printed printed
        ++ [PrintSuccess png_file;
            PrintDimensions width height color_type bit_depth;
            PrintDataLength (length pixel_data)] in
      if (color_type =? 2) && (bit_depth =? 8) then
        match interpret_rgb_8bit width height pixel_data with
        | (printed', Ok (Some (p :: ps))) =>
            (out ++ map Printed printed' ++ [PrintFirstPixels (take 10 (p :: ps))],
             Ok (Some (p :: ps)))
        | (printed', Ok _) => (out ++ map Printed printed', Ok None)
        | (printed', Raise e) => (out ++ map Printed printed', Raise e)
        end
      else
        (out ++ [PrintNotTruecolor], Ok None)
  | None => (map Printed printed ++ [PrintFailed png_file], Ok None)
  end.

End Script.

(** * [PNGReader/src/test.py]

    The earlier version of the reader: the same chunk loop with a branch
    for [PLTE], no defiltering, and a pixel assembler without the length
    test. It prints the same lines as [test2.py]. *)

Module TestPy.

(** The variables the chunk loop assigns: the header variables, the
    accumulated [IDAT] payloads and the palette. *)
Record png_state := PngState {
  header : option header_vars;
  pixel_data : bytes;
  palette : list pixel
}.

Definition png_init : png_state :=
  {| header := None; pixel_data := []; palette := [] |}.

Definition set_header (hdr : header_vars) (st : png_state) : png_state :=
  {| header := Some hdr; pixel_data := pixel_data st; palette := palette st |}.

Definition add_pixel_data (chunk_data : bytes) (st : png_state) : png_state :=
  {| header := header st; pixel_data := pixel_data st ++ chunk_data;
     palette := palette st |}.

Definition set_palette (palette' : list pixel) (st : png_state) : png_state :=
  {| header := header st; pixel_data := pixel_data st; palette := palette' |}.

(** The [while True] loop; [None] is a [return None] inside the loop,
    [Some st] the [break] at [IEND]. *)
Equations? chunk_loop (f : bytes) (st : png_state) : py (option png_state)
  by wf (length f) lt :=
chunk_loop f st :=
  let length_bytes := take 4 f in
  let f1 := drop 4 f in
  match decide (length length_bytes = 4%nat) with
  | right _ => print PrintEOFChunkLength (py_ret None)
  | left Hlen =>
      let length := unpack_be32 length_bytes in
      let chunk_type := take 4 f1 in
      let f2 := drop 4 f1 in
      if negb (List.length chunk_type =? 4)%nat then
        print PrintEOFChunkType (py_ret None)
      else
        match decode_ascii chunk_type with
        | Raise e => py_raise e
        | Ok chunk_type_str =>
            let chunk_data := take length f2 in
            let f3 := drop length f2 in
            if negb (List.length chunk_data =? length)%nat then
              print (PrintExpectedBytes length (List.length chunk_data)) (py_ret None)
            else
              let crc_bytes := take 4 f3 in
              let f4 := drop 4 f3 in
              if negb (List.length crc_bytes =? 4)%nat then
                print PrintEOFCRC (py_ret None)
              else if String.eqb chunk_type_str "IHDR" then
                match unpack_header chunk_data with
                | Raise e => py_raise e
                | Ok hdr => print (header_message hdr) (chunk_loop f4 (set_header hdr st))
                end
              else if String.eqb chunk_type_str "IDAT" then
                chunk_loop f4 (add_pixel_data chunk_data st)
              else if String.eqb chunk_type_str "PLTE" then
                match collect_pixels chunk_data
                        (range_step3 (List.length chunk_data)) (palette st) with
                | Raise e => py_raise e
                | Ok palette' => chunk_loop f4 (set_palette palette' st)
                end
              else if String.eqb chunk_type_str "IEND" then
                py_ret (Some st)
              else
                print (PrintIgnoringChunk chunk_type_str) (chunk_loop f4 st)
        end
  end.
Proof.
  all: subst f4 f3 f2 f1 length_bytes; rewrite length_take in Hlen;
    rewrite !length_drop; lia.
Qed.

(** The tuple returned: width, height and colour type (each [None] when
    no header chunk was read), the decompressed data and the palette. *)
Definition png_result :=
  (option nat * option nat * option Z * bytes * list pixel)%type.

Section ReadPng.

Variable zlib_decompress : bytes -> option bytes.
Variable fs : string -> option bytes.

Definition decompress_pixels (st : png_state) : py (option png_result) :=
  match zlib_decompress (pixel_data st) with
  | None => print PrintZlibError (py_ret None)
  | Some decompressed_data =>
      py_ret (Some (option_map width (header st), option_map height (header st),
                    option_map color_type (header st), decompressed_data,
                    palette st))
  end.

Definition read_png_file (f : bytes) : py (option png_result) :=
  let signature := take 8 f in
  let f := drop 8 f in
  if negb (bool_decide (signature = PNG_SIGNATURE)) then
    print PrintInvalidSignature (py_ret None)
  else
    do* broke := chunk_loop f png_init in
    match broke with
    | None => py_ret None
    | Some st => decompress_pixels st
    end.

Definition read_png (filename : string) : list message * option png_result :=
  match fs filename with
  | None => ([PrintFileNotFound filename], None)
  | Some f =>
      match read_png_file f with
      | (out, Ok r) => (out, r)
      | (out, Raise e) => (out ++ [PrintUnexpected e], None)
      end
  end.

End ReadPng.

(** [interpret_rgb_8bit] with its length test commented out: [width] and
    [height] are not used. *)
Definition interpret_rgb_8bit (width height : nat) (pixel_data : bytes)
  : res (list pixel) :=
  collect_pixels pixel_data (range_step3 (length pixel_data)) [].

(** What one iteration of the loop does with a complete chunk. *)
Inductive chunk_effect :=
| ChunkRaises (e : exn)
| ChunkBreaks
| ChunkContinues (out : list message) (st' : png_state).

Definition process_chunk (c : chunk) (st : png_state) : chunk_effect :=
  match decode_ascii (chunk_type c) with
  | Raise e => ChunkRaises e
  | Ok chunk_type_str =>
      if String.eqb chunk_type_str "IHDR" then
        match unpack_header (chunk_data c) with
        | Raise e => ChunkRaises e
        | Ok hdr => ChunkContinues [header_message hdr] (set_header hdr st)
        end
      else if String.eqb chunk_type_str "IDAT" then
        ChunkContinues [] (add_pixel_data (chunk_data c) st)
      else if String.eqb chunk_type_str "PLTE" then
        match collect_pixels (chunk_data c)
                (range_step3 (length (chunk_data c))) (palette st) with
        | Raise e => ChunkRaises e
        | Ok palette' => ChunkContinues [] (set_palette palette' st)
        end
      else if String.eqb chunk_type_str "IEND" then
        ChunkBreaks
      else
        ChunkContinues [PrintIgnoringChunk chunk_type_str] st
  end.

Fixpoint process_chunks (cs : list chunk) (st : png_state)
  : option (list message * png_state) :=
  match cs with
  | [] => Some ([], st)
  | c :: cs' =>
      match process_chunk c st with
      | ChunkContinues out st' =>
          match process_chunks cs' st' with
          | Some (out', st'') => Some (out ++ out', st'')
          | None => None
          end
      | _ => None
      end
  end.

End TestPy.

(** The pixels a byte string splits into, three bytes each; bytes beyond
    the last full triple are left out. *)
Definition triples (data : bytes) : list pixel :=
  map (fun k => (default 0 (data !! (3 * k)%nat),
                 default 0 (data !! (3 * k + 1)%nat),
                 default 0 (data !! (3 * k + 2)%nat)))
      (seq 0 (length data / 3)).

(** The palette entries of the [PLTE] chunks, in stream order. *)
Definition palette_entries (cs : list chunk) : list pixel :=
  flat_map (fun c => if has_type "PLTE" c then triples (chunk_data c) else []) cs.

(** * [PNGReader/src/main.py]

    The first version of the reader: it reads every chunk up to the end of
    the file, then goes through the list, and raises instead of returning
    [None]. *)

Module MainPy.

(** What [read_png] can raise: the two [ValueError]s it raises itself,
    [FileNotFoundError] from [open], and the exceptions of the calls it
    makes ([struct.error], [UnicodeDecodeError], [IndexError]). *)
Inductive raised :=
| InvalidSignature
| DecompressError
| FileNotFoundError
| Raised (e : exn).

(** An entry of [chunks]: [(chunk_type, chunk_data, crc)]. *)
Definition raw_chunk := (string * bytes * nat)%type.

(** The first loop: [None] is never returned, the loop leaves by [break]
    with the list of chunks or raises. *)
Equations? read_chunks (f : bytes) (chunks : list raw_chunk) : res (list raw_chunk)
  by wf (length f) lt :=
read_chunks f chunks :=
  let length_bytes := take 4 f in
  let f1 := drop 4 f in
  match length_bytes with
  | [] => Ok chunks
  | _ :: _ =>
      match decide (length length_bytes = 4%nat) with
      | right _ => Raise StructError
      | left Hlen =>
          let length := unpack_be32 length_bytes in
          match decode_ascii (take 4 f1) with
          | Raise e => Raise e
          | Ok chunk_type =>
              let f2 := drop 4 f1 in
              let chunk_data := take length f2 in
              let f3 := drop length f2 in
              let crc_bytes := take 4 f3 in
              let f4 := drop 4 f3 in
              if negb (List.length crc_bytes =? 4)%nat then Raise StructError
              else
                let crc := unpack_be32 crc_bytes in
                read_chunks f4 (chunks ++ [(chunk_type, chunk_data, crc)])
          end
      end
  end.
Proof.
  subst f4 f3 f2 f1 length_bytes. rewrite length_take in Hlen.
  rewrite !length_drop. lia.
Qed.

(** The four header variables, [None] together until an [IHDR] chunk has
    been gone through. *)
Record header_vars := HeaderVars {
  width : nat;
  height : nat;
  bit_depth : Z;
  color_type : Z
}.

(** [struct.unpack('>I', b)[0]] on a slice that may be short. *)
Definition unpack_uint32 (b : bytes) : res nat :=
  if (length b =? 4)%nat then Ok (unpack_be32 b) else Raise StructError.

(** The four assignments of the [IHDR] branch. *)
Definition unpack_ihdr (chunk_data : bytes) : res header_vars :=
  let* width := unpack_uint32 (slice chunk_data 0 4) in
  let* height := unpack_uint32 (slice chunk_data 4 8) in
  let* bit_depth := getitem chunk_data 8 in
  let* color_type := getitem chunk_data 9 in
  Ok {| width := width; height := height;
        bit_depth := bit_depth; color_type := color_type |}.

Record png_state := PngState {
  header : option header_vars;
  image_data : bytes
}.

Definition png_init : png_state := {| header := None; image_data := [] |}.

(** The second loop, [for chunk_type, chunk_data, crc in chunks]. *)
Fixpoint process_chunks (chunks : list raw_chunk) (st : png_state) : res png_state :=
  match chunks with
  | [] => Ok st
  | (chunk_type, chunk_data, crc) :: chunks' =>
      if String.eqb chunk_type "IHDR" then
        let* hdr := unpack_ihdr chunk_data in
        process_chunks chunks' {| header := Some hdr; image_data := image_data st |}
      else if String.eqb chunk_type "IDAT" then
        process_chunks chunks'
          {| header := header st; image_data := image_data st ++ chunk_data |}
      else if String.eqb chunk_type "IEND" then
        process_chunks chunks' st
      else
        process_chunks chunks' st
  end.

(** The dictionary returned. *)
Record png_info := PngInfo {
  info_header : option header_vars;
  decompressed_data : bytes
}.

Inductive outcome :=
| Returns (info : png_info)
| Raises (e : raised).

Definition lift {A} (r : res A) (k : A -> outcome) : outcome :=
  match r with
  | Ok a => k a
  | Raise e => Raises (Raised e)
  end.

Section ReadPng.

Variable zlib_decompress : bytes -> option bytes.
Variable fs : string -> option bytes.

Definition read_png (filename : string) : outcome :=
  match fs filename with
  | None => Raises FileNotFoundError
  | Some f =>
      let signature := take 8 f in
      let f := drop 8 f in
      if negb (bool_decide (signature = PNG_SIGNATURE)) then
        Raises InvalidSignature
      else
        lift (read_chunks f []) (fun chunks =>
        lift (process_chunks chunks png_init) (fun st =>
        match zlib_decompress (image_data st) with
        | None => Raises DecompressError
        | Some decompressed_data =>
            Returns {| info_header := header st;
                       decompressed_data := decompressed_data |}
        end))
  end.

End ReadPng.

End MainPy.

(** The header variables of [main.py] after the chunks [cs]: those read
    from the last [IHDR] chunk whose payload has at least ten bytes. *)
Definition last_header4 (cs : list chunk) (hdr0 : option MainPy.header_vars)
  : option MainPy.header_vars :=
  fold_left
    (fun hdr c =>
       if has_type "IHDR" c then
         match MainPy.unpack_ihdr (chunk_data c) with
         | Ok hdr' => Some hdr'
         | Raise _ => hdr
         end
       else hdr)
    cs hdr0.

(** The entry of [chunks] that a complete chunk of the stream becomes. *)
Definition raw_chunk_of (c : chunk) : MainPy.raw_chunk :=
  (match decode_ascii (chunk_type c) with
   | Ok chunk_type_str => chunk_type_str
   | Raise _ => EmptyString
   end,
   chunk_data c, unpack_be32 (chunk_crc c)).

(** * [src/python/main.py]: the box walker

    A file object is its content and its position. The [while] loops have
    no bound of their own, so every loop takes a number of iterations it
    may run ([fuel]); [OutOfFuel] is the outcome of a run that needs
    more. *)

Module Mp4.

Inductive exn :=
| StructError
| UnicodeDecodeError
| OSError.

Inductive message :=
| FoundBox (type_ : bytes) (size : Z)
| SkippingMdat
| SkippingUnknown (type_ : bytes)
| ErrorProcessing (e : exn)
| FoundInMoov (type_ : bytes) (size : Z)
| FoundInTrak (type_ : bytes) (size : Z)
| FoundInMdia (type_ : bytes) (size : Z)
| HandlerType (handler_type : bytes)
| FoundInMinf (type_ : bytes) (size : Z)
| FoundInStbl (type_ : bytes) (size : Z)
| EntryCount (entry_count : Z)
| FoundInStsd (type_ : bytes) (size : Z).

Record file_handle := FileHandle {
  content : bytes;
  position : nat
}.

Inductive outcome (A : Type) :=
| Done (a : A)
| Raised (e : exn)
| OutOfFuel.
Arguments Done {A} a.
Arguments Raised {A} e.
Arguments OutOfFuel {A}.

(** A computation on the open file: what it prints, then its outcome and
    the file object after it. *)
Definition M (A : Type) : Type :=
  file_handle -> list message * outcome (A * file_handle).

Definition ret {A} (a : A) : M A := fun fh => ([], Done (a, fh)).

Definition raise {A} (e : exn) : M A := fun _ => ([], Raised e).

Definition out_of_fuel {A} : M A := fun _ => ([], OutOfFuel).

Definition bind {A B} (m : M A) (k : A -> M B) : M B :=
  fun fh =>
    match m fh with
    | (out, Done (a, fh')) => let '(out', r) := k a fh' in (out ++ out', r)
    | (out, Raised e) => (out, Raised e)
    | (out, OutOfFuel) => (out, OutOfFuel)
    end.

Notation "'let!' x ':=' m 'in' k" := (bind m (fun x => k))
  (at level 10, x name, m at level 100, k at level 200).

Notation "m ';;' k" := (bind m (fun _ => k))
  (at level 100, k at level 200, right associativity).

Definition say (m : message) : M unit := fun fh => ([m], Done (tt, fh)).

(** [file_handle.read(n)]: at most [n] bytes from the position on. *)
Definition read (n : nat) : M bytes :=
  fun fh =>
    let b := take n (drop (position fh) (content fh)) in
    ([], Done (b, {| content := content fh;
                     position := (position fh + length b)%nat |})).

(** [file_handle.seek(offset, 1)]: a position before the start of the
    file is refused with [OSError]; one after its end is allowed. *)
Definition seek_cur (offset : Z) : M unit :=
  fun fh =>
    let target := Z.of_nat (position fh) + offset in
    if target <? 0 then ([], Raised OSError)
    else ([], Done (tt, {| content := content fh; position := Z.to_nat target |})).

(** [file_handle.tell()] *)
Definition tell : M Z := fun fh => ([], Done (Z.of_nat (position fh), fh)).

(** Whether a byte string is well-formed UTF-8, as [bytes.decode('utf-8')]
    requires: no stray or missing continuation byte, no overlong form, no
    surrogate, nothing above U+10FFFF. *)
Definition continuation (b : Z) : bool := (128 <=? b) && (b <=? 191).

Definition second_of_three (b0 b1 : Z) : bool :=
  if b0 =? 224 then (160 <=? b1) && (b1 <=? 191)
  else if b0 =? 237 then (128 <=? b1) && (b1 <=? 159)
  else continuation b1.

Definition second_of_four (b0 b1 : Z) : bool :=
  if b0 =? 240 then (144 <=? b1) && (b1 <=? 191)
  else if b0 =? 244 then (128 <=? b1) && (b1 <=? 143)
  else continuation b1.

Fixpoint utf8_valid (b : bytes) : bool :=
  match b with
  | [] => true
  | b0 :: r =>
      if b0 <? 128 then utf8_valid r
      else if (194 <=? b0) && (b0 <=? 223) then
        match r with
        | b1 :: r1 => continuation b1 && utf8_valid r1
        | _ => false
        end
      else if (224 <=? b0) && (b0 <=? 239) then
        match r with
        | b1 :: b2 :: r2 => second_of_three b0 b1 && continuation b2 && utf8_valid r2
        | _ => false
        end
      else if (240 <=? b0) && (b0 <=? 244) then
        match r with
        | b1 :: b2 :: b3 :: r3 =>
            second_of_four b0 b1 && continuation b2 && continuation b3
            && utf8_valid r3
        | _ => false
        end
      else false
  end.

(** [b.decode('utf-8')]. The string is kept as the bytes that encode it:
    two decoded strings are equal exactly when their bytes are. *)
Definition decode_utf8 (b : bytes) : M bytes :=
  if utf8_valid b then ret b else raise UnicodeDecodeError.

(** The bytes of an ASCII literal such as ['ftyp']. *)
Definition tag (name : string) : bytes :=
  map (fun a => Z.of_N (N_of_ascii a)) (list_ascii_of_string name).

Definition is_type (type_ : bytes) (name : string) : bool :=
  bool_decide (type_ = tag name).

Definition read_uint32 : M Z :=
  let! b := read 4 in
  if (length b =? 4)%nat then ret (Z.of_nat (unpack_be32 b)) else raise StructError.

Definition read_box_header : M (Z * bytes) :=
  let! size := read_uint32 in
  let! b := read 4 in
  let! type_ := decode_utf8 b in
  ret (size, type_).

(** [while file_handle.tell() < end_position: body] *)
Fixpoint while_before (fuel : nat) (end_position : Z) (body : M unit) : M unit :=
  match fuel with
  | O => out_of_fuel
  | S fuel' =>
      let! pos := tell in
      if pos <? end_position then
        body;; while_before fuel' end_position body
      else ret tt
  end.

(** [for i in range(n): body] *)
Fixpoint repeat_times (n : nat) (body : M unit) : M unit :=
  match n with
  | O => ret tt
  | S n' => body;; repeat_times n' body
  end.

(** The body of the [for] loop of [parse_stsd]. *)
Definition stsd_entry : M unit :=
  let! header := read_box_header in
  let '(size, type_) := header in
  say (FoundInStsd type_ size);;
  if is_type type_ "avc1" then seek_cur (size - 8)
  else if is_type type_ "mp4a" then seek_cur (size - 8)
  else seek_cur (size - 8).

(** [end_position] is computed and never read. *)
Definition parse_stsd (stsd_size : Z) : M unit :=
  let! pos := tell in
  let end_position := pos + stsd_size in
  seek_cur 4;;
  let! entry_count := read_uint32 in
  say (EntryCount entry_count);;
  repeat_times (Z.to_nat entry_count) stsd_entry.

(** The body of the [while] loop of [parse_stbl]. *)
Definition stbl_box : M unit :=
  let! header := read_box_header in
  let '(size, type_) := header in
  say (FoundInStbl type_ size);;
  if is_type type_ "stsd" then parse_stsd (size - 8)
  else if is_type type_ "stts" then seek_cur (size - 8)
  else if is_type type_ "stsc" then seek_cur (size - 8)
  else if is_type type_ "stsz" then seek_cur (size - 8)
  else if is_type type_ "stco" || is_type type_ "co64" then seek_cur (size - 8)
  else seek_cur (size - 8).

Definition parse_stbl (fuel : nat) (stbl_size : Z) : M unit :=
  let! pos := tell in
  let end_position := pos + stbl_size in
  while_before fuel end_position stbl_box.

(** The body of the [while] loop of [parse_minf]. *)
Definition minf_box (fuel : nat) : M unit :=
  let! header := read_box_header in
  let '(size, type_) := header in
  say (FoundInMinf type_ size);;
  if is_type type_ "vmhd" || is_type type_ "smhd" then seek_cur (size - 8)
  else if is_type type_ "dinf" then seek_cur (size - 8)
  else if is_type type_ "stbl" then parse_stbl fuel (size - 8)
  else seek_cur (size - 8).

Definition parse_minf (fuel : nat) (minf_size : Z) : M unit :=
  let! pos := tell in
  let end_position := pos + minf_size in
  while_before fuel end_position (minf_box fuel).

(** The body of the [while] loop of [parse_mdia]. *)
Definition mdia_box (fuel : nat) : M unit :=
  let! header := read_box_header in
  let '(size, type_) := header in
  say (FoundInMdia type_ size);;
  if is_type type_ "mdhd" then seek_cur (size - 8)
  else if is_type type_ "hdlr" then
    let! b := read 4 in
    let! handler_type := decode_utf8 b in
    say (HandlerType handler_type);;
    seek_cur (size - 12)
  else if is_type type_ "minf" then parse_minf fuel (size - 8)
  else seek_cur (size - 8).

Definition parse_mdia (fuel : nat) (mdia_size : Z) : M unit :=
  let! pos := tell in
  let end_position := pos + mdia_size in
  while_before fuel end_position (mdia_box fuel).

(** The body of the [while] loop of [parse_trak]. *)
Definition trak_box (fuel : nat) : M unit :=
  let! header := read_box_header in
  let '(size, type_) := header in
  say (FoundInTrak type_ size);;
  if is_type type_ "tkhd" then seek_cur (size - 8)
  else if is_type type_ "mdia" then parse_mdia fuel (size - 8)
  else seek_cur (size - 8).

Definition parse_trak (fuel : nat) (trak_size : Z) : M unit :=
  let! pos := tell in
  let end_position := pos + trak_size in
  while_before fuel end_position (trak_box fuel).

(** The body of the [while] loop of [parse_moov]. *)
Definition moov_box (fuel : nat) : M unit :=
  let! header := read_box_header in
  let '(size, type_) := header in
  say (FoundInMoov type_ size);;
  if is_type type_ "mvhd" then seek_cur (size - 8)
  else if is_type type_ "trak" then parse_trak fuel (size - 8)
  else seek_cur (size - 8).

Definition parse_moov (fuel : nat) (moov_size : Z) : M unit :=
  let! pos := tell in
  let end_position := pos + moov_size in
  while_before fuel end_position (moov_box fuel).

(** The body of the [try] block of [parse_mp4]. *)
Definition top_level_box (fuel : nat) : M unit :=
  let! header := read_box_header in
  let '(size, type_) := header in
  say (FoundBox type_ size);;
  if is_type type_ "ftyp" then seek_cur (size - 8)
  else if is_type type_ "moov" then parse_moov fuel (size - 8)
  else if is_type type_ "mdat" then seek_cur (size - 8);; say SkippingMdat
  else seek_cur (size - 8);; say (SkippingUnknown type_).

(** The [while True] loop of [parse_mp4] with its two [except] clauses:
    [struct.error] ends the loop silently, any other exception ends it
    after one printed line. *)
Fixpoint top_level_loop (fuel loops : nat) (fh : file_handle)
  : list message * outcome unit :=
  match loops with
  | O => ([], OutOfFuel)
  | S loops' =>
      match top_level_box fuel fh with
      | (out, Done (_, fh')) =>
          let '(out', r) := top_level_loop fuel loops' fh' in (out ++ out', r)
      | (out, Raised StructError) => (out, Done tt)
      | (out, Raised e) => (out ++ [ErrorProcessing e], Done tt)
      | (out, OutOfFuel) => (out, OutOfFuel)
      end
  end.

(** [parse_mp4] on the content of the file at [file_path]. *)
Definition parse_mp4 (fuel : nat) (file : bytes) : list message * outcome unit :=
  top_level_loop fuel fuel {| content := file; position := 0 |}.

End Mp4.

(** A box as it lies in a file: the four size bytes, the four type bytes
    and the payload. *)
Record box := Box {
  box_size : bytes;
  box_type : bytes;
  box_payload : bytes
}.

Definition box_bytes (b : box) : bytes := box_size b ++ box_type b ++ box_payload b.

(** The size field counts the whole box, header included. *)
Definition box_wf (b : box) : Prop :=
  length (box_size b) = 4%nat
  /\ length (box_type b) = 4%nat
  /\ unpack_be32 (box_size b) = (8 + length (box_payload b))%nat.

(** The lines [parse_mp4] prints for a top-level box it skips. *)
Definition skipped_box_lines (b : box) : list Mp4.message :=
  Mp4.FoundBox (box_type b) (Z.of_nat (unpack_be32 (box_size b)))
  :: (if Mp4.is_type (box_type b) "ftyp" then []
      else if Mp4.is_type (box_type b) "mdat" then [Mp4.SkippingMdat]
      else [Mp4.SkippingUnknown (box_type b)]).

(** A top-level box that [parse_mp4] steps over: a complete header whose
    type decodes and is not ['moov']. *)
Definition skippable (b : box) : Prop :=
  length (box_size b) = 4%nat
  /\ length (box_type b) = 4%nat
  /\ Mp4.utf8_valid (box_type b) = true
  /\ box_type b <> Mp4.tag "moov".

(** The boxes of a file as the walker tells them apart: a box it steps
    over, a box whose payload is a sequence of boxes, the handler box and
    the sample description box. *)
#[warnings="-register-all"] Inductive item :=
| Leaf (b : box)
| Container (size type_ : bytes) (children : list item)
| Handler (size type_ handler_type rest : bytes)
| Descriptions (size type_ flags entry_count : bytes) (entries : list box).

Fixpoint item_bytes (it : item) : bytes :=
  match it with
  | Leaf b => box_bytes b
  | Container size type_ children =>
      size ++ type_ ++ concat (map item_bytes children)
  | Handler size type_ handler_type rest => size ++ type_ ++ handler_type ++ rest
  | Descriptions size type_ flags entry_count entries =>
      size ++ type_ ++ flags ++ entry_count ++ concat (map box_bytes entries)
  end.

(** The number of boxes of an item, sample descriptions apart. *)
Fixpoint boxes (it : item) : nat :=
  match it with
  | Container _ _ children => S (list_sum (map boxes children))
  | _ => 1%nat
  end.

(** Nesting levels: 0 is the file ([parse_mp4]), 1 the inside of ['moov'],
    2 of ['trak'], 3 of ['mdia'], 4 of ['minf'], 5 of ['stbl']. *)
Definition found (level : nat) : bytes -> Z -> Mp4.message :=
  match level with
  | 0 => Mp4.FoundBox
  | 1 => Mp4.FoundInMoov
  | 2 => Mp4.FoundInTrak
  | 3 => Mp4.FoundInMdia
  | 4 => Mp4.FoundInMinf
  | _ => Mp4.FoundInStbl
  end%nat.

(** The box type a level descends into. *)
Definition container_type (level : nat) : option bytes :=
  match level with
  | 0 => Some (Mp4.tag "moov")
  | 1 => Some (Mp4.tag "trak")
  | 2 => Some (Mp4.tag "mdia")
  | 3 => Some (Mp4.tag "minf")
  | 4 => Some (Mp4.tag "stbl")
  | _ => None
  end%nat.

(** The box types a level does more with than step over them. *)
Definition parsed_types (level : nat) : list bytes :=
  match level with
  | 0 => [Mp4.tag "moov"]
  | 1 => [Mp4.tag "trak"]
  | 2 => [Mp4.tag "mdia"]
  | 3 => [Mp4.tag "hdlr"; Mp4.tag "minf"]
  | 4 => [Mp4.tag "stbl"]
  | _ => [Mp4.tag "stsd"]
  end%nat.

Definition entry_wf (e : box) : Prop :=
  box_wf e /\ Mp4.utf8_valid (box_type e) = true.

(** An item laid out as the walker at [level] expects it: size fields
    that count the whole box, types that decode, and for each parsed type
    the payload that goes with it. *)
#[warnings="-register-all"] Inductive item_wf : nat -> item -> Prop :=
| leaf_wf level b :
    (level <= 5)%nat ->
    box_wf b ->
    Mp4.utf8_valid (box_type b) = true ->
    ~ In (box_type b) (parsed_types level) ->
    item_wf level (Leaf b)
| container_wf level size type_ children :
    length size = 4%nat ->
    container_type level = Some type_ ->
    unpack_be32 size = (8 + length (concat (map item_bytes children)))%nat ->
    Forall (item_wf (S level)) children ->
    item_wf level (Container size type_ children)
| handler_wf size handler_type rest :
    length size = 4%nat ->
    length handler_type = 4%nat ->
    Mp4.utf8_valid handler_type = true ->
    unpack_be32 size = (12 + length rest)%nat ->
    item_wf 3 (Handler size (Mp4.tag "hdlr") handler_type rest)
| descriptions_wf size flags entry_count entries :
    length size = 4%nat ->
    length flags = 4%nat ->
    length entry_count = 4%nat ->
    unpack_be32 entry_count = length entries ->
    Forall entry_wf entries ->
    unpack_be32 size = (16 + length (concat (map box_bytes entries)))%nat ->
    item_wf 5 (Descriptions size (Mp4.tag "stsd") flags entry_count entries).

Definition entry_line (e : box) : Mp4.message :=
  Mp4.FoundInStsd (box_type e) (Z.of_nat (unpack_be32 (box_size e))).

(** The lines the walker prints for an item at [level], in order. *)
Fixpoint item_lines (level : nat) (it : item) : list Mp4.message :=
  match it with
  | Leaf b =>
      match level with
      | O => skipped_box_lines b
      | _ => [found level (box_type b) (Z.of_nat (unpack_be32 (box_size b)))]
      end
  | Container size type_ children =>
      found level type_ (Z.of_nat (unpack_be32 size))
      :: concat (map (item_lines (S level)) children)
  | Handler size type_ handler_type rest =>
      [found level type_ (Z.of_nat (unpack_be32 size)); Mp4.HandlerType handler_type]
  | Descriptions size type_ flags entry_count entries =>
      found level type_ (Z.of_nat (unpack_be32 size))
      :: Mp4.EntryCount (Z.of_nat (unpack_be32 entry_count))
      :: map entry_line entries
  end.

(** A small file with every kind of box the walker tells apart. *)
Definition sample_stsd : item :=
  Descriptions [0; 0; 0; 24] (Mp4.tag "stsd") [0; 0; 0; 0] [0; 0; 0; 1]
    [Box [0; 0; 0; 8] (Mp4.tag "avc1") []].

Definition sample_mdia : item :=
  Container [0; 0; 0; 64] (Mp4.tag "mdia")
    [Handler [0; 0; 0; 16] (Mp4.tag "hdlr") (Mp4.tag "vide") [0; 0; 0; 0];
     Container [0; 0; 0; 40] (Mp4.tag "minf")
       [Container [0; 0; 0; 32] (Mp4.tag "stbl") [sample_stsd]]].

Definition sample_moov : item :=
  Container [0; 0; 0; 97] (Mp4.tag "moov")
    [Leaf (Box [0; 0; 0; 8] (Mp4.tag "mvhd") []);
     Container [0; 0; 0; 81] (Mp4.tag "trak")
       [Leaf (Box [0; 0; 0; 9] (Mp4.tag "tkhd") [1]); sample_mdia]].

Definition sample_mdat : box := Box [0; 0; 0; 10] (Mp4.tag "mdat") [1; 2].

Definition sample_ftyp : box :=
  Box [0; 0; 0; 12] (Mp4.tag "ftyp") [105; 115; 111; 109].

(** A media data box with the size field that stands for "to the end of
    the file". *)
Definition sample_open_mdat : box := Box [0; 0; 0; 0] (Mp4.tag "mdat") [].

Definition sample_movie : list item :=
  [Leaf sample_ftyp;
   sample_moov;
   Leaf (Box [0; 0; 0; 8] (Mp4.tag "free") [])].

(** * Properties *)

Local Open Scope nat_scope.

(** ** Indexing and slicing *)

Lemma getitem_Some (l : bytes) (i : nat) (v : Z) :
  l !! i = Some v -> getitem l i = Ok v.
Proof. unfold getitem. intros ->. reflexivity. Qed.

Lemma getitem_lt (l : bytes) (i : nat) :
  i < length l -> exists v, l !! i = Some v /\ getitem l i = Ok v.
Proof.
  intros Hi. destruct (lookup_lt_is_Some_2 l i Hi) as [v Hv].
  exists v. split; [exact Hv | now apply getitem_Some].
Qed.

Lemma getitem_ge (l : bytes) (i : nat) :
  length l <= i -> getitem l i = Raise IndexError.
Proof.
  intros Hi. unfold getitem. rewrite (lookup_ge_None_2 l i Hi). reflexivity.
Qed.

Lemma getitem_Ok_inv (l : bytes) (i : nat) (v : Z) :
  getitem l i = Ok v -> l !! i = Some v.
Proof. unfold getitem. destruct (l !! i); congruence. Qed.

Lemma setitem_lt (l : bytes) (i : nat) (v : Z) :
  i < length l -> setitem l i v = Ok (<[i := v]> l).
Proof.
  intros Hi. unfold setitem.
  destruct (Nat.ltb_spec i (length l)); [reflexivity | lia].
Qed.

Lemma setitem_Ok_inv (l l' : bytes) (i : nat) (v : Z) :
  setitem l i v = Ok l' -> i < length l /\ l' = <[i := v]> l.
Proof.
  unfold setitem. destruct (Nat.ltb_spec i (length l)); [|discriminate].
  intros [= <-]. auto.
Qed.

Lemma slice_length (l : bytes) (a b : nat) :
  length (slice l a b) = Nat.min (b - a) (length l - a).
Proof. unfold slice. rewrite length_take, length_drop. reflexivity. Qed.

Lemma slice_lookup (l : bytes) (a b i : nat) :
  i < b - a -> slice l a b !! i = l !! (a + i).
Proof.
  intros Hi. unfold slice. rewrite lookup_take_lt by exact Hi.
  apply lookup_drop.
Qed.

(** ** The pixel assembler *)

Lemma collect_pixels_spec (data : bytes) (m k : nat) (acc : list pixel) :
  3 * (k + m) <= length data ->
  exists ps,
    collect_pixels data (map (fun j => 3 * j) (seq k m)) acc = Ok (acc ++ ps)
    /\ length ps = m
    /\ forall j, j < m ->
         exists r g b,
           data !! (3 * (k + j)) = Some r
           /\ data !! (3 * (k + j) + 1) = Some g
           /\ data !! (3 * (k + j) + 2) = Some b
           /\ ps !! j = Some (r, g, b).
Proof.
  revert k acc. induction m as [|m IH]; intros k acc Hlen.
  - exists []. rewrite app_nil_r.
    split; [reflexivity|]. split; [reflexivity|]. intros j Hj. lia.
  - destruct (getitem_lt data (3 * k)) as (r & Hr & Gr); [lia|].
    destruct (getitem_lt data (3 * k + 1)) as (g & Hg & Gg); [lia|].
    destruct (getitem_lt data (3 * k + 2)) as (b & Hb & Gb); [lia|].
    destruct (IH (S k) (acc ++ [(r, g, b)])) as (ps & Hps & Hl & Hnth); [lia|].
    exists ((r, g, b) :: ps). split; [|split].
    + cbn [seq map collect_pixels]. rewrite Gr, Gg, Gb. cbn [res_bind].
      rewrite Hps, <- app_assoc. reflexivity.
    + cbn. now rewrite Hl.
    + intros [|j] Hj.
      * exists r, g, b. rewrite Nat.add_0_r. auto.
      * destruct (Hnth j) as (r' & g' & b' & H1 & H2 & H3 & H4); [lia|].
        exists r', g', b'.
        replace (k + S j) with (S k + j) by lia. auto.
Qed.

Lemma range_step3_mult (m : nat) :
  range_step3 (m * 3) = map (fun j => 3 * j) (seq 0 m).
Proof.
  unfold range_step3. f_equal. f_equal.
  replace (m * 3 + 2) with (2 + m * 3) by lia.
  rewrite Nat.div_add by lia. reflexivity.
Qed.

(** C10. [interpret_rgb_8bit] returns the error value [None] exactly when
    the length of the byte stream differs from [width * height * 3];
    otherwise it returns [width * height] tuples in stream order, tuple
    [k] being [(data[3k], data[3k+1], data[3k+2])]. *)
Theorem interpret_rgb_8bit_spec (w h : nat) (data : bytes) :
  (snd (interpret_rgb_8bit w h data) = Ok None <-> length data <> w * h * 3)
  /\ (length data <> w * h * 3 ->
      interpret_rgb_8bit w h data = ([PrintPixelSizeIncorrect], Ok None))
  /\ (length data = w * h * 3 ->
      exists pixels,
        interpret_rgb_8bit w h data = ([], Ok (Some pixels))
        /\ length pixels = w * h
        /\ forall k, k < w * h ->
             exists r g b,
               data !! (3 * k) = Some r
               /\ data !! (3 * k + 1) = Some g
               /\ data !! (3 * k + 2) = Some b
               /\ pixels !! k = Some (r, g, b)).
Proof.
  assert (Hbad : length data <> w * h * 3 ->
                 interpret_rgb_8bit w h data = ([PrintPixelSizeIncorrect], Ok None)).
  { intros Hne. unfold interpret_rgb_8bit.
    destruct (Nat.eqb_spec (length data) (w * h * 3)); [contradiction | reflexivity]. }
  assert (Hgood : length data = w * h * 3 ->
      exists pixels,
        interpret_rgb_8bit w h data = ([], Ok (Some pixels))
        /\ length pixels = w * h
        /\ forall k, k < w * h ->
             exists r g b,
               data !! (3 * k) = Some r
               /\ data !! (3 * k + 1) = Some g
               /\ data !! (3 * k + 2) = Some b
               /\ pixels !! k = Some (r, g, b)).
  { intros Heq. unfold interpret_rgb_8bit.
    destruct (Nat.eqb_spec (length data) (w * h * 3)); [|contradiction].
    cbn [negb]. rewrite Heq, range_step3_mult.
    destruct (collect_pixels_spec data (w * h) 0 []) as (ps & Hps & Hl & Hnth); [lia|].
    exists ps. rewrite Hps. split; [reflexivity|]. split; [exact Hl|].
    intros k Hk. destruct (Hnth k Hk) as (r & g & b & H). exists r, g, b. exact H. }
  split; [|split; assumption].
  split.
  - intros Hnone Heq. destruct (Hgood Heq) as (ps & Hps & _).
    rewrite Hps in Hnone. discriminate.
  - intros Hne. rewrite (Hbad Hne). reflexivity.
Qed.

(** C3. The payload [0, 255,0,0, 0,255,0] of a 2x1 image defilters to
    [255,0,0,0,255,0], which assembles to the pixels
    [(255,0,0), (0,255,0)]. *)
Theorem two_by_one_truecolor_scenario :
  apply_filters_to_data 2 1 [0; 255; 0; 0; 0; 255; 0]%Z
    = ([], Ok [255; 0; 0; 0; 255; 0]%Z)
  /\ interpret_rgb_8bit 2 1 [255; 0; 0; 0; 255; 0]%Z
    = ([], Ok (Some [(255, 0, 0); (0, 255, 0)]%Z)).
Proof. split; reflexivity. Qed.

(** ** Loops that fill a row from left to right *)

Lemma res_bind_Ok_inv {A B} (m : res A) (k : A -> res B) (b : B) :
  res_bind m k = Ok b -> exists a, m = Ok a /\ k a = Ok b.
Proof. destruct m as [a|e]; cbn; [eauto | discriminate]. Qed.

Lemma res_bind_assoc {A B C} (m : res A) (k : A -> res B) (k' : B -> res C) :
  res_bind (res_bind m k) k' = res_bind m (fun a => res_bind (k a) k').
Proof. destruct m; reflexivity. Qed.

Lemma for_each_ext {S} (body1 body2 : nat -> S -> res S) (idxs : list nat) (s : S) :
  (forall i s', body1 i s' = body2 i s') ->
  for_each idxs body1 s = for_each idxs body2 s.
Proof.
  intros Hext. revert s. induction idxs as [|i idxs IH]; intros s; [reflexivity|].
  cbn. rewrite Hext. destruct (body2 i s); [apply IH | reflexivity].
Qed.

Section Recurrence.

(** [g i fs] is the value stored at position [i]; it reads the row being
    rebuilt only to the left of [i]. *)
Variable g : nat -> bytes -> res Z.
Variable lo : nat.
Hypothesis g_local :
  forall i (fs fs' : bytes), lo <= i ->
    (forall j, j < i -> fs !! j = fs' !! j) -> g i fs = g i fs'.

Lemma for_each_recurrence (m : nat) :
  forall (k : nat) (fs out : bytes),
    lo <= k ->
    for_each (seq k m) (store_at g) fs = Ok out ->
    length out = length fs
    /\ (forall j, j < k \/ k + m <= j -> out !! j = fs !! j)
    /\ (forall i, k <= i < k + m -> exists v, g i out = Ok v /\ out !! i = Some v).
Proof.
  induction m as [|m IH]; intros k fs out Hk Hrun.
  - cbn in Hrun. injection Hrun as <-.
    split; [reflexivity|]. split; [reflexivity|]. intros i Hi. lia.
  - cbn [seq for_each] in Hrun.
    destruct (store_at g k fs) as [fs1|e] eqn:Hstep; [|discriminate].
    unfold store_at in Hstep.
    apply res_bind_Ok_inv in Hstep as (v & Hv & Hset).
    apply setitem_Ok_inv in Hset as [Hlt ->].
    destruct (IH (S k) _ out ltac:(lia) Hrun) as (Hlen & Hsame & Hval).
    rewrite length_insert in Hlen.
    assert (Hold : forall j, j < k \/ k + S m <= j -> out !! j = fs !! j).
    { intros j Hj. rewrite Hsame by lia.
      apply list_lookup_insert_ne. lia. }
    split; [exact Hlen|]. split; [exact Hold|].
    intros i Hi. destruct (Nat.eq_dec i k) as [->|Hne].
    + exists v. split.
      * rewrite <- Hv. apply g_local; [exact Hk|].
        intros j Hj. apply Hold. lia.
      * rewrite Hsame by lia. apply list_lookup_insert_eq. exact Hlt.
    + apply Hval. lia.
Qed.

Lemma for_each_recurrence_ok (m : nat) :
  forall (k : nat) (fs : bytes),
    k + m <= length fs ->
    (forall i (fs' : bytes), k <= i < k + m -> length fs' = length fs ->
       exists v, g i fs' = Ok v) ->
    exists out, for_each (seq k m) (store_at g) fs = Ok out.
Proof.
  induction m as [|m IH]; intros k fs Hlen Hg.
  - exists fs. reflexivity.
  - destruct (Hg k fs ltac:(lia) eq_refl) as [v Hv].
    cbn [seq for_each]. unfold store_at at 1. rewrite Hv. cbn [res_bind].
    rewrite setitem_lt by lia.
    apply IH.
    + rewrite length_insert. lia.
    + intros i fs' Hi Hfs'. apply Hg; [lia|].
      rewrite Hfs'. apply length_insert.
Qed.

End Recurrence.

(** ** The four filters as recurrences *)

Ltac bind_cases :=
  repeat match goal with
    | |- context [res_bind ?m _] =>
        lazymatch m with
        | Ok _ => cbn [res_bind]
        | Raise _ => cbn [res_bind]
        | _ => destruct m; cbn [res_bind]
        end
    end.

Lemma apply_sub_filter_store (scan : bytes) (w : nat) :
  apply_sub_filter scan w
  = for_each (seq 3 (length scan - 3)) (store_at (sub_value scan)) scan.
Proof.
  unfold apply_sub_filter, range. apply for_each_ext. intros i fs.
  unfold store_at, sub_value. bind_cases; reflexivity.
Qed.

Lemma apply_up_filter_store (scan prev : bytes) (w : nat) :
  apply_up_filter scan w (Some prev)
  = for_each (seq 0 (length scan)) (store_at (up_value scan prev)) scan.
Proof.
  unfold apply_up_filter, range. rewrite Nat.sub_0_r.
  apply for_each_ext. intros i fs.
  unfold store_at, up_value. bind_cases; reflexivity.
Qed.

Lemma apply_average_filter_store (scan : bytes) (w : nat) (prev : option bytes)
    (bpp : nat) :
  apply_average_filter scan w prev bpp
  = for_each (seq 0 (length scan)) (store_at (average_value scan prev bpp)) scan.
Proof.
  unfold apply_average_filter, range. rewrite Nat.sub_0_r.
  apply for_each_ext. intros i fs.
  unfold store_at, average_value. bind_cases; reflexivity.
Qed.

Lemma apply_paeth_filter_store (scan : bytes) (w : nat) (prev : option bytes)
    (bpp : nat) :
  apply_paeth_filter scan w prev bpp
  = for_each (seq 0 (length scan)) (store_at (paeth_value scan prev bpp)) scan.
Proof.
  unfold apply_paeth_filter, range. rewrite Nat.sub_0_r.
  apply for_each_ext. intros i fs.
  unfold store_at, paeth_value. bind_cases; reflexivity.
Qed.

Lemma getitem_agree (fs fs' : bytes) (j : nat) :
  fs !! j = fs' !! j -> getitem fs j = getitem fs' j.
Proof. unfold getitem. intros ->. reflexivity. Qed.

Lemma sub_value_local (scan : bytes) (i : nat) (fs fs' : bytes) :
  3 <= i -> (forall j, j < i -> fs !! j = fs' !! j) ->
  sub_value scan i fs = sub_value scan i fs'.
Proof.
  intros Hi Hagree. unfold sub_value.
  rewrite (getitem_agree fs fs' (i - 3)) by (apply Hagree; lia). reflexivity.
Qed.

Lemma up_value_local (scan prev : bytes) (i : nat) (fs fs' : bytes) :
  0 <= i -> (forall j, j < i -> fs !! j = fs' !! j) ->
  up_value scan prev i fs = up_value scan prev i fs'.
Proof. reflexivity. Qed.

Lemma average_value_local (scan : bytes) (prev : option bytes) (bpp i : nat)
    (fs fs' : bytes) :
  0 < bpp -> 0 <= i -> (forall j, j < i -> fs !! j = fs' !! j) ->
  average_value scan prev bpp i fs = average_value scan prev bpp i fs'.
Proof.
  intros Hbpp _ Hagree. unfold average_value.
  destruct (Nat.leb_spec bpp i); [|reflexivity].
  rewrite (getitem_agree fs fs' (i - bpp)) by (apply Hagree; lia). reflexivity.
Qed.

Lemma paeth_value_local (scan : bytes) (prev : option bytes) (bpp i : nat)
    (fs fs' : bytes) :
  0 < bpp -> 0 <= i -> (forall j, j < i -> fs !! j = fs' !! j) ->
  paeth_value scan prev bpp i fs = paeth_value scan prev bpp i fs'.
Proof.
  intros Hbpp _ Hagree. unfold paeth_value.
  destruct (Nat.leb_spec bpp i); [|reflexivity].
  rewrite (getitem_agree fs fs' (i - bpp)) by (apply Hagree; lia). reflexivity.
Qed.

Lemma byte_and_mod (v : Z) : byte_and v = (v mod 256)%Z.
Proof. unfold byte_and. apply (Z.land_ones v 8). lia. Qed.

(** The neighbour reads of the loop bodies, in terms of [left_of], [above]
    and [above_left]. *)
Lemma left_read (fs : bytes) (bpp i : nat) (a : Z) :
  (if bpp <=? i then getitem fs (i - bpp) else Ok 0%Z) = Ok a ->
  left_of fs bpp i = a.
Proof.
  unfold left_of. destruct (bpp <=? i).
  - intros H. apply getitem_Ok_inv in H. rewrite H. reflexivity.
  - congruence.
Qed.

Lemma above_read (prev : option bytes) (i : nat) (b : Z) :
  (if truthy prev then previous_item prev i else Ok 0%Z) = Ok b ->
  above prev i = b.
Proof.
  unfold above. destruct (truthy prev) eqn:Ht.
  - destruct prev as [p|]; [|discriminate]. cbn.
    intros H. apply getitem_Ok_inv in H. rewrite H. reflexivity.
  - congruence.
Qed.

Lemma above_left_read (prev : option bytes) (bpp i : nat) (c : Z) :
  (if truthy prev && (bpp <=? i) then previous_item prev (i - bpp) else Ok 0%Z)
  = Ok c ->
  above_left prev bpp i = c.
Proof.
  unfold above_left. destruct (truthy prev && (bpp <=? i)) eqn:Ht.
  - destruct prev as [p|]; [|discriminate]. cbn.
    intros H. apply getitem_Ok_inv in H. rewrite H. reflexivity.
  - congruence.
Qed.

(** ** The Paeth rule *)

Lemma paeth_predictor_closest_abc (a b c : Z) :
  paeth_predictor a b c = paeth_closest_abc a b c.
Proof.
  unfold paeth_predictor, paeth_closest_abc, closest_first.
  destruct (Z.ltb_spec (Z.abs (a + b - c - b)) (Z.abs (a + b - c - a)));
    repeat match goal with
      | |- context [(?x <=? ?y)%Z] => destruct (Z.leb_spec x y)
      | |- context [(?x <? ?y)%Z] => destruct (Z.ltb_spec x y)
      end; cbn [andb]; try reflexivity; lia.
Qed.

Lemma paeth_predictor_choice (a b c : Z) :
  let p := (a + b - c)%Z in
  let pa := Z.abs (p - a) in
  let pb := Z.abs (p - b) in
  let pc := Z.abs (p - c) in
  let r := paeth_predictor a b c in
  ((pa <= pb /\ pa <= pc)%Z -> r = a)
  /\ (~ (pa <= pb /\ pa <= pc)%Z -> (pb <= pc)%Z -> r = b)
  /\ (~ (pa <= pb /\ pa <= pc)%Z -> (pc < pb)%Z -> r = c)
  /\ (Z.abs (p - r) <= pa /\ Z.abs (p - r) <= pb /\ Z.abs (p - r) <= pc)%Z.
Proof.
  cbv zeta. unfold paeth_predictor.
  repeat match goal with
    | |- context [(?x <=? ?y)%Z] => destruct (Z.leb_spec x y)
    end; cbn [andb]; repeat split; intros; try reflexivity; try lia.
Qed.

(** C4 (as amended). The Paeth rule stores [(x + paeth(a,b,c)) mod 256] at
    every byte position, where [paeth(a,b,c)] is the candidate among [a],
    [b] and [c] closest to [a + b - c], ties going to [a], then [b], then
    [c]; for [a = b = c = 10] it is 10. *)
Theorem paeth_reconstruction_rule (scan : bytes) (w : nat) (prev : option bytes)
    (bpp : nat) (out : bytes) :
  0 < bpp ->
  apply_paeth_filter scan w prev bpp = Ok out ->
  (forall i x, scan !! i = Some x ->
     out !! i
     = Some ((x + paeth_predictor (left_of out bpp i) (above prev i)
                                  (above_left prev bpp i)) mod 256)%Z)
  /\ (forall a b c : Z,
        paeth_predictor a b c = paeth_closest_abc a b c
        /\ let p := (a + b - c)%Z in
           let r := paeth_predictor a b c in
           ((Z.abs (p - a) <= Z.abs (p - b) /\ Z.abs (p - a) <= Z.abs (p - c))%Z
            -> r = a)
           /\ (~ (Z.abs (p - a) <= Z.abs (p - b) /\ Z.abs (p - a) <= Z.abs (p - c))%Z
               -> (Z.abs (p - b) <= Z.abs (p - c))%Z -> r = b)
           /\ (~ (Z.abs (p - a) <= Z.abs (p - b) /\ Z.abs (p - a) <= Z.abs (p - c))%Z
               -> (Z.abs (p - c) < Z.abs (p - b))%Z -> r = c)
           /\ (Z.abs (p - r) <= Z.abs (p - a)
               /\ Z.abs (p - r) <= Z.abs (p - b)
               /\ Z.abs (p - r) <= Z.abs (p - c))%Z)
  /\ paeth_predictor 10 10 10 = 10%Z.
Proof.
  intros Hbpp Hrun. split; [|split; [|reflexivity]].
  - rewrite apply_paeth_filter_store in Hrun.
    destruct (for_each_recurrence (paeth_value scan prev bpp) 0
                ltac:(intros; apply paeth_value_local; auto; lia)
                _ _ _ _ (Nat.le_refl 0) Hrun) as (_ & _ & Hval).
    intros i x Hx.
    destruct (Hval i) as (v & Hv & Hout).
    { split; [lia|]. apply lookup_lt_Some in Hx. lia. }
    rewrite Hout. f_equal.
    unfold paeth_value in Hv.
    apply res_bind_Ok_inv in Hv as (a & Ha & Hv).
    apply res_bind_Ok_inv in Hv as (b & Hb & Hv).
    apply res_bind_Ok_inv in Hv as (c & Hc & Hv).
    apply res_bind_Ok_inv in Hv as (x' & Hx' & Hv).
    apply getitem_Ok_inv in Hx'. rewrite Hx in Hx'. injection Hx' as <-.
    injection Hv as <-.
    rewrite (left_read _ _ _ _ Ha), (above_read _ _ _ Hb),
      (above_left_read _ _ _ _ Hc).
    apply byte_and_mod.
  - intros a b c. split; [apply paeth_predictor_closest_abc|].
    apply paeth_predictor_choice.
Qed.

(** Witness for C4: the second row of a 1-pixel-wide image, at its middle
    byte. *)
Lemma paeth_reconstruction_rule_witness :
  [13; 14; 15]%Z !! 1
  = Some ((250 + paeth_predictor (left_of [13; 14; 15]%Z 3 1)
                   (above (Some [10; 20; 8]%Z) 1)
                   (above_left (Some [10; 20; 8]%Z) 3 1)) mod 256)%Z.
Proof.
  exact (proj1 (paeth_reconstruction_rule [3; 250; 7]%Z 1 (Some [10; 20; 8]%Z) 3
                  [13; 14; 15]%Z ltac:(lia) eq_refl) 1 250%Z eq_refl).
Defined.

(** Counterexample for C4 as worded: with the third candidate [a + b - c]
    the selection would return the predictor itself. *)
Lemma paeth_worded_candidates_differ :
  paeth_predictor 1 2 0 = 2%Z /\ paeth_as_worded 1 2 0 = 3%Z.
Proof. split; reflexivity. Qed.

(** ** The filters never fail inside the row loop *)

Lemma apply_sub_filter_ok (scan : bytes) (w : nat) :
  exists out, apply_sub_filter scan w = Ok out /\ length out = length scan.
Proof.
  rewrite apply_sub_filter_store.
  assert (Hrun : exists out,
             for_each (seq 3 (length scan - 3)) (store_at (sub_value scan)) scan
             = Ok out).
  { destruct (le_lt_dec 3 (length scan)) as [Hge|Hlt].
    - apply for_each_recurrence_ok; [lia|].
      intros i fs' Hi Hfs'. unfold sub_value.
      destruct (getitem_lt scan i) as (x & _ & ->); [lia|].
      destruct (getitem_lt fs' (i - 3)) as (a & _ & ->); [lia|].
      cbn. eauto.
    - replace (length scan - 3) with 0 by lia. exists scan. reflexivity. }
  destruct Hrun as [out Hout]. exists out. split; [exact Hout|].
  eapply (for_each_recurrence (sub_value scan) 3); [|reflexivity|exact Hout].
  intros. now apply sub_value_local.
Qed.

Lemma previous_item_covered (prev : option bytes) (n i : nat) :
  covers prev n -> i < n -> truthy prev = true ->
  exists b, previous_item prev i = Ok b.
Proof.
  intros Hc Hi Ht. destruct prev as [p|]; [|discriminate]. cbn in *.
  destruct (getitem_lt p i) as (b & _ & Hb); [lia|]. eauto.
Qed.

Lemma apply_up_filter_ok (scan : bytes) (w : nat) (prev : option bytes) :
  covers prev (length scan) ->
  exists out, apply_up_filter scan w prev = Ok out /\ length out = length scan.
Proof.
  intros Hc. destruct prev as [p|]; [|exists scan; split; reflexivity].
  rewrite apply_up_filter_store. cbn in Hc.
  destruct (for_each_recurrence_ok (up_value scan p) (length scan) 0 scan)
    as [out Hout]; [lia| |].
  - intros i fs' Hi Hfs'. unfold up_value.
    destruct (getitem_lt scan i) as (x & _ & ->); [lia|].
    destruct (getitem_lt p i) as (b & _ & ->); [lia|].
    cbn. eauto.
  - exists out. split; [exact Hout|].
    eapply (for_each_recurrence (up_value scan p) 0); [|reflexivity|exact Hout].
    intros. reflexivity.
Qed.

Lemma apply_average_filter_ok (scan : bytes) (w : nat) (prev : option bytes) :
  covers prev (length scan) ->
  exists out, apply_average_filter scan w prev 3 = Ok out
              /\ length out = length scan.
Proof.
  intros Hc. rewrite apply_average_filter_store.
  destruct (for_each_recurrence_ok (average_value scan prev 3) (length scan) 0 scan)
    as [out Hout]; [lia| |].
  - intros i fs' Hi Hfs'. unfold average_value.
    assert (Ha : exists a, (if 3 <=? i then getitem fs' (i - 3) else Ok 0%Z) = Ok a).
    { destruct (3 <=? i); [|eauto].
      destruct (getitem_lt fs' (i - 3)) as (a & _ & Ha); [lia|]. eauto. }
    destruct Ha as [a ->].
    assert (Hb : exists b, (if truthy prev then previous_item prev i else Ok 0%Z) = Ok b).
    { destruct (truthy prev) eqn:Ht; [|eauto].
      apply (previous_item_covered prev (length scan)); auto. lia. }
    destruct Hb as [b ->].
    destruct (getitem_lt scan i) as (x & _ & ->); [lia|].
    cbn. eauto.
  - exists out. split; [exact Hout|].
    eapply (for_each_recurrence (average_value scan prev 3) 0);
      [|reflexivity|exact Hout].
    intros. apply average_value_local; auto; lia.
Qed.

Lemma apply_paeth_filter_ok (scan : bytes) (w : nat) (prev : option bytes) :
  covers prev (length scan) ->
  exists out, apply_paeth_filter scan w prev 3 = Ok out
              /\ length out = length scan.
Proof.
  intros Hc. rewrite apply_paeth_filter_store.
  destruct (for_each_recurrence_ok (paeth_value scan prev 3) (length scan) 0 scan)
    as [out Hout]; [lia| |].
  - intros i fs' Hi Hfs'. unfold paeth_value.
    assert (Ha : exists a, (if 3 <=? i then getitem fs' (i - 3) else Ok 0%Z) = Ok a).
    { destruct (3 <=? i); [|eauto].
      destruct (getitem_lt fs' (i - 3)) as (a & _ & Ha); [lia|]. eauto. }
    destruct Ha as [a ->].
    assert (Hb : exists b, (if truthy prev then previous_item prev i else Ok 0%Z) = Ok b).
    { destruct (truthy prev) eqn:Ht; [|eauto].
      apply (previous_item_covered prev (length scan)); auto. lia. }
    destruct Hb as [b ->].
    assert (Hcc : exists c,
               (if truthy prev && (3 <=? i) then previous_item prev (i - 3) else Ok 0%Z)
               = Ok c).
    { destruct (truthy prev) eqn:Ht; cbn [andb]; [|eauto].
      destruct (3 <=? i); [|eauto].
      apply (previous_item_covered prev (length scan)); auto. lia. }
    destruct Hcc as [c ->].
    destruct (getitem_lt scan i) as (x & _ & ->); [lia|].
    cbn. eauto.
  - exists out. split; [exact Hout|].
    eapply (for_each_recurrence (paeth_value scan prev 3) 0);
      [|reflexivity|exact Hout].
    intros. apply paeth_value_local; auto; lia.
Qed.

(** ** One row of the defilter loop *)

Lemma py_bind_lift_Ok {A B} (a : A) (k : A -> py B) :
  py_bind (py_lift (Ok a)) k = k a.
Proof. unfold py_bind, py_lift. destruct (k a). reflexivity. Qed.

Lemma py_bind_lift_Raise {A B} (e : exn) (k : A -> py B) :
  py_bind (py_lift (Raise e)) k = ([], Raise e).
Proof. reflexivity. Qed.

Lemma scanline_length (w : nat) (data : bytes) (row : nat) :
  length (scanline_of w data row)
  = Nat.min (w * 3) (length data - (row * (w * 3 + 1) + 1)).
Proof. unfold scanline_of. rewrite slice_length. f_equal. lia. Qed.

Lemma scanline_length_antitone (w : nat) (data : bytes) (row row' : nat) :
  row <= row' ->
  length (scanline_of w data row') <= length (scanline_of w data row).
Proof.
  intros Hle. rewrite !scanline_length.
  assert (row * (w * 3 + 1) <= row' * (w * 3 + 1)) by (apply Nat.mul_le_mono_r; lia).
  lia.
Qed.

Lemma scanline_length_full (w : nat) (data : bytes) (row : nat) :
  (row + 1) * (w * 3 + 1) <= length data ->
  length (scanline_of w data row) = w * 3.
Proof. intros Hlen. rewrite scanline_length. lia. Qed.

Lemma supported_cases (ft : Z) :
  supported ft = true ->
  ft = 0%Z \/ ft = 1%Z \/ ft = 2%Z \/ ft = 3%Z \/ ft = 4%Z.
Proof. unfold supported. lia. Qed.

Lemma unsupported_cases (ft : Z) :
  supported ft = false ->
  (ft =? 0)%Z = false /\ (ft =? 1)%Z = false /\ (ft =? 2)%Z = false
  /\ (ft =? 3)%Z = false /\ (ft =? 4)%Z = false.
Proof. unfold supported. lia. Qed.

(** A row with a supported filter type appends its rebuilt bytes and makes
    its raw scanline the previous-row reference. *)
Lemma defilter_row_supported (w : nat) (data : bytes) (row : nat)
    (st : defilter_state) (ft : Z) :
  filter_type_of w data row = Some ft ->
  supported ft = true ->
  covers (previous_scanline st) (length (scanline_of w data row)) ->
  exists rb,
    defilter_row w data row st
    = ([], Ok {| unfiltered_data := unfiltered_data st ++ rb;
                 previous_scanline := Some (scanline_of w data row) |})
    /\ length rb = length (scanline_of w data row).
Proof.
  intros Hft Hsup Hcov. unfold defilter_row, filter_type_of in *.
  rewrite (getitem_Some _ _ _ Hft), py_bind_lift_Ok.
  fold (scanline_of w data row). unfold extend_and_track.
  destruct (supported_cases ft Hsup) as [->|[->|[->|[->| ->]]]]; cbn [Z.eqb Pos.eqb].
  - exists (scanline_of w data row). rewrite py_bind_lift_Ok. auto.
  - destruct (apply_sub_filter_ok (scanline_of w data row) w) as (rb & -> & Hl).
    exists rb. rewrite py_bind_lift_Ok. auto.
  - destruct (apply_up_filter_ok (scanline_of w data row) w _ Hcov) as (rb & -> & Hl).
    exists rb. rewrite py_bind_lift_Ok. auto.
  - destruct (apply_average_filter_ok (scanline_of w data row) w _ Hcov)
      as (rb & -> & Hl).
    exists rb. rewrite py_bind_lift_Ok. auto.
  - destruct (apply_paeth_filter_ok (scanline_of w data row) w _ Hcov)
      as (rb & -> & Hl).
    exists rb. rewrite py_bind_lift_Ok. auto.
Qed.

(** A row with any other filter type prints one line and changes nothing. *)
Lemma defilter_row_unsupported (w : nat) (data : bytes) (row : nat)
    (st : defilter_state) (ft : Z) :
  filter_type_of w data row = Some ft ->
  supported ft = false ->
  defilter_row w data row st = ([PrintUnsupportedFilter ft], Ok st).
Proof.
  intros Hft Hsup. unfold defilter_row, filter_type_of in *.
  rewrite (getitem_Some _ _ _ Hft), py_bind_lift_Ok.
  destruct (unsupported_cases ft Hsup) as (-> & -> & -> & -> & ->).
  reflexivity.
Qed.

(** A row whose filter-type byte lies beyond the stream raises. *)
Lemma defilter_row_missing (w : nat) (data : bytes) (row : nat)
    (st : defilter_state) :
  length data <= row * (w * 3 + 1) ->
  defilter_row w data row st = ([], Raise IndexError).
Proof.
  intros Hlen. unfold defilter_row.
  rewrite (getitem_ge _ _ Hlen). reflexivity.
Qed.

(** ** The row loop *)

Lemma list_sum_cons (x : nat) (l : list nat) :
  list_sum (x :: l) = x + list_sum l.
Proof. reflexivity. Qed.

Lemma covers_mono (prev : option bytes) (n n' : nat) :
  n' <= n -> covers prev n -> covers prev n'.
Proof. destruct prev; cbn; [lia | auto]. Qed.

Lemma defilter_rows_app (w : nat) (data : bytes) (rows1 rows2 : list nat)
    (st : defilter_state) :
  defilter_rows w data (rows1 ++ rows2) st
  = py_bind (defilter_rows w data rows1 st)
            (fun st' => defilter_rows w data rows2 st').
Proof.
  revert st. induction rows1 as [|r rows1 IH]; intros st.
  - cbn. destruct (defilter_rows w data rows2 st). reflexivity.
  - cbn [app defilter_rows].
    destruct (defilter_row w data r st) as [out [st1|e]]; cbn [py_bind]; [|reflexivity].
    rewrite IH.
    destruct (defilter_rows w data rows1 st1) as [out1 [st2|e]]; cbn [py_bind].
    + destruct (defilter_rows w data rows2 st2). now rewrite app_assoc.
    + reflexivity.
Qed.

(** A row whose filter-type byte is in the stream never fails. *)
Lemma defilter_row_present (w : nat) (data : bytes) (k : nat) (st : defilter_state) :
  k * (w * 3 + 1) < length data ->
  covers (previous_scanline st) (length (scanline_of w data k)) ->
  exists st',
    defilter_row w data k st = (row_messages w data k, Ok st')
    /\ length (unfiltered_data st')
       = length (unfiltered_data st) + row_output_length w data k
    /\ covers (previous_scanline st') (length (scanline_of w data (S k))).
Proof.
  intros Hpresent Hcov.
  destruct (lookup_lt_is_Some_2 data (k * (w * 3 + 1)) Hpresent) as [ft Hft].
  assert (Hnext : length (scanline_of w data (S k))
                  <= length (scanline_of w data k))
    by (apply scanline_length_antitone; lia).
  unfold row_messages, row_output_length, row_supported.
  fold (filter_type_of w data k) in Hft. rewrite Hft.
  destruct (supported ft) eqn:Hsup.
  - destruct (defilter_row_supported w data k st ft Hft Hsup Hcov)
      as (rb & -> & Hrb).
    eexists. split; [reflexivity|]. cbn [unfiltered_data previous_scanline covers].
    rewrite length_app. split; [lia | exact Hnext].
  - rewrite (defilter_row_unsupported w data k st ft Hft Hsup).
    exists st. split; [reflexivity|]. split; [lia|].
    eapply covers_mono; eassumption.
Qed.

(** While the stream still holds the filter-type byte of every row, the
    loop does not fail: supported rows add their scanline's length to the
    output, the others add one printed line. *)
Lemma defilter_rows_present (w : nat) (data : bytes) (m : nat) :
  forall (k : nat) (st : defilter_state),
    (forall r, k <= r < k + m -> r * (w * 3 + 1) < length data) ->
    covers (previous_scanline st) (length (scanline_of w data k)) ->
    exists st',
      defilter_rows w data (seq k m) st
      = (flat_map (row_messages w data) (seq k m), Ok st')
      /\ length (unfiltered_data st')
         = length (unfiltered_data st)
           + list_sum (map (row_output_length w data) (seq k m))
      /\ covers (previous_scanline st') (length (scanline_of w data (k + m))).
Proof.
  induction m as [|m IH]; intros k st Hpresent Hcov.
  - exists st. cbn. rewrite !Nat.add_0_r. auto.
  - destruct (defilter_row_present w data k st) as (st1 & Hrow & Hlen1 & Hcov1);
      [apply Hpresent; lia | exact Hcov |].
    destruct (IH (S k) st1) as (st' & Hrun & Hlen & Hcov');
      [intros r Hr; apply Hpresent; lia | exact Hcov1 |].
    exists st'. cbn [seq flat_map map defilter_rows].
    rewrite Hrow. cbn [py_bind]. rewrite Hrun.
    replace (k + S m) with (S k + m) by lia.
    split; [reflexivity|]. split; [rewrite list_sum_cons; lia | exact Hcov'].
Qed.

(** The loop raises [IndexError] as soon as it reaches a row whose
    filter-type byte lies beyond the stream. *)
Lemma defilter_rows_missing (w : nat) (data : bytes) (m : nat) :
  forall (k : nat) (st : defilter_state),
    (exists r, k <= r < k + m /\ length data <= r * (w * 3 + 1)) ->
    covers (previous_scanline st) (length (scanline_of w data k)) ->
    snd (defilter_rows w data (seq k m) st) = Raise IndexError.
Proof.
  induction m as [|m IH]; intros k st (r & Hr & Hmiss) Hcov; [lia|].
  cbn [seq defilter_rows].
  destruct (le_lt_dec (length data) (k * (w * 3 + 1))) as [Hk|Hk].
  - rewrite (defilter_row_missing w data k st Hk). reflexivity.
  - destruct (defilter_row_present w data k st Hk Hcov) as (st1 & Hrow & _ & Hcov1).
    rewrite Hrow. cbn [py_bind].
    assert (Hne : r <> k) by (intros ->; lia).
    assert (Hr' : S k <= r < S k + m) by lia.
    specialize (IH (S k) st1 (ex_intro _ r (conj Hr' Hmiss)) Hcov1).
    destruct (defilter_rows w data (seq (S k) m) st1) as [out o].
    exact IH.
Qed.

(** ** The defilter engine as a whole *)

Lemma apply_filters_present (w h : nat) (data : bytes) :
  (forall r, r < h -> r * (w * 3 + 1) < length data) ->
  exists out,
    apply_filters_to_data w h data
    = (flat_map (row_messages w data) (range 0 h), Ok out)
    /\ length out = list_sum (map (row_output_length w data) (range 0 h)).
Proof.
  intros Hpresent. unfold apply_filters_to_data, range. rewrite Nat.sub_0_r.
  destruct (defilter_rows_present w data h 0 defilter_init)
    as (st & -> & Hlen & _); [intros r Hr; apply Hpresent; lia | exact I |].
  exists (unfiltered_data st). cbn [py_bind py_ret].
  rewrite app_nil_r. split; [reflexivity | exact Hlen].
Qed.

Lemma row_present_of_length (w h : nat) (data : bytes) (r : nat) :
  (h - 1) * (w * 3 + 1) < length data -> r < h ->
  r * (w * 3 + 1) < length data.
Proof.
  intros Hlen Hr.
  assert (r * (w * 3 + 1) <= (h - 1) * (w * 3 + 1))
    by (apply Nat.mul_le_mono_r; lia).
  lia.
Qed.

Lemma row_supported_of_types (w h : nat) (data : bytes) (r : nat) :
  filter_types_supported w h data -> r < h ->
  r * (w * 3 + 1) < length data ->
  row_supported w data r = true.
Proof.
  intros Hsup Hr Hpresent. unfold row_supported.
  destruct (lookup_lt_is_Some_2 data (r * (w * 3 + 1)) Hpresent) as [ft Hft].
  fold (filter_type_of w data r) in Hft. rewrite Hft.
  specialize (Hsup r ft Hr Hft). unfold supported. lia.
Qed.

Lemma row_messages_supported (w : nat) (data : bytes) (r : nat) :
  row_supported w data r = true -> row_messages w data r = [].
Proof.
  unfold row_supported, row_messages.
  destruct (filter_type_of w data r) as [ft|]; [|reflexivity].
  intros ->. reflexivity.
Qed.

Lemma flat_map_nil {A B} (f : A -> list B) (l : list A) :
  (forall x, In x l -> f x = []) -> flat_map f l = [].
Proof.
  induction l as [|x l IH]; intros Hf; [reflexivity|].
  cbn. rewrite (Hf x) by (left; reflexivity).
  apply IH. intros y Hy. apply Hf. right. exact Hy.
Qed.

Lemma list_sum_indicator {A} (f : A -> nat) (p : A -> bool) (c : nat) (l : list A) :
  (forall x, In x l -> f x = if p x then c else 0) ->
  list_sum (map f l) = c * length (List.filter p l).
Proof.
  induction l as [|x l IH]; intros Hf; [cbn; lia|].
  cbn [map List.filter]. rewrite list_sum_cons, (Hf x) by (left; reflexivity).
  rewrite IH by (intros y Hy; apply Hf; right; exact Hy).
  destruct (p x); cbn [length]; lia.
Qed.

Lemma list_sum_const {A} (f : A -> nat) (c : nat) (l : list A) :
  (forall x, In x l -> f x = c) -> list_sum (map f l) = c * length l.
Proof.
  induction l as [|x l IH]; intros Hf; [cbn; lia|].
  cbn [map]. rewrite list_sum_cons, (Hf x) by (left; reflexivity).
  rewrite IH by (intros y Hy; apply Hf; right; exact Hy).
  cbn [length]. lia.
Qed.

Lemma in_range (a b r : nat) : In r (range a b) <-> a <= r < b.
Proof. unfold range. rewrite in_seq. lia. Qed.

(** C5 (as amended). A row whose filter-type byte is outside 0..4 does not
    make the engine fail: the row prints one "Unsupported filter" line and
    leaves both the output and the previous-row reference as they were; on
    a stream that holds all [h] rows the engine returns normally, with
    [w * 3] bytes for each row of a supported type only. *)
Theorem unsupported_filter_rows_are_skipped (w h : nat) (data : bytes) :
  h * (w * 3 + 1) <= length data ->
  (forall row st ft,
     filter_type_of w data row = Some ft ->
     ~ (0 <= ft <= 4)%Z ->
     defilter_row w data row st = ([PrintUnsupportedFilter ft], Ok st))
  /\ exists out,
       apply_filters_to_data w h data
       = (flat_map (row_messages w data) (range 0 h), Ok out)
       /\ length out
          = w * 3 * length (List.filter (row_supported w data) (range 0 h)).
Proof.
  intros Hlen. split.
  - intros row st ft Hft Hbad. apply defilter_row_unsupported; [exact Hft|].
    unfold supported. lia.
  - assert (Hfull : forall r, r < h -> (r + 1) * (w * 3 + 1) <= length data).
    { intros r Hr.
      assert ((r + 1) * (w * 3 + 1) <= h * (w * 3 + 1))
        by (apply Nat.mul_le_mono_r; lia).
      lia. }
    destruct (apply_filters_present w h data) as (out & Hrun & Hout).
    { intros r Hr. specialize (Hfull r Hr). lia. }
    exists out. split; [exact Hrun|]. rewrite Hout.
    apply list_sum_indicator. intros r Hr. apply in_range in Hr.
    unfold row_output_length.
    rewrite scanline_length_full by (apply Hfull; lia). reflexivity.
Qed.

(** Witness for C5: a 1x2 image whose second row has filter type 9. *)
Lemma unsupported_filter_rows_are_skipped_witness :
  exists out,
    apply_filters_to_data 1 2 [0; 1; 2; 3; 9; 4; 5; 6]%Z
    = (flat_map (row_messages 1 [0; 1; 2; 3; 9; 4; 5; 6]%Z) (range 0 2), Ok out)
    /\ length out
       = 1 * 3 * length (List.filter (row_supported 1 [0; 1; 2; 3; 9; 4; 5; 6]%Z)
                                     (range 0 2)).
Proof.
  exact (proj2 (unsupported_filter_rows_are_skipped 1 2 [0; 1; 2; 3; 9; 4; 5; 6]%Z
                  ltac:(cbn; lia))).
Defined.

(** Counterexample for C5: filter type 5 is reported on standard output
    and the engine returns normally, with an empty output. *)
Lemma unknown_filter_type_does_not_fail :
  apply_filters_to_data 1 1 [5; 1; 2; 3]%Z = ([PrintUnsupportedFilter 5], Ok []).
Proof. reflexivity. Qed.

Lemma apply_filters_supported (w h : nat) (data : bytes) :
  (h - 1) * (w * 3 + 1) < length data ->
  filter_types_supported w h data ->
  exists out,
    apply_filters_to_data w h data = ([], Ok out)
    /\ length out = list_sum (map (fun r => length (scanline_of w data r)) (range 0 h)).
Proof.
  intros Hlen Hsup.
  assert (Hrows : forall r, In r (range 0 h) -> row_supported w data r = true).
  { intros r Hr. apply in_range in Hr.
    apply (row_supported_of_types w h); [exact Hsup | lia |].
    apply (row_present_of_length w h); [exact Hlen | lia]. }
  destruct (apply_filters_present w h data) as (out & Hrun & Hout).
  { intros r Hr. now apply (row_present_of_length w h). }
  exists out. rewrite Hrun, Hout. split.
  - f_equal. apply flat_map_nil. intros r Hr.
    apply row_messages_supported, Hrows, Hr.
  - f_equal. apply map_ext_in. intros r Hr.
    unfold row_output_length. now rewrite (Hrows r Hr).
Qed.

(** C6 (as amended). With three bytes per pixel: a stream of at least
    [h * (1 + w * 3)] bytes whose filter types are all in 0..4 gives exactly
    [h * w * 3] bytes. A shorter stream makes the engine fail, by an
    [IndexError], only if it ends at or before the filter-type byte of one
    of the [h] rows; a stream cut inside the data of the last row is
    accepted and gives [length data - h] bytes. *)
Theorem defilter_output_length (w h : nat) (data : bytes) :
  (h * (1 + w * 3) <= length data ->
   filter_types_supported w h data ->
   exists out,
     apply_filters_to_data w h data = ([], Ok out) /\ length out = h * w * 3)
  /\ (0 < h -> length data <= (h - 1) * (1 + w * 3) ->
      snd (apply_filters_to_data w h data) = Raise IndexError)
  /\ ((h - 1) * (1 + w * 3) < length data < h * (1 + w * 3) ->
      filter_types_supported w h data ->
      exists out,
        apply_filters_to_data w h data = ([], Ok out)
        /\ length out = length data - h).
Proof.
  replace (1 + w * 3) with (w * 3 + 1) by lia.
  split; [|split].
  - intros Hlen Hsup.
    destruct h as [|h'].
    { exists []. split; reflexivity. }
    destruct (apply_filters_supported w (S h') data) as (out & Hrun & Hout);
      [|exact Hsup|].
    { apply Nat.lt_le_trans with (m := S h' * (w * 3 + 1)); [|exact Hlen].
      apply Nat.mul_lt_mono_pos_r; lia. }
    exists out. split; [exact Hrun|]. rewrite Hout.
    rewrite (list_sum_const _ (w * 3)).
    + unfold range. rewrite length_seq. lia.
    + intros r Hr. apply in_range in Hr. apply scanline_length_full.
      apply Nat.le_trans with (m := S h' * (w * 3 + 1)); [|exact Hlen].
      apply Nat.mul_le_mono_r. lia.
  - intros Hh Hlen. unfold apply_filters_to_data, range. rewrite Nat.sub_0_r.
    pose proof (defilter_rows_missing w data h 0 defilter_init) as Hmiss.
    destruct (defilter_rows w data (seq 0 h) defilter_init) as [out o].
    cbn [snd] in Hmiss. rewrite Hmiss; [reflexivity| |exact I].
    exists (h - 1). split; [lia | exact Hlen].
  - intros [Hlo Hhi] Hsup.
    destruct (apply_filters_supported w h data Hlo Hsup) as (out & Hrun & Hout).
    exists out. split; [exact Hrun|]. rewrite Hout.
    destruct h as [|h']; [cbn in Hlo; lia|].
    unfold range. rewrite Nat.sub_0_r, seq_S, map_app, list_sum_app.
    rewrite (list_sum_const _ (w * 3)).
    + cbn [Nat.add map list_sum fold_right]. rewrite length_seq, scanline_length.
      replace (S h' - 1) with h' in * by lia. lia.
    + intros r Hr. apply in_seq in Hr. apply scanline_length_full.
      replace (S h' - 1) with h' in * by lia.
      apply Nat.le_trans with (m := h' * (w * 3 + 1)); [|lia].
      apply Nat.mul_le_mono_r. lia.
Qed.

(** Witness for C6: a 1x2 image, complete, cut before its second row, and
    cut inside its second row. *)
Lemma defilter_output_length_witness :
  (exists out,
     apply_filters_to_data 1 2 [0; 1; 2; 3; 1; 4; 5; 6]%Z = ([], Ok out)
     /\ length out = 2 * 1 * 3)
  /\ snd (apply_filters_to_data 1 2 [0; 1; 2; 3]%Z) = Raise IndexError
  /\ (exists out,
        apply_filters_to_data 1 2 [0; 1; 2; 3; 1; 4]%Z = ([], Ok out)
        /\ length out = length [0; 1; 2; 3; 1; 4]%Z - 2).
Proof.
  split; [|split].
  - apply (proj1 (defilter_output_length 1 2 [0; 1; 2; 3; 1; 4; 5; 6]%Z)).
    + cbn. lia.
    + intros [|[|r]] ft Hr; cbn; intros [= <-]; lia.
  - apply (proj1 (proj2 (defilter_output_length 1 2 [0; 1; 2; 3]%Z))); cbn; lia.
  - apply (proj2 (proj2 (defilter_output_length 1 2 [0; 1; 2; 3; 1; 4]%Z))).
    + cbn. lia.
    + intros [|[|r]] ft Hr; cbn; intros [= <-]; lia.
Defined.

(** Counterexample for C6: a 1x1 stream one byte long after its filter
    byte is shorter than [1 * (1 + 1 * 3)], yet it is not rejected. *)
Lemma truncated_last_row_is_accepted :
  length [0; 5]%Z < 1 * (1 + 1 * 3)
  /\ apply_filters_to_data 1 1 [0; 5]%Z = ([], Ok [5]%Z).
Proof. split; [cbn; lia | reflexivity]. Qed.

(** ** The previous-row reference *)

(** After a row of a supported filter type the reference is that row's raw
    scanline, whatever the filter rebuilt. *)
Lemma previous_scanline_after_row (w : nat) (data : bytes) (row : nat)
    (st st' : defilter_state) (ft : Z) (out : list message) :
  filter_type_of w data row = Some ft ->
  supported ft = true ->
  defilter_row w data row st = (out, Ok st') ->
  previous_scanline st' = Some (scanline_of w data row).
Proof.
  intros Hft Hsup. unfold defilter_row, filter_type_of in *.
  rewrite (getitem_Some _ _ _ Hft), py_bind_lift_Ok.
  fold (scanline_of w data row). unfold extend_and_track.
  destruct (supported_cases ft Hsup) as [->|[->|[->|[->| ->]]]]; cbn [Z.eqb Pos.eqb];
    match goal with
    | |- py_bind (py_lift ?r) _ = _ -> _ => destruct r; cbn
    end; intros [=]; subst; reflexivity.
Qed.

(** C1. On the 2x2 stream below, row 0 has filter type 1 (Sub) and rebuilds
    to [1,0,0,2,0,0]; the reference kept for row 1 is the raw scanline
    [1,0,0,1,0,0], and row 1 (filter type 2, Up, all zero) comes out as
    that raw scanline instead of the rebuilt row. *)
Theorem previous_row_reference_is_raw :
  defilter_rows 2 [1; 1; 0; 0; 1; 0; 0; 2; 0; 0; 0; 0; 0; 0]%Z [0] defilter_init
  = ([], Ok {| unfiltered_data := [1; 0; 0; 2; 0; 0]%Z;
               previous_scanline := Some [1; 0; 0; 1; 0; 0]%Z |})
  /\ apply_filters_to_data 2 2 [1; 1; 0; 0; 1; 0; 0; 2; 0; 0; 0; 0; 0; 0]%Z
     = ([], Ok [1; 0; 0; 2; 0; 0; 1; 0; 0; 1; 0; 0]%Z).
Proof. split; reflexivity. Qed.

(** C2. The 1x3 image [1,0,0, 2,0,0, 3,0,0], filtered with type 2 (Up) on
    every row, does not come back: the third row is rebuilt from the raw
    second scanline and reads [2,0,0]. *)
Theorem round_trip_fails_for_up :
  forward_filter 2 1 3 [1; 0; 0; 2; 0; 0; 3; 0; 0]%Z
  = [2; 1; 0; 0; 2; 1; 0; 0; 2; 1; 0; 0]%Z
  /\ apply_filters_to_data 1 3 (forward_filter 2 1 3 [1; 0; 0; 2; 0; 0; 3; 0; 0]%Z)
     = ([], Ok [1; 0; 0; 2; 0; 0; 2; 0; 0]%Z).
Proof. split; reflexivity. Qed.

(** ** The chunk loop, chunk by chunk *)

Lemma after_printing_nil {A} (k : py A) : after_printing [] k = k.
Proof. destruct k. reflexivity. Qed.

Lemma after_printing_app {A} (out out' : list message) (k : py A) :
  after_printing out (after_printing out' k) = after_printing (out ++ out') k.
Proof. unfold after_printing. cbn. now rewrite app_assoc. Qed.

(** One iteration of the loop on a stream that starts with a complete
    chunk. *)
Lemma chunk_loop_chunk (c : chunk) (rest : bytes) (st : png_state) :
  chunk_wf c ->
  chunk_loop (chunk_bytes c ++ rest) st
  = match process_chunk c st with
    | ChunkRaises e => py_raise e
    | ChunkBreaks => py_ret (Some st)
    | ChunkContinues out st' => after_printing out (chunk_loop rest st')
    end.
Proof.
  intros (Hlen & Hty & Hdata & Hcrc).
  rewrite chunk_loop_equation_1. cbv zeta.
  unfold chunk_bytes. rewrite <- !app_assoc.
  rewrite (take_app_length' (chunk_length c)) by (symmetry; exact Hlen).
  rewrite (drop_app_length' (chunk_length c)) by (symmetry; exact Hlen).
  destruct (decide (length (chunk_length c) = 4)) as [_|Hne]; [|contradiction].
  rewrite (take_app_length' (chunk_type c)) by (symmetry; exact Hty).
  rewrite (drop_app_length' (chunk_type c)) by (symmetry; exact Hty).
  rewrite Hty. cbn [Nat.eqb negb].
  unfold process_chunk.
  destruct (decode_ascii (chunk_type c)) as [chunk_type_str|e]; [|reflexivity].
  rewrite (take_app_length' (chunk_data c)) by (symmetry; exact Hdata).
  rewrite (drop_app_length' (chunk_data c)) by (symmetry; exact Hdata).
  rewrite Hdata, Nat.eqb_refl. cbn [negb].
  rewrite (take_app_length' (chunk_crc c)) by (symmetry; exact Hcrc).
  rewrite (drop_app_length' (chunk_crc c)) by (symmetry; exact Hcrc).
  rewrite Hcrc. cbn [Nat.eqb negb].
  destruct (String.eqb chunk_type_str "IHDR").
  { destruct (unpack_header (chunk_data c)); reflexivity. }
  destruct (String.eqb chunk_type_str "IDAT").
  { now rewrite after_printing_nil. }
  destruct (String.eqb chunk_type_str "IEND"); reflexivity.
Qed.

(** The loop over a run of complete chunks that it does not leave. *)
Lemma chunk_loop_chunks (cs : list chunk) (rest : bytes) :
  forall (st st' : png_state) (out : list message),
    Forall chunk_wf cs ->
    process_chunks cs st = Some (out, st') ->
    chunk_loop (flat_map chunk_bytes cs ++ rest) st
    = after_printing out (chunk_loop rest st').
Proof.
  induction cs as [|c cs IH]; intros st st' out Hwf Hrun.
  - cbn in Hrun. injection Hrun as <- <-. cbn. now rewrite after_printing_nil.
  - apply Forall_cons in Hwf as [Hc Hcs].
    cbn [flat_map process_chunks] in *. rewrite <- app_assoc.
    rewrite (chunk_loop_chunk c _ st Hc).
    destruct (process_chunk c st) as [e| |out1 st1]; try discriminate.
    destruct (process_chunks cs st1) as [[out2 st2]|] eqn:Hrest; [|discriminate].
    injection Hrun as <- <-.
    rewrite (IH st1 st2 out2 Hcs Hrest). apply after_printing_app.
Qed.

(** ** [read_png] on a stream of chunks *)

Lemma read_png_file_signed (zlib : bytes -> option bytes) (sig body : bytes) :
  length sig = 8 ->
  read_png_file zlib (sig ++ body)
  = if negb (bool_decide (sig = PNG_SIGNATURE)) then
      print PrintInvalidSignature (py_ret None)
    else
      py_bind (chunk_loop body png_init)
        (fun broke =>
           match broke with
           | None => py_ret None
           | Some st => decode_pixels zlib st
           end).
Proof.
  intros Hsig. unfold read_png_file. cbv zeta.
  rewrite (take_app_length' sig) by (symmetry; exact Hsig).
  rewrite (drop_app_length' sig) by (symmetry; exact Hsig).
  reflexivity.
Qed.

Lemma py_bind_after_printing {A B} (out : list message) (m : py A) (k : A -> py B) :
  py_bind (after_printing out m) k = after_printing out (py_bind m k).
Proof.
  destruct m as [out1 [a|e]]; unfold after_printing; cbn.
  - destruct (k a). cbn. now rewrite app_assoc.
  - reflexivity.
Qed.

(** The stream ends inside the payload of a chunk whose type is ASCII. *)
Lemma chunk_loop_short_payload (lb ty tail : bytes) (s : string) (st : png_state) :
  length lb = 4 -> length ty = 4 -> decode_ascii ty = Ok s ->
  length tail < unpack_be32 lb ->
  chunk_loop (lb ++ ty ++ tail) st
  = ([PrintExpectedBytes (unpack_be32 lb) (length tail)], Ok None).
Proof.
  intros Hlb Hty Hs Hshort.
  rewrite chunk_loop_equation_1. cbv zeta.
  rewrite (take_app_length' lb) by (symmetry; exact Hlb).
  rewrite (drop_app_length' lb) by (symmetry; exact Hlb).
  destruct (decide (length lb = 4)) as [_|Hne]; [|contradiction].
  rewrite (take_app_length' ty) by (symmetry; exact Hty).
  rewrite (drop_app_length' ty) by (symmetry; exact Hty).
  rewrite Hty, Hs. cbn [Nat.eqb negb].
  rewrite take_ge by lia.
  destruct (Nat.eqb_spec (length tail) (unpack_be32 lb)); [lia|].
  reflexivity.
Qed.

(** The type of a chunk is decoded before its payload is read. *)
Lemma chunk_loop_undecodable_type (lb ty tail : bytes) (e : exn) (st : png_state) :
  length lb = 4 -> length ty = 4 -> decode_ascii ty = Raise e ->
  chunk_loop (lb ++ ty ++ tail) st = ([], Raise e).
Proof.
  intros Hlb Hty He.
  rewrite chunk_loop_equation_1. cbv zeta.
  rewrite (take_app_length' lb) by (symmetry; exact Hlb).
  rewrite (drop_app_length' lb) by (symmetry; exact Hlb).
  destruct (decide (length lb = 4)) as [_|Hne]; [|contradiction].
  rewrite (take_app_length' ty) by (symmetry; exact Hty).
  rewrite Hty, He. reflexivity.
Qed.

(** C7 (as amended). When the declared length of a chunk exceeds the bytes
    that follow its type, and the type is ASCII, [read_png] prints the
    line "Expected N bytes for chunk data, but got M" and returns [None]
    from the loop itself: the short payload is never used and the generic
    handler is not involved. When the type is not ASCII, decoding it
    raises before the payload is read and the generic handler reports
    that instead. *)
Theorem truncated_chunk_is_reported (zlib : bytes -> option bytes)
    (fs : string -> option bytes) (filename : string)
    (cs : list chunk) (out : list message) (st : png_state)
    (lb ty tail : bytes) :
  fs filename = Some (PNG_SIGNATURE ++ flat_map chunk_bytes cs ++ lb ++ ty ++ tail) ->
  Forall chunk_wf cs ->
  process_chunks cs png_init = Some (out, st) ->
  length lb = 4 -> length ty = 4 ->
  length tail < unpack_be32 lb ->
  (forall s, decode_ascii ty = Ok s ->
     read_png zlib fs filename
     = (out ++ [PrintExpectedBytes (unpack_be32 lb) (length tail)], None))
  /\ (forall e, decode_ascii ty = Raise e ->
        read_png zlib fs filename = (out ++ [PrintUnexpected e], None)).
Proof.
  intros Hfs Hwf Hrun Hlb Hty Hshort.
  unfold read_png. rewrite Hfs.
  rewrite read_png_file_signed by reflexivity.
  rewrite bool_decide_eq_true_2 by reflexivity. cbn [negb].
  rewrite (chunk_loop_chunks cs _ png_init st out Hwf Hrun).
  rewrite py_bind_after_printing.
  split.
  - intros s Hs.
    rewrite (chunk_loop_short_payload lb ty tail s st Hlb Hty Hs Hshort).
    reflexivity.
  - intros e He.
    rewrite (chunk_loop_undecodable_type lb ty tail e st Hlb Hty He).
    cbn. now rewrite app_nil_r.
Qed.

(** Witness for C7: after a complete header chunk, an [IDAT] chunk that
    declares 18 bytes and holds 2. *)
Lemma truncated_chunk_is_reported_witness :
  read_png sample_decompress
    (fun _ => Some (PNG_SIGNATURE ++ flat_map chunk_bytes [sample_ihdr 8 2]
                      ++ [0; 0; 0; 18] ++ [73; 68; 65; 84] ++ [120; 1]))%Z
    "image.png"
  = ([PrintHeader 2 1 2 8] ++ [PrintExpectedBytes (unpack_be32 [0; 0; 0; 18]%Z) 2],
     None).
Proof.
  refine (proj1 (truncated_chunk_is_reported sample_decompress _ "image.png"
                   [sample_ihdr 8 2] [PrintHeader 2 1 2 8]
                   (set_header (HeaderVars 2 1 8 2 0 0 0) png_init)
                   [0; 0; 0; 18]%Z [73; 68; 65; 84]%Z [120; 1]%Z
                   eq_refl _ eq_refl eq_refl eq_refl _) "IDAT"%string eq_refl).
  - repeat constructor.
  - vm_compute. lia.
Defined.

(** Counterexample for C7: the declared length 5 exceeds the 2 bytes left,
    but the type starts with byte 255 and the generic handler answers. *)
Lemma truncated_chunk_with_bad_type :
  read_png sample_decompress
    (fun _ => Some (PNG_SIGNATURE ++ [0; 0; 0; 5; 255; 68; 65; 84; 1; 2]))%Z
    "image.png"
  = ([PrintUnexpected UnicodeDecodeError], None).
Proof. reflexivity. Qed.

(** [read_png] on a stream whose chunks lead the loop to its [break]. *)
Lemma read_png_file_break (zlib : bytes -> option bytes)
    (cs : list chunk) (cend : chunk) (trailing : bytes)
    (out : list message) (st : png_state) :
  Forall chunk_wf cs -> chunk_wf cend ->
  process_chunks cs png_init = Some (out, st) ->
  process_chunk cend st = ChunkBreaks ->
  read_png_file zlib
    (PNG_SIGNATURE ++ flat_map chunk_bytes cs ++ chunk_bytes cend ++ trailing)
  = after_printing out (decode_pixels zlib st).
Proof.
  intros Hwf Hend Hrun Hbreak.
  rewrite read_png_file_signed by reflexivity.
  rewrite bool_decide_eq_true_2 by reflexivity. cbn [negb].
  rewrite (chunk_loop_chunks cs _ png_init st out Hwf Hrun).
  rewrite py_bind_after_printing.
  rewrite (chunk_loop_chunk cend trailing st Hend), Hbreak.
  f_equal. unfold py_ret, py_bind.
  destruct (decode_pixels zlib st). reflexivity.
Qed.

(** An [IHDR] chunk with a 13-byte payload is taken as it is. *)
Lemma process_header_chunk (lb crc : bytes) (w0 w1 w2 w3 h0 h1 h2 h3 : Z)
    (bd ct cm fm im : Z) (st : png_state) :
  process_chunk
    (Chunk lb [73; 72; 68; 82]%Z [w0; w1; w2; w3; h0; h1; h2; h3; bd; ct; cm; fm; im]
           crc) st
  = ChunkContinues
      [PrintHeader (unpack_be32 [w0; w1; w2; w3]) (unpack_be32 [h0; h1; h2; h3])
                   ct bd]
      (set_header
         {| width := unpack_be32 [w0; w1; w2; w3];
            height := unpack_be32 [h0; h1; h2; h3];
            bit_depth := bd; color_type := ct; compression_method := cm;
            filter_method := fm; interlace_method := im |} st).
Proof. reflexivity. Qed.

(** C8 (as amended). [read_png] has no format check: an [IHDR] chunk is
    accepted with whatever bit depth and colour type it declares, and when
    the stream reaches [IEND] and decompresses, the rows are defiltered
    with three bytes per pixel and the declared bit depth and colour type
    are returned unchanged next to the result. *)
Theorem header_format_is_not_checked (zlib : bytes -> option bytes)
    (fs : string -> option bytes) (filename : string)
    (cs : list chunk) (cend : chunk) (trailing : bytes)
    (out : list message) (st : png_state) (hdr : header_vars)
    (raw : bytes) (fout : list message) (data : bytes) :
  fs filename
  = Some (PNG_SIGNATURE ++ flat_map chunk_bytes cs ++ chunk_bytes cend ++ trailing) ->
  Forall chunk_wf cs -> chunk_wf cend ->
  process_chunks cs png_init = Some (out, st) ->
  process_chunk cend st = ChunkBreaks ->
  header st = Some hdr ->
  zlib (pixel_data st) = Some raw ->
  apply_filters_to_data (width hdr) (height hdr) raw = (fout, Ok data) ->
  read_png zlib fs filename
  = (out ++ fout,
     Some (width hdr, height hdr, color_type hdr, bit_depth hdr, data))
  /\ forall (lb crc : bytes) (w0 w1 w2 w3 h0 h1 h2 h3 bd ct cm fm im : Z)
            (st0 : png_state),
       process_chunk
         (Chunk lb [73; 72; 68; 82]%Z
                [w0; w1; w2; w3; h0; h1; h2; h3; bd; ct; cm; fm; im] crc) st0
       = ChunkContinues
           [PrintHeader (unpack_be32 [w0; w1; w2; w3])
                        (unpack_be32 [h0; h1; h2; h3]) ct bd]
           (set_header
              {| width := unpack_be32 [w0; w1; w2; w3];
                 height := unpack_be32 [h0; h1; h2; h3];
                 bit_depth := bd; color_type := ct; compression_method := cm;
                 filter_method := fm; interlace_method := im |} st0).
Proof.
  intros Hfs Hwf Hend Hrun Hbreak Hhdr Hz Hdefilter.
  split; [|intros; apply process_header_chunk].
  unfold read_png. rewrite Hfs.
  rewrite (read_png_file_break zlib cs cend trailing out st Hwf Hend Hrun Hbreak).
  unfold decode_pixels, header_ints. rewrite Hz, Hhdr, py_bind_lift_Ok.
  cbv zeta. rewrite Hdefilter. cbn. now rewrite app_nil_r.
Qed.

(** Witness for C8: the minimal 2x1 file with a header that declares bit
    depth 16. *)
Lemma header_format_is_not_checked_witness :
  read_png sample_decompress
    (fun _ => Some (PNG_SIGNATURE
                      ++ flat_map chunk_bytes [sample_ihdr 16 2; sample_idat]
                      ++ chunk_bytes sample_iend ++ []))
    "image.png"
  = ([PrintHeader 2 1 2 16] ++ [],
     Some (2, 1, 2%Z, 16%Z, [255; 0; 0; 0; 255; 0]%Z)).
Proof.
  refine (proj1 (header_format_is_not_checked sample_decompress _ "image.png"
                   [sample_ihdr 16 2; sample_idat] sample_iend []
                   [PrintHeader 2 1 2 16]
                   {| header := Some (HeaderVars 2 1 16 2 0 0 0);
                      pixel_data := sample_payload |}
                   (HeaderVars 2 1 16 2 0 0 0)
                   [0; 255; 0; 0; 0; 255; 0]%Z [] [255; 0; 0; 0; 255; 0]%Z
                   eq_refl _ _ eq_refl eq_refl eq_refl eq_refl eq_refl)).
  - repeat constructor.
  - repeat constructor.
Defined.

(** Counterexample for C8: a header that declares bit depth 16 is decoded
    like any other. *)
Lemma sixteen_bit_header_is_decoded :
  read_png sample_decompress
    (fun _ => Some (PNG_SIGNATURE ++ chunk_bytes (sample_ihdr 16 2)
                      ++ chunk_bytes sample_idat ++ chunk_bytes sample_iend))
    "image.png"
  = ([PrintHeader 2 1 2 16], Some (2, 1, 2%Z, 16%Z, [255; 0; 0; 0; 255; 0]%Z)).
Proof. reflexivity. Qed.

(** ** Checksum bytes *)

Lemma process_chunk_ignores_crc (c1 c2 : chunk) (st : png_state) :
  chunk_type c1 = chunk_type c2 ->
  chunk_data c1 = chunk_data c2 ->
  process_chunk c1 st = process_chunk c2 st.
Proof. unfold process_chunk. intros -> ->. reflexivity. Qed.

Lemma chunk_loop_crc_variant (f1 f2 : bytes) :
  crc_variant f1 f2 -> forall st, chunk_loop f1 st = chunk_loop f2 st.
Proof.
  induction 1 as [f|c1 c2 rest1 rest2 Hwf1 Hwf2 Hlen Hty Hdata _ IH]; intros st.
  - reflexivity.
  - rewrite (chunk_loop_chunk c1 rest1 st Hwf1), (chunk_loop_chunk c2 rest2 st Hwf2).
    rewrite (process_chunk_ignores_crc c1 c2 st Hty Hdata).
    destruct (process_chunk c2 st) as [e| |out st']; try reflexivity.
    now rewrite IH.
Qed.

(** C9. The checksum bytes are read and never looked at: two files with
    the same eight leading bytes whose chunk sequences differ only in
    checksum bytes give the same printed lines and the same result. *)
Theorem checksum_bytes_are_ignored (zlib : bytes -> option bytes)
    (fs1 fs2 : string -> option bytes) (filename1 filename2 : string)
    (sig body1 body2 : bytes) :
  fs1 filename1 = Some (sig ++ body1) ->
  fs2 filename2 = Some (sig ++ body2) ->
  length sig = 8 ->
  crc_variant body1 body2 ->
  read_png zlib fs1 filename1 = read_png zlib fs2 filename2.
Proof.
  intros Hfs1 Hfs2 Hsig Hvar. unfold read_png. rewrite Hfs1, Hfs2.
  rewrite !read_png_file_signed by exact Hsig.
  destruct (negb (bool_decide (sig = PNG_SIGNATURE))); [reflexivity|].
  now rewrite (chunk_loop_crc_variant body1 body2 Hvar).
Qed.

(** Witness for C9: the minimal 2x1 file and the same file with other
    checksum bytes in its header and trailer chunks. *)
Lemma checksum_bytes_are_ignored_witness :
  read_png sample_decompress
    (fun _ => Some (PNG_SIGNATURE
                      ++ chunk_bytes (sample_ihdr 8 2)
                      ++ chunk_bytes sample_idat
                      ++ chunk_bytes sample_iend ++ []))
    "a.png"
  = read_png sample_decompress
      (fun _ => Some (PNG_SIGNATURE
                        ++ chunk_bytes (Chunk [0; 0; 0; 13] [73; 72; 68; 82]
                                          [0; 0; 0; 2; 0; 0; 0; 1; 8; 2; 0; 0; 0]
                                          [9; 9; 9; 9])
                        ++ chunk_bytes sample_idat
                        ++ chunk_bytes (Chunk [0; 0; 0; 0] [73; 69; 78; 68] []
                                          [0; 0; 0; 0]) ++ []))%Z
      "b.png".
Proof.
  refine (checksum_bytes_are_ignored sample_decompress _ _ "a.png" "b.png"
            PNG_SIGNATURE _ _ eq_refl eq_refl eq_refl _).
  apply crc_variant_chunk; try reflexivity; [repeat constructor ..|].
  apply crc_variant_chunk; try reflexivity; [repeat constructor ..|].
  apply crc_variant_chunk; try reflexivity; [repeat constructor ..|].
  apply crc_variant_same.
Defined.

(** ** Every filter follows the reconstruction rule *)

Lemma is_byte_mod (x : Z) : is_byte x -> (x mod 256 = x)%Z.
Proof. unfold is_byte. intros Hx. apply Z.mod_small. lia. Qed.

Lemma lookup_is_byte (l : bytes) (i : nat) (x : Z) :
  Forall is_byte l -> l !! i = Some x -> is_byte x.
Proof. intros Hl Hx. exact (Forall_lookup_1 _ _ _ _ Hl Hx). Qed.

Lemma recurrence_rebuilds (g : nat -> bytes -> res Z) (ft : Z)
    (prev : option bytes) (scan out : bytes) :
  (forall i (fs fs' : bytes), 0 <= i ->
     (forall j, j < i -> fs !! j = fs' !! j) -> g i fs = g i fs') ->
  (forall i (fs : bytes) v x, g i fs = Ok v -> scan !! i = Some x ->
     v = ((x + prediction ft (left_of fs 3 i) (above prev i)
                             (above_left prev 3 i)) mod 256)%Z) ->
  for_each (seq 0 (length scan)) (store_at g) scan = Ok out ->
  rebuilds ft prev scan out.
Proof.
  intros Hlocal Hvalue Hrun.
  destruct (for_each_recurrence g 0 Hlocal _ _ _ _ (Nat.le_refl 0) Hrun)
    as (Hlen & _ & Hval).
  split; [exact Hlen|].
  intros i x Hx.
  destruct (Hval i) as (v & Hv & Hout).
  { split; [lia|]. apply lookup_lt_Some in Hx. lia. }
  rewrite Hout. f_equal. exact (Hvalue i out v x Hv Hx).
Qed.

Lemma above_Some_read (p : bytes) (i : nat) (b : Z) :
  getitem p i = Ok b -> above (Some p) i = b.
Proof.
  intros Hb. apply getitem_Ok_inv in Hb. unfold above.
  destruct p as [|b0 p]; [discriminate|]. cbn [truthy from_option id].
  now rewrite Hb.
Qed.

Lemma up_value_spec (scan p : bytes) (i : nat) (fs : bytes) (v x : Z) :
  up_value scan p i fs = Ok v -> scan !! i = Some x ->
  v = ((x + prediction 2 (left_of fs 3 i) (above (Some p) i)
                         (above_left (Some p) 3 i)) mod 256)%Z.
Proof.
  unfold up_value. intros Hv Hx.
  apply res_bind_Ok_inv in Hv as (x' & Hx' & Hv).
  apply res_bind_Ok_inv in Hv as (b & Hb & Hv).
  apply getitem_Ok_inv in Hx'. rewrite Hx in Hx'. injection Hx' as <-.
  injection Hv as <-. rewrite (above_Some_read _ _ _ Hb).
  apply byte_and_mod.
Qed.

Lemma average_value_spec (scan : bytes) (prev : option bytes) (i : nat)
    (fs : bytes) (v x : Z) :
  average_value scan prev 3 i fs = Ok v -> scan !! i = Some x ->
  v = ((x + prediction 3 (left_of fs 3 i) (above prev i)
                         (above_left prev 3 i)) mod 256)%Z.
Proof.
  unfold average_value. intros Hv Hx.
  apply res_bind_Ok_inv in Hv as (a & Ha & Hv).
  apply res_bind_Ok_inv in Hv as (b & Hb & Hv).
  apply res_bind_Ok_inv in Hv as (x' & Hx' & Hv).
  apply getitem_Ok_inv in Hx'. rewrite Hx in Hx'. injection Hx' as <-.
  injection Hv as <-.
  rewrite (left_read _ _ _ _ Ha), (above_read _ _ _ Hb).
  apply byte_and_mod.
Qed.

Lemma paeth_value_spec (scan : bytes) (prev : option bytes) (i : nat)
    (fs : bytes) (v x : Z) :
  paeth_value scan prev 3 i fs = Ok v -> scan !! i = Some x ->
  v = ((x + prediction 4 (left_of fs 3 i) (above prev i)
                         (above_left prev 3 i)) mod 256)%Z.
Proof.
  unfold paeth_value. intros Hv Hx.
  apply res_bind_Ok_inv in Hv as (a & Ha & Hv).
  apply res_bind_Ok_inv in Hv as (b & Hb & Hv).
  apply res_bind_Ok_inv in Hv as (c & Hc & Hv).
  apply res_bind_Ok_inv in Hv as (x' & Hx' & Hv).
  apply getitem_Ok_inv in Hx'. rewrite Hx in Hx'. injection Hx' as <-.
  injection Hv as <-.
  rewrite (left_read _ _ _ _ Ha), (above_read _ _ _ Hb),
    (above_left_read _ _ _ _ Hc).
  apply byte_and_mod.
Qed.

Lemma none_rebuilds (prev : option bytes) (scan : bytes) :
  Forall is_byte scan -> rebuilds 0 prev scan scan.
Proof.
  intros Hbytes. split; [reflexivity|]. intros i x Hx. rewrite Hx. f_equal.
  cbn [prediction Z.eqb]. rewrite Z.add_0_r.
  symmetry. apply is_byte_mod. exact (lookup_is_byte _ _ _ Hbytes Hx).
Qed.

Lemma apply_sub_filter_rebuilds (prev : option bytes) (scan : bytes) (w : nat)
    (out : bytes) :
  Forall is_byte scan ->
  apply_sub_filter scan w = Ok out -> rebuilds 1 prev scan out.
Proof.
  intros Hbytes Hrun. rewrite apply_sub_filter_store in Hrun.
  destruct (for_each_recurrence (sub_value scan) 3
              ltac:(intros; now apply sub_value_local)
              _ _ _ _ (Nat.le_refl 3) Hrun) as (Hlen & Hsame & Hval).
  split; [exact Hlen|].
  intros i x Hx. pose proof (lookup_lt_Some _ _ _ Hx) as Hi.
  cbn [prediction Z.eqb Pos.eqb].
  destruct (le_lt_dec 3 i) as [Hge|Hlt].
  - destruct (Hval i) as (v & Hv & Hout); [lia|].
    rewrite Hout. f_equal. unfold sub_value in Hv.
    apply res_bind_Ok_inv in Hv as (x' & Hx' & Hv).
    apply res_bind_Ok_inv in Hv as (a & Ha & Hv).
    apply getitem_Ok_inv in Hx'. rewrite Hx in Hx'. injection Hx' as <-.
    injection Hv as <-.
    apply getitem_Ok_inv in Ha. unfold left_of.
    destruct (Nat.leb_spec 3 i); [|lia]. rewrite Ha. apply byte_and_mod.
  - rewrite Hsame by lia. rewrite Hx. f_equal. unfold left_of.
    destruct (Nat.leb_spec 3 i); [lia|]. rewrite Z.add_0_r.
    symmetry. apply is_byte_mod. exact (lookup_is_byte _ _ _ Hbytes Hx).
Qed.

Lemma apply_up_filter_rebuilds (prev : option bytes) (scan : bytes) (w : nat)
    (out : bytes) :
  Forall is_byte scan ->
  apply_up_filter scan w prev = Ok out -> rebuilds 2 prev scan out.
Proof.
  intros Hbytes Hrun. destruct prev as [p|].
  - rewrite apply_up_filter_store in Hrun.
    apply (recurrence_rebuilds (up_value scan p)); [reflexivity| |exact Hrun].
    intros i fs v x. apply up_value_spec.
  - injection Hrun as <-. split; [reflexivity|].
    intros i x Hx. rewrite Hx. f_equal.
    unfold above. cbn [truthy prediction Z.eqb Pos.eqb]. rewrite Z.add_0_r.
    symmetry. apply is_byte_mod. exact (lookup_is_byte _ _ _ Hbytes Hx).
Qed.

Lemma apply_average_filter_rebuilds (prev : option bytes) (scan : bytes) (w : nat)
    (out : bytes) :
  apply_average_filter scan w prev 3 = Ok out -> rebuilds 3 prev scan out.
Proof.
  intros Hrun. rewrite apply_average_filter_store in Hrun.
  apply (recurrence_rebuilds (average_value scan prev 3)); [| |exact Hrun].
  - intros. apply average_value_local; auto; lia.
  - intros i fs v x. apply average_value_spec.
Qed.

Lemma apply_paeth_filter_rebuilds (prev : option bytes) (scan : bytes) (w : nat)
    (out : bytes) :
  apply_paeth_filter scan w prev 3 = Ok out -> rebuilds 4 prev scan out.
Proof.
  intros Hrun. rewrite apply_paeth_filter_store in Hrun.
  apply (recurrence_rebuilds (paeth_value scan prev 3)); [| |exact Hrun].
  - intros. apply paeth_value_local; auto; lia.
  - intros i fs v x. apply paeth_value_spec.
Qed.

(** ** Each filter inverts the forward filter of the same type *)

Lemma lookup_map_seq {A} (f : nat -> A) (n : nat) :
  forall k i, i < n -> map f (seq k n) !! i = Some (f (k + i)).
Proof.
  induction n as [|n IH]; intros k i Hi; [lia|].
  destruct i as [|i]; cbn.
  - now rewrite Nat.add_0_r.
  - rewrite IH by lia. f_equal. f_equal. lia.
Qed.

Lemma filter_row_length (ft : Z) (bpp : nat) (prev : option bytes) (row : bytes) :
  length (filter_row ft bpp prev row) = length row.
Proof. unfold filter_row. now rewrite length_map, length_seq. Qed.

Lemma filter_row_lookup (ft : Z) (bpp : nat) (prev : option bytes) (row : bytes)
    (i : nat) :
  i < length row ->
  filter_row ft bpp prev row !! i = Some (filter_byte ft bpp prev row i).
Proof. intros Hi. unfold filter_row. now rewrite lookup_map_seq. Qed.

Lemma filter_row_is_byte (ft : Z) (bpp : nat) (prev : option bytes) (row : bytes) :
  Forall is_byte (filter_row ft bpp prev row).
Proof.
  unfold filter_row. apply Forall_forall. intros v Hv.
  apply list_elem_of_In, in_map_iff in Hv as (i & <- & _).
  unfold filter_byte, is_byte. apply Z.mod_pos_bound. lia.
Qed.

Lemma left_of_agree (out row : bytes) (i : nat) :
  (forall j, j < i -> out !! j = row !! j) -> left_of out 3 i = left_of row 3 i.
Proof.
  intros Hagree. unfold left_of. destruct (Nat.leb_spec 3 i); [|reflexivity].
  now rewrite Hagree by lia.
Qed.

Lemma add_sub_mod (x p : Z) : is_byte x -> (((x - p) mod 256 + p) mod 256 = x)%Z.
Proof.
  intros Hx. rewrite Zplus_mod_idemp_l.
  replace (x - p + p)%Z with x by lia. now apply is_byte_mod.
Qed.

(** Rebuilding a filtered row against the reference it was filtered with
    gives the row back. *)
Lemma rebuilds_filter_row (ft : Z) (prev : option bytes) (row out : bytes) :
  Forall is_byte row ->
  rebuilds ft prev (filter_row ft 3 prev row) out ->
  out = row.
Proof.
  intros Hbytes [Hlen Hrule]. rewrite filter_row_length in Hlen.
  apply list_eq. intros i. induction i as [i IH] using lt_wf_ind.
  destruct (le_lt_dec (length row) i) as [Hge|Hlt].
  - rewrite !lookup_ge_None_2 by lia. reflexivity.
  - destruct (lookup_lt_is_Some_2 row i Hlt) as [x Hx].
    rewrite (Hrule i _ (filter_row_lookup ft 3 prev row i Hlt)), Hx. f_equal.
    rewrite (left_of_agree out row i IH).
    unfold filter_byte. rewrite Hx. cbn [from_option id].
    apply add_sub_mod. exact (lookup_is_byte _ _ _ Hbytes Hx).
Qed.

(** ** What a row of the loop rebuilds *)

(** A row of a supported type is rebuilt by the rule of its type against
    the reference the loop holds at that point. *)
Lemma defilter_row_rebuilds (w : nat) (data : bytes) (row : nat)
    (st : defilter_state) (ft : Z) :
  filter_type_of w data row = Some ft ->
  supported ft = true ->
  covers (previous_scanline st) (length (scanline_of w data row)) ->
  Forall is_byte (scanline_of w data row) ->
  exists rb,
    defilter_row w data row st
    = ([], Ok {| unfiltered_data := unfiltered_data st ++ rb;
                 previous_scanline := Some (scanline_of w data row) |})
    /\ rebuilds ft (previous_scanline st) (scanline_of w data row) rb.
Proof.
  intros Hft Hsup Hcov Hbytes. unfold defilter_row, filter_type_of in *.
  rewrite (getitem_Some _ _ _ Hft), py_bind_lift_Ok.
  fold (scanline_of w data row). unfold extend_and_track.
  destruct (supported_cases ft Hsup) as [->|[->|[->|[->| ->]]]]; cbn [Z.eqb Pos.eqb].
  - exists (scanline_of w data row). rewrite py_bind_lift_Ok.
    split; [reflexivity | now apply none_rebuilds].
  - destruct (apply_sub_filter_ok (scanline_of w data row) w) as (rb & Hrb & _).
    exists rb. rewrite Hrb, py_bind_lift_Ok.
    split; [reflexivity | now apply (apply_sub_filter_rebuilds _ _ w)].
  - destruct (apply_up_filter_ok (scanline_of w data row) w _ Hcov) as (rb & Hrb & _).
    exists rb. rewrite Hrb, py_bind_lift_Ok.
    split; [reflexivity | now apply (apply_up_filter_rebuilds _ _ w)].
  - destruct (apply_average_filter_ok (scanline_of w data row) w _ Hcov)
      as (rb & Hrb & _).
    exists rb. rewrite Hrb, py_bind_lift_Ok.
    split; [reflexivity | now apply (apply_average_filter_rebuilds _ _ w)].
  - destruct (apply_paeth_filter_ok (scanline_of w data row) w _ Hcov)
      as (rb & Hrb & _).
    exists rb. rewrite Hrb, py_bind_lift_Ok.
    split; [reflexivity | now apply (apply_paeth_filter_rebuilds _ _ w)].
Qed.

(** X1. The round trip of a one-row image holds for each of the five
    filter types: filtering the row and defiltering the result gives the
    row back. *)
Theorem round_trip_single_row (ft : Z) (w : nat) (image : bytes) :
  (0 <= ft <= 4)%Z ->
  length image = w * 3 ->
  Forall is_byte image ->
  apply_filters_to_data w 1 (forward_filter ft w 1 image) = ([], Ok image).
Proof.
  intros Hft Hlen Hbytes.
  assert (Hrow : image_row w image 0 = image).
  { unfold image_row, slice. cbn [Nat.mul Nat.add]. rewrite Nat.sub_0_r, Nat.add_0_r.
    rewrite drop_0. apply take_ge. lia. }
  assert (Hdata : forward_filter ft w 1 image = ft :: filter_row ft 3 None image).
  { unfold forward_filter, filtered_block. cbn [seq flat_map Nat.eqb].
    rewrite Hrow. now rewrite app_nil_r. }
  rewrite Hdata. set (F := filter_row ft 3 None image).
  assert (HF : length F = w * 3) by (unfold F; now rewrite filter_row_length).
  assert (Hscan : scanline_of w (ft :: F) 0 = F).
  { unfold scanline_of, slice. cbn [Nat.mul Nat.add drop].
    replace (w * 3 + 1 + 0 - 1) with (w * 3) by lia.
    rewrite drop_0. apply take_ge. lia. }
  destruct (defilter_row_rebuilds w (ft :: F) 0 defilter_init ft) as (rb & Hrun & Hrb).
  - reflexivity.
  - unfold supported. lia.
  - exact I.
  - rewrite Hscan. apply filter_row_is_byte.
  - rewrite Hscan in Hrb. cbn [previous_scanline defilter_init] in Hrb.
    apply (rebuilds_filter_row ft None image rb Hbytes) in Hrb. subst rb.
    unfold apply_filters_to_data, range. cbn [Nat.sub seq defilter_rows].
    rewrite Hrun. reflexivity.
Qed.

(** Witness for X1: a row of two pixels under the Paeth filter. *)
Lemma round_trip_single_row_witness :
  apply_filters_to_data 2 1 (forward_filter 4 2 1 [10; 20; 30; 40; 250; 60]%Z)
  = ([], Ok [10; 20; 30; 40; 250; 60]%Z).
Proof.
  apply (round_trip_single_row 4 2 [10; 20; 30; 40; 250; 60]%Z).
  - lia.
  - reflexivity.
  - repeat constructor; unfold is_byte; lia.
Defined.

(** ** Streams made of rows of equal length *)

Lemma flat_map_blocks_drop {A} (f : nat -> list A) (sl : nat) :
  forall j k m,
    (forall r, k <= r < k + m -> length (f r) = sl) ->
    j <= m ->
    drop (j * sl) (flat_map f (seq k m)) = flat_map f (seq (k + j) (m - j)).
Proof.
  induction j as [|j IH]; intros k m Hlen Hj.
  - cbn. now rewrite drop_0, Nat.add_0_r, Nat.sub_0_r.
  - destruct m as [|m]; [lia|]. cbn [seq flat_map].
    replace (S j * sl) with (length (f k) + j * sl)
      by (rewrite (Hlen k) by lia; lia).
    rewrite drop_app_add. rewrite IH; [|intros r Hr; apply Hlen; lia|lia].
    replace (S k + j) with (k + S j) by lia. reflexivity.
Qed.

Lemma image_row_length (w h : nat) (image : bytes) (r : nat) :
  length image = h * (w * 3) -> r < h -> length (image_row w image r) = w * 3.
Proof.
  intros Hlen Hr. unfold image_row. rewrite slice_length.
  assert ((r + 1) * (w * 3) <= h * (w * 3)) by (apply Nat.mul_le_mono_r; lia).
  lia.
Qed.

Lemma image_row_is_byte (w : nat) (image : bytes) (r : nat) :
  Forall is_byte image -> Forall is_byte (image_row w image r).
Proof.
  intros Hbytes. unfold image_row, slice. now apply Forall_take, Forall_drop.
Qed.

Lemma image_rows_concat (w : nat) (image : bytes) (m : nat) :
  forall k, flat_map (image_row w image) (seq k m)
            = take (m * (w * 3)) (drop (k * (w * 3)) image).
Proof.
  induction m as [|m IH]; intros k; [reflexivity|].
  cbn [seq flat_map]. rewrite IH. unfold image_row, slice.
  replace ((k + 1) * (w * 3) - k * (w * 3)) with (w * 3) by lia.
  replace (S k * (w * 3)) with (k * (w * 3) + w * 3) by lia.
  rewrite <- drop_drop.
  replace (S m * (w * 3)) with (w * 3 + m * (w * 3)) by lia.
  apply (take_take_drop (drop (k * (w * 3)) image)).
Qed.

Lemma forward_filter_row (ft : Z) (w h : nat) (image : bytes) (r : nat) :
  length image = h * (w * 3) -> r < h ->
  filter_type_of w (forward_filter ft w h image) r = Some ft
  /\ scanline_of w (forward_filter ft w h image) r
     = filter_row ft 3 (if r =? 0 then None else Some (image_row w image (r - 1)))
                  (image_row w image r).
Proof.
  intros Hlen Hr.
  assert (Hblocks : forall r', 0 <= r' < 0 + h ->
                      length (filtered_block ft w image r') = w * 3 + 1).
  { intros r' Hr'. unfold filtered_block. cbn [length].
    rewrite filter_row_length, (image_row_length w h) by (auto; lia). lia. }
  pose proof (flat_map_blocks_drop (filtered_block ft w image) (w * 3 + 1)
                r 0 h Hblocks ltac:(lia)) as Hdrop.
  fold (forward_filter ft w h image) in Hdrop.
  replace (h - r) with (S (h - r - 1)) in Hdrop by lia.
  cbn [Nat.add seq flat_map] in Hdrop. unfold filtered_block at 1 in Hdrop.
  split.
  - unfold filter_type_of.
    replace (r * (w * 3 + 1)) with (r * (w * 3 + 1) + 0) by lia.
    rewrite <- lookup_drop, Hdrop. reflexivity.
  - unfold scanline_of, slice.
    rewrite <- drop_drop, Hdrop. cbn [drop].
    apply take_app_length'.
    rewrite filter_row_length, (image_row_length w h) by (auto; lia). lia.
Qed.

(** ** The round trip for the filter types that read no previous row *)

Lemma rebuilds_reference_free (ft : Z) (p p' : option bytes) (scan out : bytes) :
  ft = 0%Z \/ ft = 1%Z ->
  rebuilds ft p scan out -> rebuilds ft p' scan out.
Proof.
  intros [-> | ->] [Hlen Hrule]; (split; [exact Hlen|]);
    intros i x Hx; rewrite (Hrule i x Hx); reflexivity.
Qed.

Lemma defilter_rows_reference_free (ft : Z) (w h : nat) (image : bytes) :
  ft = 0%Z \/ ft = 1%Z ->
  length image = h * (w * 3) ->
  Forall is_byte image ->
  forall m k (st : defilter_state),
    k + m <= h ->
    covers (previous_scanline st) (w * 3) ->
    exists st',
      defilter_rows w (forward_filter ft w h image) (seq k m) st = ([], Ok st')
      /\ unfiltered_data st'
         = unfiltered_data st ++ flat_map (image_row w image) (seq k m).
Proof.
  intros Hft Hlen Hbytes. induction m as [|m IH]; intros k st Hk Hcov.
  - exists st. cbn. now rewrite app_nil_r.
  - destruct (forward_filter_row ft w h image k Hlen ltac:(lia)) as [Htype Hscan].
    assert (Hscanlen : length (scanline_of w (forward_filter ft w h image) k) = w * 3).
    { rewrite Hscan, filter_row_length. apply (image_row_length w h); [auto | lia]. }
    destruct (defilter_row_rebuilds w (forward_filter ft w h image) k st ft)
      as (rb & Hrow & Hrb).
    + exact Htype.
    + unfold supported. destruct Hft; subst; reflexivity.
    + now rewrite Hscanlen.
    + rewrite Hscan. apply filter_row_is_byte.
    + rewrite Hscan in Hrb.
      apply (rebuilds_reference_free ft _
               (if k =? 0 then None else Some (image_row w image (k - 1)))) in Hrb;
        [|exact Hft].
      apply rebuilds_filter_row in Hrb; [|now apply image_row_is_byte]. subst rb.
      destruct (IH (S k)
                  {| unfiltered_data := unfiltered_data st ++ image_row w image k;
                     previous_scanline :=
                       Some (scanline_of w (forward_filter ft w h image) k) |})
        as (st' & Hrun & Hout); [lia | cbn; lia |].
      exists st'. cbn [seq defilter_rows flat_map]. rewrite Hrow. cbn [py_bind].
      rewrite Hrun. cbn [app]. split; [reflexivity|].
      rewrite Hout. cbn [unfiltered_data]. now rewrite <- app_assoc.
Qed.

(** X2. The round trip holds for filter types 0 (None) and 1 (Sub), for
    every width and height: these rules never read the previous-row
    reference. *)
Theorem round_trip_none_sub (ft : Z) (w h : nat) (image : bytes) :
  ft = 0%Z \/ ft = 1%Z ->
  length image = h * (w * 3) ->
  Forall is_byte image ->
  apply_filters_to_data w h (forward_filter ft w h image) = ([], Ok image).
Proof.
  intros Hft Hlen Hbytes. unfold apply_filters_to_data, range. rewrite Nat.sub_0_r.
  destruct (defilter_rows_reference_free ft w h image Hft Hlen Hbytes h 0 defilter_init)
    as (st & Hrun & Hout); [lia | exact I |].
  rewrite Hrun. cbn [py_bind py_ret app]. rewrite Hout. cbn [unfiltered_data defilter_init app].
  rewrite image_rows_concat. cbn [Nat.mul]. rewrite drop_0, take_ge by lia.
  reflexivity.
Qed.

(** Witness for X2: a 1x3 image under the Sub filter. *)
Lemma round_trip_none_sub_witness :
  apply_filters_to_data 1 3 (forward_filter 1 1 3 [1; 0; 0; 2; 0; 0; 3; 0; 0]%Z)
  = ([], Ok [1; 0; 0; 2; 0; 0; 3; 0; 0]%Z).
Proof.
  apply (round_trip_none_sub 1 1 3 [1; 0; 0; 2; 0; 0; 3; 0; 0]%Z).
  - right. reflexivity.
  - reflexivity.
  - repeat constructor; unfold is_byte; lia.
Defined.

(** * Further properties of the filters *)

Lemma for_each_invariant {St} (P : St -> Prop) (body : nat -> St -> res St)
    (idxs : list nat) :
  (forall i s s', body i s = Ok s' -> P s -> P s') ->
  forall s out, P s -> for_each idxs body s = Ok out -> P out.
Proof.
  intros Hstep. induction idxs as [|i idxs IH]; intros s out Hs Hrun.
  - cbn in Hrun. now injection Hrun as <-.
  - cbn in Hrun. destruct (body i s) as [s'|e] eqn:Hbody; [|discriminate].
    exact (IH s' out (Hstep i s s' Hbody Hs) Hrun).
Qed.

(** A loop whose first [m] steps succeed, keeping [P], and whose next step
    raises. *)
Lemma for_each_raises {St} (P : St -> Prop) (body : nat -> St -> res St)
    (e : exn) (m : nat) :
  forall k n (s : St),
    (forall i s', k <= i < k + m -> P s' -> exists s'', body i s' = Ok s'' /\ P s'') ->
    (forall s', P s' -> body (k + m) s' = Raise e) ->
    m < n -> P s ->
    for_each (seq k n) body s = Raise e.
Proof.
  induction m as [|m IH]; intros k n s Hok Hbad Hn Hs.
  - destruct n as [|n]; [lia|]. cbn [seq for_each].
    rewrite Nat.add_0_r in Hbad. now rewrite (Hbad s Hs).
  - destruct n as [|n]; [lia|]. cbn [seq for_each].
    destruct (Hok k s ltac:(lia) Hs) as (s1 & -> & Hs1).
    apply IH; [| |lia|exact Hs1].
    + intros i s' Hi. apply Hok. lia.
    + intros s'. replace (S k + m) with (k + S m) by lia. apply Hbad.
Qed.

(** X3. The Sub filter never fails and keeps the length of the scanline;
    the first three bytes are copied and every later byte is the raw byte
    plus the rebuilt byte three places to its left, modulo 256. *)
Theorem sub_filter_rule (scan : bytes) (w : nat) :
  exists out,
    apply_sub_filter scan w = Ok out
    /\ length out = length scan
    /\ forall i x, scan !! i = Some x ->
         out !! i
         = Some (if (i <? 3)%nat then x
                 else ((x + default 0 (out !! (i - 3)%nat)) mod 256)%Z).
Proof.
  destruct (apply_sub_filter_ok scan w) as (out & Hrun & Hlen).
  exists out. split; [exact Hrun|]. split; [exact Hlen|].
  rewrite apply_sub_filter_store in Hrun.
  destruct (for_each_recurrence (sub_value scan) 3
              ltac:(intros; now apply sub_value_local)
              _ _ _ _ (Nat.le_refl 3) Hrun) as (_ & Hsame & Hval).
  intros i x Hx. pose proof (lookup_lt_Some _ _ _ Hx) as Hi.
  destruct (Nat.ltb_spec i 3) as [Hlt|Hge].
  - rewrite Hsame by lia. exact Hx.
  - destruct (Hval i) as (v & Hv & Hout); [lia|].
    rewrite Hout. f_equal. unfold sub_value in Hv.
    apply res_bind_Ok_inv in Hv as (x' & Hx' & Hv).
    apply res_bind_Ok_inv in Hv as (a & Ha & Hv).
    apply getitem_Ok_inv in Hx'. rewrite Hx in Hx'. injection Hx' as <-.
    injection Hv as <-. apply getitem_Ok_inv in Ha. rewrite Ha.
    apply byte_and_mod.
Qed.

(** X4. The Up filter returns the scanline unchanged when there is no
    previous scanline; with a previous scanline at least as long it adds it
    byte by byte, modulo 256; with a shorter one it raises [IndexError]. *)
Theorem up_filter_rule (scan : bytes) (w : nat) :
  apply_up_filter scan w None = Ok scan
  /\ (forall p : bytes, length scan <= length p ->
        exists out,
          apply_up_filter scan w (Some p) = Ok out
          /\ length out = length scan
          /\ forall i x b, scan !! i = Some x -> p !! i = Some b ->
               out !! i = Some ((x + b) mod 256)%Z)
  /\ (forall p : bytes, length p < length scan ->
        apply_up_filter scan w (Some p) = Raise IndexError).
Proof.
  split; [reflexivity|]. split.
  - intros p Hp.
    destruct (apply_up_filter_ok scan w (Some p) Hp) as (out & Hrun & Hlen).
    exists out. split; [exact Hrun|]. split; [exact Hlen|].
    rewrite apply_up_filter_store in Hrun.
    destruct (for_each_recurrence (up_value scan p) 0
                ltac:(intros; reflexivity)
                _ _ _ _ (Nat.le_refl 0) Hrun) as (_ & _ & Hval).
    intros i x b Hx Hb. pose proof (lookup_lt_Some _ _ _ Hx) as Hi.
    destruct (Hval i) as (v & Hv & Hout); [lia|].
    rewrite Hout. f_equal. unfold up_value in Hv.
    rewrite (getitem_Some _ _ _ Hx), (getitem_Some _ _ _ Hb) in Hv.
    injection Hv as <-. apply byte_and_mod.
  - intros p Hp. rewrite apply_up_filter_store.
    apply (for_each_raises (fun fs : bytes => length fs = length scan)
             _ IndexError (length p) 0); [| |exact Hp|reflexivity].
    + intros i fs Hi Hfs. unfold store_at, up_value.
      destruct (getitem_lt scan i) as (x & _ & ->); [lia|].
      destruct (getitem_lt p i) as (b & _ & ->); [lia|].
      cbn [res_bind]. rewrite setitem_lt by lia.
      eexists. split; [reflexivity|]. now rewrite length_insert.
    + intros fs Hfs. unfold store_at, up_value. cbn [Nat.add].
      destruct (getitem_lt scan (length p)) as (x & _ & ->); [lia|].
      rewrite (getitem_ge p (length p)) by lia. reflexivity.
Qed.

Lemma neighbour_reads_ok (scan : bytes) (prev : option bytes) (bpp i : nat)
    (fs : bytes) :
  covers prev (length scan) -> i < length scan -> length fs = length scan ->
  (exists a, (if bpp <=? i then getitem fs (i - bpp) else Ok 0%Z) = Ok a)
  /\ (exists b, (if truthy prev then previous_item prev i else Ok 0%Z) = Ok b)
  /\ (exists c, (if truthy prev && (bpp <=? i) then previous_item prev (i - bpp)
                 else Ok 0%Z) = Ok c).
Proof.
  intros Hcov Hi Hfs. split; [|split].
  - destruct (bpp <=? i); [|eauto].
    destruct (getitem_lt fs (i - bpp)) as (a & _ & Ha); [lia|]. eauto.
  - destruct (truthy prev) eqn:Ht; [|eauto].
    now apply (previous_item_covered prev (length scan)).
  - destruct (truthy prev) eqn:Ht; cbn [andb]; [|eauto].
    destruct (bpp <=? i); [|eauto].
    apply (previous_item_covered prev (length scan)); auto; lia.
Qed.

(** X5. With a positive pixel size and a previous scanline that is absent
    or at least as long as the scanline, the Average filter succeeds, keeps
    the length, and stores at every position the raw byte plus the floor of
    half the sum of the rebuilt left neighbour and the byte above, modulo
    256; a missing neighbour counts as 0. *)
Theorem average_filter_rule (scan : bytes) (w : nat) (prev : option bytes)
    (bpp : nat) :
  0 < bpp ->
  covers prev (length scan) ->
  exists out,
    apply_average_filter scan w prev bpp = Ok out
    /\ length out = length scan
    /\ forall i x, scan !! i = Some x ->
         out !! i = Some ((x + (left_of out bpp i + above prev i) / 2) mod 256)%Z.
Proof.
  intros Hbpp Hcov. rewrite apply_average_filter_store.
  destruct (for_each_recurrence_ok (average_value scan prev bpp) (length scan) 0 scan)
    as [out Hrun]; [lia| |].
  { intros i fs' Hi Hfs'. unfold average_value.
    destruct (neighbour_reads_ok scan prev bpp i fs' Hcov ltac:(lia) Hfs')
      as ([a ->] & [b ->] & _).
    destruct (getitem_lt scan i) as (x & _ & ->); [lia|]. cbn. eauto. }
  exists out. split; [exact Hrun|].
  destruct (for_each_recurrence (average_value scan prev bpp) 0
              ltac:(intros; apply average_value_local; auto; lia)
              _ _ _ _ (Nat.le_refl 0) Hrun) as (Hlen & _ & Hval).
  split; [exact Hlen|].
  intros i x Hx. pose proof (lookup_lt_Some _ _ _ Hx) as Hi.
  destruct (Hval i) as (v & Hv & Hout); [lia|].
  rewrite Hout. f_equal. unfold average_value in Hv.
  apply res_bind_Ok_inv in Hv as (a & Ha & Hv).
  apply res_bind_Ok_inv in Hv as (b & Hb & Hv).
  apply res_bind_Ok_inv in Hv as (x' & Hx' & Hv).
  apply getitem_Ok_inv in Hx'. rewrite Hx in Hx'. injection Hx' as <-.
  injection Hv as <-.
  rewrite (left_read _ _ _ _ Ha), (above_read _ _ _ Hb).
  apply byte_and_mod.
Qed.

(** Witness for X5: the second row of a 1-pixel-wide image. *)
Lemma average_filter_rule_witness :
  exists out,
    apply_average_filter [3; 250; 7]%Z 1 (Some [10; 20; 8]%Z) 3 = Ok out
    /\ length out = length [3; 250; 7]%Z
    /\ forall i x, [3; 250; 7]%Z !! i = Some x ->
         out !! i
         = Some ((x + (left_of out 3 i + above (Some [10; 20; 8]%Z) i) / 2) mod 256)%Z.
Proof.
  apply (average_filter_rule [3; 250; 7]%Z 1 (Some [10; 20; 8]%Z) 3).
  - lia.
  - cbn. lia.
Defined.

(** The Paeth filter succeeds under the same conditions. *)
Lemma apply_paeth_filter_total (scan : bytes) (w : nat) (prev : option bytes)
    (bpp : nat) :
  covers prev (length scan) ->
  exists out, apply_paeth_filter scan w prev bpp = Ok out.
Proof.
  intros Hcov. rewrite apply_paeth_filter_store.
  apply for_each_recurrence_ok; [lia|].
  intros i fs' Hi Hfs'. unfold paeth_value.
  destruct (neighbour_reads_ok scan prev bpp i fs' Hcov ltac:(lia) Hfs')
    as ([a ->] & [b ->] & [c ->]).
  destruct (getitem_lt scan i) as (x & _ & ->); [lia|]. cbn. eauto.
Qed.

(** ** The output holds byte values *)

Lemma byte_and_is_byte (v : Z) : is_byte (byte_and v).
Proof. rewrite byte_and_mod. unfold is_byte. apply Z.mod_pos_bound. lia. Qed.

Ltac store_byte H :=
  cbv zeta in H;
  repeat (let x := fresh "x" in
          let Hx := fresh "Hx" in
          apply res_bind_Ok_inv in H as (x & Hx & H));
  apply setitem_Ok_inv in H as [_ ->];
  apply Forall_insert; [assumption | apply byte_and_is_byte].

Lemma apply_sub_filter_bytes (scan : bytes) (w : nat) (out : bytes) :
  Forall is_byte scan -> apply_sub_filter scan w = Ok out -> Forall is_byte out.
Proof.
  intros Hscan. unfold apply_sub_filter.
  apply (for_each_invariant (Forall is_byte)); [|exact Hscan].
  intros i fs fs' Hbody Hfs. store_byte Hbody.
Qed.

Lemma apply_up_filter_bytes (scan : bytes) (w : nat) (prev : option bytes)
    (out : bytes) :
  Forall is_byte scan -> apply_up_filter scan w prev = Ok out -> Forall is_byte out.
Proof.
  intros Hscan. unfold apply_up_filter. destruct prev as [p|].
  - apply (for_each_invariant (Forall is_byte)); [|exact Hscan].
    intros i fs fs' Hbody Hfs. store_byte Hbody.
  - now intros [= <-].
Qed.

Lemma apply_average_filter_bytes (scan : bytes) (w : nat) (prev : option bytes)
    (bpp : nat) (out : bytes) :
  Forall is_byte scan ->
  apply_average_filter scan w prev bpp = Ok out -> Forall is_byte out.
Proof.
  intros Hscan. unfold apply_average_filter.
  apply (for_each_invariant (Forall is_byte)); [|exact Hscan].
  intros i fs fs' Hbody Hfs. store_byte Hbody.
Qed.

Lemma apply_paeth_filter_bytes (scan : bytes) (w : nat) (prev : option bytes)
    (bpp : nat) (out : bytes) :
  Forall is_byte scan ->
  apply_paeth_filter scan w prev bpp = Ok out -> Forall is_byte out.
Proof.
  intros Hscan. unfold apply_paeth_filter.
  apply (for_each_invariant (Forall is_byte)); [|exact Hscan].
  intros i fs fs' Hbody Hfs. store_byte Hbody.
Qed.

Lemma slice_is_byte (l : bytes) (a b : nat) :
  Forall is_byte l -> Forall is_byte (slice l a b).
Proof. intros Hl. unfold slice. now apply Forall_take, Forall_drop. Qed.

Lemma extend_and_track_bytes (st st' : defilter_state) (r : res bytes)
    (scanline : bytes) (out : list message) :
  Forall is_byte (unfiltered_data st) ->
  (forall rb, r = Ok rb -> Forall is_byte rb) ->
  extend_and_track st r scanline = (out, Ok st') ->
  Forall is_byte (unfiltered_data st').
Proof.
  intros Hst Hr. unfold extend_and_track. destruct r as [rb|e]; cbn; [|discriminate].
  intros [= <- <-]. cbn. apply Forall_app. split; [exact Hst | now apply Hr].
Qed.

Lemma defilter_row_bytes (w : nat) (data : bytes) (row : nat)
    (st st' : defilter_state) (out : list message) :
  Forall is_byte data ->
  Forall is_byte (unfiltered_data st) ->
  defilter_row w data row st = (out, Ok st') ->
  Forall is_byte (unfiltered_data st').
Proof.
  intros Hdata Hst. unfold defilter_row. cbv zeta.
  destruct (getitem data (row * (w * 3 + 1))) as [ft|e]; [|discriminate].
  rewrite py_bind_lift_Ok.
  pose proof (slice_is_byte data (row * (w * 3 + 1) + 1) ((row + 1) * (w * 3 + 1)) Hdata)
    as Hscan.
  repeat match goal with
    | |- context [if ?b then _ else _] => destruct b
    end;
    try (apply extend_and_track_bytes; [exact Hst|]; intros rb Hrb).
  - now injection Hrb as <-.
  - exact (apply_sub_filter_bytes _ _ _ Hscan Hrb).
  - exact (apply_up_filter_bytes _ _ _ _ Hscan Hrb).
  - exact (apply_average_filter_bytes _ _ _ _ _ Hscan Hrb).
  - exact (apply_paeth_filter_bytes _ _ _ _ _ Hscan Hrb).
  - cbn. now intros [= <- <-].
Qed.

Lemma defilter_rows_bytes (w : nat) (data : bytes) (rows : list nat) :
  Forall is_byte data ->
  forall (st st' : defilter_state) (out : list message),
    Forall is_byte (unfiltered_data st) ->
    defilter_rows w data rows st = (out, Ok st') ->
    Forall is_byte (unfiltered_data st').
Proof.
  intros Hdata. induction rows as [|r rows IH]; intros st st' out Hst Hrun.
  - cbn in Hrun. now injection Hrun as <- <-.
  - cbn [defilter_rows] in Hrun.
    destruct (defilter_row w data r st) as [out1 [st1|e]] eqn:Hrow; [|discriminate].
    cbn [py_bind] in Hrun.
    destruct (defilter_rows w data rows st1) as [out2 [st2|e]] eqn:Hrest;
      [|discriminate].
    injection Hrun as <- <-.
    exact (IH st1 st2 out2 (defilter_row_bytes w data r st st1 out1 Hdata Hst Hrow) Hrest).
Qed.

(** X6. Whatever the filter types, when the stream holds byte values and
    the engine returns, every value of its output is a byte: each store
    into the row goes through [& 0xFF]. *)
Theorem defiltered_data_is_bytes (w h : nat) (data : bytes)
    (out : list message) (unfiltered : bytes) :
  Forall is_byte data ->
  apply_filters_to_data w h data = (out, Ok unfiltered) ->
  Forall is_byte unfiltered.
Proof.
  intros Hdata. unfold apply_filters_to_data.
  destruct (defilter_rows w data (range 0 h) defilter_init) as [out1 [st|e]] eqn:Hrun;
    [|discriminate].
  cbn. intros [= <- <-].
  exact (defilter_rows_bytes w data _ Hdata defilter_init st out1 (Forall_nil_2 _) Hrun).
Qed.

(** Witness for X6: a 1x2 image under the Sub and Up filters. *)
Lemma defiltered_data_is_bytes_witness :
  Forall is_byte [200; 100; 255; 200; 100; 255]%Z.
Proof.
  apply (defiltered_data_is_bytes 1 2 [1; 200; 100; 255; 2; 0; 0; 0]%Z []).
  - repeat constructor; unfold is_byte; lia.
  - reflexivity.
Defined.

(** ** What the engine computes, row by row *)

Lemma reference_at_covers (w : nat) (data : bytes) (r : nat) :
  covers (reference_at w data r) (length (scanline_of w data r)).
Proof.
  destruct r as [|r]; [exact I|]. cbn [reference_at covers].
  apply scanline_length_antitone. lia.
Qed.

Lemma defilter_rows_follow_rules (w : nat) (data : bytes) (m : nat) :
  Forall is_byte data ->
  forall (k : nat) (st : defilter_state),
    (forall r, k <= r < k + m ->
       r * (w * 3 + 1) < length data /\ row_supported w data r = true) ->
    previous_scanline st = reference_at w data k ->
    exists (rows_out : list bytes) (st' : defilter_state),
      defilter_rows w data (seq k m) st = ([], Ok st')
      /\ unfiltered_data st' = unfiltered_data st ++ concat rows_out
      /\ previous_scanline st' = reference_at w data (k + m)
      /\ length rows_out = m
      /\ forall j, j < m ->
           exists ft rb,
             filter_type_of w data (k + j) = Some ft
             /\ rows_out !! j = Some rb
             /\ rebuilds ft (reference_at w data (k + j))
                         (scanline_of w data (k + j)) rb.
Proof.
  intros Hbytes. induction m as [|m IH]; intros k st Hrows Hprev.
  - exists [], st. cbn. rewrite app_nil_r, Nat.add_0_r.
    repeat split; auto. intros j Hj. lia.
  - destruct (Hrows k ltac:(lia)) as [Hpresent Hsup].
    unfold row_supported in Hsup.
    destruct (filter_type_of w data k) as [ft|] eqn:Hft; [|discriminate].
    destruct (defilter_row_rebuilds w data k st ft Hft Hsup) as (rb & Hrow & Hrb).
    { rewrite Hprev. apply reference_at_covers. }
    { now apply slice_is_byte. }
    rewrite Hprev in Hrb.
    destruct (IH (S k) {| unfiltered_data := unfiltered_data st ++ rb;
                          previous_scanline := Some (scanline_of w data k) |})
      as (rows_out & st' & Hrun & Hout & Hprev' & Hlen & Hrules).
    { intros r Hr. apply Hrows. lia. }
    { reflexivity. }
    exists (rb :: rows_out), st'. cbn [seq defilter_rows]. rewrite Hrow.
    cbn [py_bind]. rewrite Hrun. cbn [app concat length].
    split; [reflexivity|]. split.
    { rewrite Hout. cbn [unfiltered_data]. now rewrite <- app_assoc. }
    split. { now replace (k + S m) with (S k + m) by lia. }
    split; [now rewrite Hlen|].
    intros [|j] Hj.
    + exists ft, rb. rewrite Nat.add_0_r. auto.
    + destruct (Hrules j ltac:(lia)) as (ft' & rb' & H1 & H2 & H3).
      exists ft', rb'. replace (k + S j) with (S k + j) by lia. auto.
Qed.

(** X7. On a stream of byte values that holds all [h] rows with filter
    types in 0..4, the engine returns the rows rebuilt one after the other,
    each by the rule of its own filter type, the bytes "above" being those
    of the preceding row's scanline as it lies in the stream (for the
    first row there is none). *)
Theorem defilter_follows_rules (w h : nat) (data : bytes) :
  h * (w * 3 + 1) <= length data ->
  filter_types_supported w h data ->
  Forall is_byte data ->
  exists rows_out : list bytes,
    apply_filters_to_data w h data = ([], Ok (concat rows_out))
    /\ length rows_out = h
    /\ forall r, r < h ->
         exists ft rb,
           filter_type_of w data r = Some ft
           /\ rows_out !! r = Some rb
           /\ rebuilds ft (reference_at w data r) (scanline_of w data r) rb.
Proof.
  intros Hlen Hsup Hbytes.
  assert (Hrows : forall r, 0 <= r < 0 + h ->
            r * (w * 3 + 1) < length data /\ row_supported w data r = true).
  { intros r Hr.
    assert (Hp : r * (w * 3 + 1) < length data).
    { assert ((r + 1) * (w * 3 + 1) <= h * (w * 3 + 1))
        by (apply Nat.mul_le_mono_r; lia).
      lia. }
    split; [exact Hp|]. apply (row_supported_of_types w h); auto. lia. }
  destruct (defilter_rows_follow_rules w data h Hbytes 0 defilter_init Hrows eq_refl)
    as (rows_out & st & Hrun & Hout & _ & Hlen' & Hrules).
  exists rows_out. unfold apply_filters_to_data, range. rewrite Nat.sub_0_r, Hrun.
  cbn [py_bind py_ret app]. rewrite Hout. cbn [unfiltered_data defilter_init app].
  split; [reflexivity|]. split; [exact Hlen'|].
  intros r Hr. exact (Hrules r Hr).
Qed.

(** Witness for X7: a 2x2 stream, Sub then Up. *)
Lemma defilter_follows_rules_witness :
  exists rows_out : list bytes,
    apply_filters_to_data 2 2 [1; 1; 0; 0; 1; 0; 0; 2; 0; 0; 0; 0; 0; 0]%Z
    = ([], Ok (concat rows_out))
    /\ length rows_out = 2
    /\ forall r, r < 2 ->
         exists ft rb,
           filter_type_of 2 [1; 1; 0; 0; 1; 0; 0; 2; 0; 0; 0; 0; 0; 0]%Z r = Some ft
           /\ rows_out !! r = Some rb
           /\ rebuilds ft
                (reference_at 2 [1; 1; 0; 0; 1; 0; 0; 2; 0; 0; 0; 0; 0; 0]%Z r)
                (scanline_of 2 [1; 1; 0; 0; 1; 0; 0; 2; 0; 0; 0; 0; 0; 0]%Z r) rb.
Proof.
  apply (defilter_follows_rules 2 2 [1; 1; 0; 0; 1; 0; 0; 2; 0; 0; 0; 0; 0; 0]%Z).
  - cbn. lia.
  - intros [|[|r]] ft Hr; cbn; intros [= <-]; lia.
  - repeat constructor; unfold is_byte; lia.
Defined.

Lemma defilter_row_none (w : nat) (data : bytes) (row : nat) (st : defilter_state) :
  filter_type_of w data row = Some 0%Z ->
  defilter_row w data row st
  = ([], Ok {| unfiltered_data := unfiltered_data st ++ scanline_of w data row;
               previous_scanline := Some (scanline_of w data row) |}).
Proof.
  intros Hft. unfold defilter_row, filter_type_of in *.
  rewrite (getitem_Some _ _ _ Hft), py_bind_lift_Ok. reflexivity.
Qed.

Lemma defilter_rows_none (w : nat) (data : bytes) (rows : list nat) :
  (forall r, In r rows -> filter_type_of w data r = Some 0%Z) ->
  forall st : defilter_state,
    exists st',
      defilter_rows w data rows st = ([], Ok st')
      /\ unfiltered_data st'
         = unfiltered_data st ++ flat_map (scanline_of w data) rows.
Proof.
  induction rows as [|r rows IH]; intros Hft st.
  - exists st. cbn. now rewrite app_nil_r.
  - destruct (IH ltac:(intros r' Hr'; apply Hft; now right)
                {| unfiltered_data := unfiltered_data st ++ scanline_of w data r;
                   previous_scanline := Some (scanline_of w data r) |})
      as (st' & Hrun & Hout).
    exists st'. cbn [defilter_rows flat_map].
    rewrite (defilter_row_none w data r st) by (apply Hft; now left).
    cbn [py_bind]. rewrite Hrun. split; [reflexivity|].
    rewrite Hout. cbn [unfiltered_data]. now rewrite <- app_assoc.
Qed.

(** X8. When every row has filter type 0, the engine returns the scanlines
    of the rows one after the other, unchanged: the stream without its
    filter-type bytes. *)
Theorem none_filter_copies_rows (w h : nat) (data : bytes) :
  (forall r, r < h -> filter_type_of w data r = Some 0%Z) ->
  apply_filters_to_data w h data
  = ([], Ok (flat_map (scanline_of w data) (range 0 h))).
Proof.
  intros Hft. unfold apply_filters_to_data.
  destruct (defilter_rows_none w data (range 0 h)
              ltac:(intros r Hr; apply Hft; apply in_range in Hr; lia)
              defilter_init) as (st & -> & Hout).
  cbn [py_bind py_ret app]. now rewrite Hout.
Qed.

(** Witness for X8: two rows of one pixel. *)
Lemma none_filter_copies_rows_witness :
  apply_filters_to_data 1 2 [0; 1; 2; 3; 0; 4; 5; 6]%Z
  = ([], Ok (flat_map (scanline_of 1 [0; 1; 2; 3; 0; 4; 5; 6]%Z) (range 0 2))).
Proof.
  apply (none_filter_copies_rows 1 2 [0; 1; 2; 3; 0; 4; 5; 6]%Z).
  intros [|[|r]] Hr; [reflexivity | reflexivity | lia].
Defined.

(** ** The engine followed by the pixel assembler *)

Lemma interpret_rgb_8bit_exact (w h : nat) (data : bytes) :
  length data = w * h * 3 ->
  exists pixels,
    interpret_rgb_8bit w h data = ([], Ok (Some pixels))
    /\ length pixels = w * h
    /\ forall k, k < w * h ->
         exists r g b,
           data !! (3 * k) = Some r
           /\ data !! (3 * k + 1) = Some g
           /\ data !! (3 * k + 2) = Some b
           /\ pixels !! k = Some (r, g, b).
Proof.
  intros Heq. unfold interpret_rgb_8bit.
  destruct (Nat.eqb_spec (length data) (w * h * 3)); [|contradiction].
  cbn [negb]. rewrite Heq, range_step3_mult.
  destruct (collect_pixels_spec data (w * h) 0 []) as (ps & Hps & Hl & Hnth); [lia|].
  exists ps. rewrite Hps. split; [reflexivity|]. split; [exact Hl|].
  intros k Hk. destruct (Hnth k Hk) as (r & g & b & H). exists r, g, b. exact H.
Qed.

Lemma interpret_rgb_8bit_wrong_size (w h : nat) (data : bytes) :
  length data <> w * h * 3 ->
  interpret_rgb_8bit w h data = ([PrintPixelSizeIncorrect], Ok None).
Proof.
  intros Hne. unfold interpret_rgb_8bit.
  destruct (Nat.eqb_spec (length data) (w * h * 3)); [contradiction | reflexivity].
Qed.

Lemma apply_filters_skipping (w h : nat) (data : bytes) :
  h * (w * 3 + 1) <= length data ->
  exists out,
    apply_filters_to_data w h data
    = (flat_map (row_messages w data) (range 0 h), Ok out)
    /\ length out
       = w * 3 * length (List.filter (row_supported w data) (range 0 h)).
Proof.
  intros Hlen.
  assert (Hfull : forall r, r < h -> (r + 1) * (w * 3 + 1) <= length data).
  { intros r Hr.
    assert ((r + 1) * (w * 3 + 1) <= h * (w * 3 + 1))
      by (apply Nat.mul_le_mono_r; lia).
    lia. }
  destruct (apply_filters_present w h data) as (out & Hrun & Hout).
  { intros r Hr. specialize (Hfull r Hr). lia. }
  exists out. split; [exact Hrun|]. rewrite Hout.
  apply list_sum_indicator. intros r Hr. apply in_range in Hr.
  unfold row_output_length.
  rewrite scanline_length_full by (apply Hfull; lia). reflexivity.
Qed.

Lemma filter_length_all {A} (p : A -> bool) (l : list A) :
  (forall x, In x l -> p x = true) -> length (List.filter p l) = length l.
Proof.
  induction l as [|x l IH]; intros Hp; [reflexivity|].
  cbn [List.filter]. rewrite (Hp x) by (now left). cbn [length].
  rewrite IH; [reflexivity|]. intros y Hy. apply Hp. now right.
Qed.

Lemma filter_length_le {A} (p : A -> bool) (l : list A) :
  length (List.filter p l) <= length l.
Proof.
  induction l as [|y l IH]; [reflexivity|].
  cbn [List.filter length]. destruct (p y); cbn [length]; lia.
Qed.

Lemma filter_length_some {A} (p : A -> bool) (l : list A) (x : A) :
  In x l -> p x = false -> length (List.filter p l) < length l.
Proof.
  induction l as [|y l IH]; intros Hin Hx; [contradiction|].
  cbn [List.filter length]. destruct Hin as [->|Hin].
  - rewrite Hx. pose proof (filter_length_le p l). lia.
  - specialize (IH Hin Hx). destruct (p y); cbn [length]; lia.
Qed.

(** X9. The engine and the assembler compose: on a stream that holds all
    [h] rows with filter types in 0..4, the assembler accepts the engine's
    output and returns [w * h] pixels, pixel [k] being bytes [3k], [3k+1],
    [3k+2] of that output. *)
Theorem defilter_then_interpret (w h : nat) (data : bytes) :
  h * (w * 3 + 1) <= length data ->
  filter_types_supported w h data ->
  exists unfiltered pixels,
    apply_filters_to_data w h data = ([], Ok unfiltered)
    /\ interpret_rgb_8bit w h unfiltered = ([], Ok (Some pixels))
    /\ length pixels = w * h
    /\ forall k, k < w * h ->
         exists r g b,
           unfiltered !! (3 * k) = Some r
           /\ unfiltered !! (3 * k + 1) = Some g
           /\ unfiltered !! (3 * k + 2) = Some b
           /\ pixels !! k = Some (r, g, b).
Proof.
  intros Hlen Hsup.
  assert (Hrows : forall r, In r (range 0 h) -> row_supported w data r = true).
  { intros r Hr. apply in_range in Hr.
    apply (row_supported_of_types w h); [exact Hsup | lia |].
    assert ((r + 1) * (w * 3 + 1) <= h * (w * 3 + 1))
      by (apply Nat.mul_le_mono_r; lia).
    lia. }
  destruct (apply_filters_skipping w h data Hlen) as (out & Hrun & Hout).
  rewrite (flat_map_nil (row_messages w data)) in Hrun
    by (intros r Hr; apply row_messages_supported, Hrows, Hr).
  rewrite (filter_length_all _ _ Hrows) in Hout.
  unfold range in Hout. rewrite length_seq, Nat.sub_0_r in Hout.
  destruct (interpret_rgb_8bit_exact w h out) as (pixels & Hpix & Hn & Hk); [lia|].
  exists out, pixels. auto.
Qed.

(** Witness for X9: the 2x1 stream of two pixels. *)
Lemma defilter_then_interpret_witness :
  exists unfiltered pixels,
    apply_filters_to_data 2 1 [0; 255; 0; 0; 0; 255; 0]%Z = ([], Ok unfiltered)
    /\ interpret_rgb_8bit 2 1 unfiltered = ([], Ok (Some pixels))
    /\ length pixels = 2 * 1
    /\ forall k, k < 2 * 1 ->
         exists r g b,
           unfiltered !! (3 * k) = Some r
           /\ unfiltered !! (3 * k + 1) = Some g
           /\ unfiltered !! (3 * k + 2) = Some b
           /\ pixels !! k = Some (r, g, b).
Proof.
  apply (defilter_then_interpret 2 1 [0; 255; 0; 0; 0; 255; 0]%Z).
  - cbn. lia.
  - intros [|r] ft Hr; cbn; [intros [= <-]; lia | lia].
Defined.

(** X10. A skipped row is reported after all: on a stream that holds all
    [h] rows of a positive width, if some row has a filter type outside
    0..4 the engine returns normally, and the assembler then rejects its
    output as being of the wrong size. *)
Theorem skipped_row_fails_in_assembler (w h : nat) (data : bytes) (row : nat) (ft : Z) :
  h * (w * 3 + 1) <= length data ->
  0 < w ->
  row < h ->
  filter_type_of w data row = Some ft ->
  ~ (0 <= ft <= 4)%Z ->
  exists out unfiltered,
    apply_filters_to_data w h data = (out, Ok unfiltered)
    /\ In (PrintUnsupportedFilter ft) out
    /\ interpret_rgb_8bit w h unfiltered = ([PrintPixelSizeIncorrect], Ok None).
Proof.
  intros Hlen Hw Hrow Hft Hbad.
  destruct (apply_filters_skipping w h data Hlen) as (unfiltered & Hrun & Hout).
  exists (flat_map (row_messages w data) (range 0 h)), unfiltered.
  split; [exact Hrun|].
  assert (Hin : In row (range 0 h)) by (apply in_range; lia).
  assert (Hunsup : supported ft = false) by (unfold supported; lia).
  split.
  - apply in_flat_map. exists row. split; [exact Hin|].
    unfold row_messages. rewrite Hft, Hunsup. now left.
  - apply interpret_rgb_8bit_wrong_size. rewrite Hout.
    assert (Hlt : length (List.filter (row_supported w data) (range 0 h))
                  < length (range 0 h)).
    { apply (filter_length_some _ _ row Hin).
      unfold row_supported. now rewrite Hft. }
    unfold range in Hlt at 2. rewrite length_seq, Nat.sub_0_r in Hlt. nia.
Qed.

(** Witness for X10: a 1x2 stream whose second row has filter type 9. *)
Lemma skipped_row_fails_in_assembler_witness :
  exists out unfiltered,
    apply_filters_to_data 1 2 [0; 1; 2; 3; 9; 4; 5; 6]%Z = (out, Ok unfiltered)
    /\ In (PrintUnsupportedFilter 9) out
    /\ interpret_rgb_8bit 1 2 unfiltered = ([PrintPixelSizeIncorrect], Ok None).
Proof.
  apply (skipped_row_fails_in_assembler 1 2 [0; 1; 2; 3; 9; 4; 5; 6]%Z 1 9%Z).
  - cbn. lia.
  - lia.
  - lia.
  - reflexivity.
  - lia.
Defined.

(** * Further properties of [read_png] *)

(** ** A file that ends inside a chunk *)

Lemma chunk_loop_short_length (f : bytes) (st : png_state) :
  length f < 4 -> chunk_loop f st = ([PrintEOFChunkLength], Ok None).
Proof.
  intros Hf. rewrite chunk_loop_equation_1. cbv zeta.
  destruct (decide (length (take 4 f) = 4)) as [Heq|_]; [|reflexivity].
  rewrite length_take in Heq. lia.
Qed.

Lemma chunk_loop_short_type (lb tail : bytes) (st : png_state) :
  length lb = 4 -> length tail < 4 ->
  chunk_loop (lb ++ tail) st = ([PrintEOFChunkType], Ok None).
Proof.
  intros Hlb Htail. rewrite chunk_loop_equation_1. cbv zeta.
  rewrite (take_app_length' lb) by (symmetry; exact Hlb).
  rewrite (drop_app_length' lb) by (symmetry; exact Hlb).
  destruct (decide (length lb = 4)) as [_|Hne]; [|contradiction].
  rewrite take_ge by lia.
  destruct (Nat.eqb_spec (length tail) 4); [lia | reflexivity].
Qed.

Lemma chunk_loop_short_crc (lb ty data tail : bytes) (s : string) (st : png_state) :
  length lb = 4 -> length ty = 4 -> decode_ascii ty = Ok s ->
  length data = unpack_be32 lb -> length tail < 4 ->
  chunk_loop (lb ++ ty ++ data ++ tail) st = ([PrintEOFCRC], Ok None).
Proof.
  intros Hlb Hty Hs Hdata Htail. rewrite chunk_loop_equation_1. cbv zeta.
  rewrite (take_app_length' lb) by (symmetry; exact Hlb).
  rewrite (drop_app_length' lb) by (symmetry; exact Hlb).
  destruct (decide (length lb = 4)) as [_|Hne]; [|contradiction].
  rewrite (take_app_length' ty) by (symmetry; exact Hty).
  rewrite (drop_app_length' ty) by (symmetry; exact Hty).
  rewrite Hty, Hs. cbn [Nat.eqb negb].
  rewrite (take_app_length' data) by (symmetry; exact Hdata).
  rewrite (drop_app_length' data) by (symmetry; exact Hdata).
  rewrite Hdata, Nat.eqb_refl. cbn [negb].
  rewrite take_ge by lia.
  destruct (Nat.eqb_spec (length tail) 4); [lia | reflexivity].
Qed.

Lemma chunk_bytes_length (c : chunk) :
  chunk_wf c -> length (chunk_bytes c) = 12 + length (chunk_data c).
Proof.
  intros (Hlb & Hty & _ & Hcrc). unfold chunk_bytes.
  rewrite !length_app. lia.
Qed.

(** The loop on the first [n] bytes of a complete chunk. *)
Lemma chunk_loop_cut_chunk (c : chunk) (n : nat) (s : string) (st : png_state) :
  chunk_wf c ->
  decode_ascii (chunk_type c) = Ok s ->
  n < length (chunk_bytes c) ->
  chunk_loop (take n (chunk_bytes c)) st = ([truncation_message c n], Ok None).
Proof.
  intros Hwf Hs Hn. rewrite (chunk_bytes_length c Hwf) in Hn.
  destruct Hwf as (Hlb & Hty & Hdata & Hcrc).
  unfold truncation_message, chunk_bytes.
  destruct (Nat.ltb_spec n 4) as [H4|H4].
  { apply chunk_loop_short_length. rewrite length_take. lia. }
  rewrite take_app_ge, Hlb by lia.
  destruct (Nat.ltb_spec n 8) as [H8|H8].
  { apply chunk_loop_short_type; [exact Hlb|]. rewrite length_take. lia. }
  rewrite take_app_ge, Hty by lia.
  destruct (Nat.ltb_spec n (8 + length (chunk_data c))) as [Hd|Hd].
  { rewrite take_app_le by lia.
    rewrite (chunk_loop_short_payload _ _ _ s st Hlb Hty Hs)
      by (rewrite length_take; lia).
    rewrite length_take, <- Hdata. do 3 f_equal. lia. }
  rewrite take_app_ge by lia.
  apply (chunk_loop_short_crc _ _ _ _ s); auto.
  rewrite length_take. lia.
Qed.

Lemma process_chunk_continues_decodes (c : chunk) (st st' : png_state)
    (out : list message) :
  process_chunk c st = ChunkContinues out st' ->
  exists s, decode_ascii (chunk_type c) = Ok s.
Proof.
  unfold process_chunk. destruct (decode_ascii (chunk_type c)); [eauto|discriminate].
Qed.

Lemma process_chunk_breaks_decodes (c : chunk) (st : png_state) :
  process_chunk c st = ChunkBreaks ->
  exists s, decode_ascii (chunk_type c) = Ok s.
Proof.
  unfold process_chunk. destruct (decode_ascii (chunk_type c)); [eauto|discriminate].
Qed.

(** The loop on a proper prefix of a well-formed chunk sequence never
    breaks out with a state. *)
Lemma chunk_loop_cut_sequence (cend : chunk) (s : string) (cs : list chunk) :
  chunk_wf cend -> decode_ascii (chunk_type cend) = Ok s ->
  forall (st st' : png_state) (out : list message) (m : nat),
    Forall chunk_wf cs ->
    process_chunks cs st = Some (out, st') ->
    m < length (flat_map chunk_bytes cs ++ chunk_bytes cend) ->
    snd (chunk_loop (take m (flat_map chunk_bytes cs ++ chunk_bytes cend)) st)
    = Ok None.
Proof.
  intros Hend Hs. induction cs as [|c cs IH]; intros st st' out m Hwf Hrun Hm.
  - cbn [flat_map app] in *.
    now rewrite (chunk_loop_cut_chunk cend m s st Hend Hs Hm).
  - apply Forall_cons in Hwf as [Hc Hcs].
    cbn [flat_map process_chunks] in *. rewrite <- app_assoc in *.
    destruct (process_chunk c st) as [e| |out1 st1] eqn:Hproc; try discriminate.
    destruct (process_chunks cs st1) as [[out2 st2]|] eqn:Hrest; [|discriminate].
    destruct (le_lt_dec (length (chunk_bytes c)) m) as [Hge|Hlt].
    + rewrite take_app_ge by exact Hge.
      rewrite (chunk_loop_chunk c _ st Hc), Hproc. unfold after_printing. cbn [snd].
      apply (IH st1 st2 out2); [exact Hcs | exact Hrest |].
      rewrite length_app in Hm. lia.
    + rewrite take_app_le by lia.
      destruct (process_chunk_continues_decodes c st st1 out1 Hproc) as [s' Hs'].
      now rewrite (chunk_loop_cut_chunk c m s' st Hc Hs' Hlt).
Qed.

(** X11. A file cut short is never decoded: if a file consists of the
    signature and complete chunks that lead the loop to [IEND], then
    [read_png] returns [None] on every proper prefix of it. *)
Theorem proper_prefix_is_rejected (zlib : bytes -> option bytes)
    (fs : string -> option bytes) (filename : string)
    (cs : list chunk) (cend : chunk) (out : list message) (st : png_state)
    (m : nat) :
  Forall chunk_wf cs -> chunk_wf cend ->
  process_chunks cs png_init = Some (out, st) ->
  process_chunk cend st = ChunkBreaks ->
  m < length (PNG_SIGNATURE ++ flat_map chunk_bytes cs ++ chunk_bytes cend) ->
  fs filename
  = Some (take m (PNG_SIGNATURE ++ flat_map chunk_bytes cs ++ chunk_bytes cend)) ->
  snd (read_png zlib fs filename) = None.
Proof.
  intros Hwf Hend Hrun Hbreak Hm Hfs. unfold read_png. rewrite Hfs.
  destruct (process_chunk_breaks_decodes cend st Hbreak) as [s Hs].
  destruct (le_lt_dec 8 m) as [Hge|Hlt].
  - rewrite take_app_ge by exact Hge.
    rewrite read_png_file_signed by reflexivity.
    rewrite bool_decide_eq_true_2 by reflexivity. cbn [negb length PNG_SIGNATURE].
    pose proof (chunk_loop_cut_sequence cend s cs Hend Hs png_init st out (m - 8)
                  Hwf Hrun) as Hcut.
    rewrite length_app in Hm. cbn [length PNG_SIGNATURE] in Hm.
    specialize (Hcut ltac:(lia)).
    destruct (chunk_loop _ png_init) as [out1 [[st1|]|e]]; try discriminate.
    reflexivity.
  - unfold read_png_file. cbv zeta.
    rewrite (take_ge (take m _)) by (rewrite length_take; lia).
    rewrite bool_decide_eq_false_2; [reflexivity|].
    intros Heq. apply (f_equal length) in Heq.
    rewrite length_take in Heq. cbn [length PNG_SIGNATURE] in Heq. lia.
Qed.

(** Witness for X11: the minimal 2x1 file, cut after 40 bytes. *)
Lemma proper_prefix_is_rejected_witness :
  snd (read_png sample_decompress
         (fun _ => Some (take 40 (PNG_SIGNATURE
                                    ++ flat_map chunk_bytes [sample_ihdr 8 2; sample_idat]
                                    ++ chunk_bytes sample_iend)))
         "image.png")
  = None.
Proof.
  refine (proper_prefix_is_rejected sample_decompress _ "image.png"
            [sample_ihdr 8 2; sample_idat] sample_iend
            [PrintHeader 2 1 2 8]
            {| header := Some (HeaderVars 2 1 8 2 0 0 0);
               pixel_data := sample_payload |}
            40 _ _ eq_refl eq_refl _ eq_refl).
  - repeat constructor.
  - repeat constructor.
  - vm_compute. lia.
Defined.

(** ** A file whose chunks lead the loop to [IEND] *)

Lemma has_type_of_decode (name : string) (c : chunk) (s : string) :
  decode_ascii (chunk_type c) = Ok s -> has_type name c = String.eqb s name.
Proof. unfold has_type. now intros ->. Qed.

(** The variables after a run of chunks: the payloads of the [IDAT] chunks
    have been appended in order, and the header is that of the last [IHDR]
    chunk. *)
Lemma process_chunks_state (cs : list chunk) :
  forall (st st' : png_state) (out : list message),
    process_chunks cs st = Some (out, st') ->
    pixel_data st' = pixel_data st ++ idat_payloads cs
    /\ header st' = last_header cs (header st).
Proof.
  induction cs as [|c cs IH]; intros st st' out Hrun.
  - cbn in Hrun. injection Hrun as <- <-. cbn. now rewrite app_nil_r.
  - cbn [process_chunks] in Hrun.
    destruct (process_chunk c st) as [e| |out1 st1] eqn:Hproc; try discriminate.
    destruct (process_chunks cs st1) as [[out2 st2]|] eqn:Hrest; [|discriminate].
    injection Hrun as <- <-.
    destruct (IH st1 st2 out2 Hrest) as [Hdata Hhdr].
    unfold idat_payloads, last_header in *. cbn [flat_map fold_left].
    unfold process_chunk in Hproc.
    destruct (decode_ascii (chunk_type c)) as [s|e] eqn:Hs; [|discriminate].
    rewrite !(has_type_of_decode _ c s Hs).
    destruct (String.eqb_spec s "IHDR") as [->|Hn1].
    { destruct (unpack_header (chunk_data c)) as [hdr|e]; [|discriminate].
      injection Hproc as <- <-. cbn [String.eqb Ascii.eqb Bool.eqb].
      cbn [set_header pixel_data header] in *. auto. }
    destruct (String.eqb_spec s "IDAT") as [->|Hn2].
    { injection Hproc as <- <-. cbn [add_pixel_data pixel_data header] in *.
      rewrite Hdata, <- app_assoc. auto. }
    destruct (String.eqb_spec s "IEND") as [->|Hn3]; [discriminate|].
    injection Hproc as <- <-. auto.
Qed.

(** [read_png] once the loop has left by [break]: everything depends on
    the chunks only through the [IDAT] payloads and the last header. *)
Lemma read_png_complete (zlib : bytes -> option bytes)
    (fs : string -> option bytes) (filename : string)
    (cs : list chunk) (cend : chunk) (trailing : bytes)
    (out : list message) (st : png_state) :
  fs filename
  = Some (PNG_SIGNATURE ++ flat_map chunk_bytes cs ++ chunk_bytes cend ++ trailing) ->
  Forall chunk_wf cs -> chunk_wf cend ->
  process_chunks cs png_init = Some (out, st) ->
  process_chunk cend st = ChunkBreaks ->
  read_png zlib fs filename
  = match after_printing out
            (decode_pixels zlib {| header := last_header cs None;
                                   pixel_data := idat_payloads cs |}) with
    | (out', Ok r) => (out', r)
    | (out', Raise e) => (out' ++ [PrintUnexpected e], None)
    end.
Proof.
  intros Hfs Hwf Hend Hrun Hbreak. unfold read_png. rewrite Hfs.
  rewrite (read_png_file_break zlib cs cend trailing out st Hwf Hend Hrun Hbreak).
  destruct (process_chunks_state cs png_init st out Hrun) as [Hdata Hhdr].
  cbn [png_init pixel_data header app] in Hdata, Hhdr.
  destruct st as [hdr data]. cbn [pixel_data header] in *. now subst.
Qed.

(** X12. Bytes after the [IEND] chunk are never read: two files that are
    the same up to and including the chunk the loop stops at give the same
    printed lines and the same result. *)
Theorem trailing_bytes_are_ignored (zlib : bytes -> option bytes)
    (fs1 fs2 : string -> option bytes) (filename1 filename2 : string)
    (cs : list chunk) (cend : chunk) (trailing1 trailing2 : bytes)
    (out : list message) (st : png_state) :
  fs1 filename1
  = Some (PNG_SIGNATURE ++ flat_map chunk_bytes cs ++ chunk_bytes cend ++ trailing1) ->
  fs2 filename2
  = Some (PNG_SIGNATURE ++ flat_map chunk_bytes cs ++ chunk_bytes cend ++ trailing2) ->
  Forall chunk_wf cs -> chunk_wf cend ->
  process_chunks cs png_init = Some (out, st) ->
  process_chunk cend st = ChunkBreaks ->
  read_png zlib fs1 filename1 = read_png zlib fs2 filename2.
Proof.
  intros Hfs1 Hfs2 Hwf Hend Hrun Hbreak.
  rewrite (read_png_complete zlib fs1 filename1 cs cend trailing1 out st) by assumption.
  rewrite (read_png_complete zlib fs2 filename2 cs cend trailing2 out st) by assumption.
  reflexivity.
Qed.

(** Witness for X12: the minimal 2x1 file, alone and followed by three
    bytes. *)
Lemma trailing_bytes_are_ignored_witness :
  read_png sample_decompress
    (fun _ => Some (PNG_SIGNATURE
                      ++ flat_map chunk_bytes [sample_ihdr 8 2; sample_idat]
                      ++ chunk_bytes sample_iend ++ []))
    "a.png"
  = read_png sample_decompress
      (fun _ => Some (PNG_SIGNATURE
                        ++ flat_map chunk_bytes [sample_ihdr 8 2; sample_idat]
                        ++ chunk_bytes sample_iend ++ [1; 2; 3]%Z))
      "b.png".
Proof.
  refine (trailing_bytes_are_ignored sample_decompress _ _ "a.png" "b.png"
            [sample_ihdr 8 2; sample_idat] sample_iend [] [1; 2; 3]%Z
            [PrintHeader 2 1 2 8]
            {| header := Some (HeaderVars 2 1 8 2 0 0 0);
               pixel_data := sample_payload |}
            eq_refl eq_refl _ _ eq_refl eq_refl).
  - repeat constructor.
  - repeat constructor.
Defined.

(** X13. What is decompressed is the concatenation, in stream order, of
    the payloads of the [IDAT] chunks before [IEND]: [read_png] depends on
    the decompressor only through its answer on those bytes, and when that
    answer is an error it prints the decompression error line and returns
    [None]. *)
Theorem idat_payloads_are_concatenated (zlib : bytes -> option bytes)
    (fs : string -> option bytes) (filename : string)
    (cs : list chunk) (cend : chunk) (trailing : bytes)
    (out : list message) (st : png_state) :
  fs filename
  = Some (PNG_SIGNATURE ++ flat_map chunk_bytes cs ++ chunk_bytes cend ++ trailing) ->
  Forall chunk_wf cs -> chunk_wf cend ->
  process_chunks cs png_init = Some (out, st) ->
  process_chunk cend st = ChunkBreaks ->
  (forall zlib' : bytes -> option bytes,
     zlib' (idat_payloads cs) = zlib (idat_payloads cs) ->
     read_png zlib' fs filename = read_png zlib fs filename)
  /\ (zlib (idat_payloads cs) = None ->
      read_png zlib fs filename = (out ++ [PrintZlibError], None)).
Proof.
  intros Hfs Hwf Hend Hrun Hbreak. split.
  - intros zlib' Hagree.
    rewrite (read_png_complete zlib' fs filename cs cend trailing out st) by assumption.
    rewrite (read_png_complete zlib fs filename cs cend trailing out st) by assumption.
    unfold decode_pixels. cbn [pixel_data]. now rewrite Hagree.
  - intros Herr.
    rewrite (read_png_complete zlib fs filename cs cend trailing out st) by assumption.
    unfold decode_pixels. cbn [pixel_data]. rewrite Herr. reflexivity.
Qed.

(** Witness for X13: a file whose data is split over three [IDAT] chunks,
    the second one empty, and a decompressor that rejects everything. *)
Lemma idat_payloads_are_concatenated_witness :
  read_png (fun _ => None)
    (fun _ => Some (PNG_SIGNATURE
                      ++ flat_map chunk_bytes
                           [sample_ihdr 8 2;
                            Chunk [0; 0; 0; 2] [73; 68; 65; 84] [120; 1] [0; 0; 0; 0];
                            Chunk [0; 0; 0; 0] [73; 68; 65; 84] [] [0; 0; 0; 0];
                            Chunk [0; 0; 0; 1] [73; 68; 65; 84] [1] [0; 0; 0; 0]]%Z
                      ++ chunk_bytes sample_iend ++ []))
    "image.png"
  = ([PrintHeader 2 1 2 8] ++ [PrintZlibError], None).
Proof.
  refine (proj2 (idat_payloads_are_concatenated (fun _ => None) _ "image.png"
                   [sample_ihdr 8 2;
                    Chunk [0; 0; 0; 2] [73; 68; 65; 84] [120; 1] [0; 0; 0; 0];
                    Chunk [0; 0; 0; 0] [73; 68; 65; 84] [] [0; 0; 0; 0];
                    Chunk [0; 0; 0; 1] [73; 68; 65; 84] [1] [0; 0; 0; 0]]%Z
                   sample_iend []
                   [PrintHeader 2 1 2 8]
                   {| header := Some (HeaderVars 2 1 8 2 0 0 0);
                      pixel_data := [120; 1; 1]%Z |}
                   eq_refl _ _ eq_refl eq_refl) eq_refl).
  - repeat constructor.
  - repeat constructor.
Defined.

(** X14. Without an [IHDR] chunk before [IEND] there is no result: when
    the data decompresses, computing the scanline length from the missing
    width raises [TypeError], which the generic handler reports. *)
Theorem missing_header_is_reported (zlib : bytes -> option bytes)
    (fs : string -> option bytes) (filename : string)
    (cs : list chunk) (cend : chunk) (trailing : bytes)
    (out : list message) (st : png_state) (raw : bytes) :
  fs filename
  = Some (PNG_SIGNATURE ++ flat_map chunk_bytes cs ++ chunk_bytes cend ++ trailing) ->
  Forall chunk_wf cs -> chunk_wf cend ->
  process_chunks cs png_init = Some (out, st) ->
  process_chunk cend st = ChunkBreaks ->
  Forall (fun c => has_type "IHDR" c = false) cs ->
  zlib (idat_payloads cs) = Some raw ->
  read_png zlib fs filename = (out ++ [PrintUnexpected TypeError], None).
Proof.
  intros Hfs Hwf Hend Hrun Hbreak Hnone Hz.
  rewrite (read_png_complete zlib fs filename cs cend trailing out st) by assumption.
  assert (Hhdr : forall hdr0, last_header cs hdr0 = hdr0).
  { clear -Hnone. induction Hnone as [|c cs Hc _ IH]; intros hdr0; [reflexivity|].
    unfold last_header in *. cbn [fold_left]. rewrite Hc. apply IH. }
  rewrite Hhdr. unfold decode_pixels, header_ints. cbn [pixel_data header].
  rewrite Hz. cbn. now rewrite app_nil_r.
Qed.

(** Witness for X14: a file with the data chunk and the trailer only. *)
Lemma missing_header_is_reported_witness :
  read_png sample_decompress
    (fun _ => Some (PNG_SIGNATURE ++ flat_map chunk_bytes [sample_idat]
                      ++ chunk_bytes sample_iend ++ []))
    "image.png"
  = ([] ++ [PrintUnexpected TypeError], None).
Proof.
  refine (missing_header_is_reported sample_decompress _ "image.png"
            [sample_idat] sample_iend [] []
            {| header := None; pixel_data := sample_payload |}
            [0; 255; 0; 0; 0; 255; 0]%Z
            eq_refl _ _ eq_refl eq_refl _ eq_refl).
  - repeat constructor.
  - repeat constructor.
  - repeat constructor.
Defined.

(** X15. The result of [read_png] on a file whose chunks lead to [IEND]:
    with the header of the last [IHDR] chunk and the decompressed [IDAT]
    payloads, it returns the header's width, height, colour type and bit
    depth with the defiltered data when the engine returns, and [None]
    through the generic handler when the engine raises. *)
Theorem read_png_result (zlib : bytes -> option bytes)
    (fs : string -> option bytes) (filename : string)
    (cs : list chunk) (cend : chunk) (trailing : bytes)
    (out : list message) (st : png_state) (hdr : header_vars) (raw : bytes) :
  fs filename
  = Some (PNG_SIGNATURE ++ flat_map chunk_bytes cs ++ chunk_bytes cend ++ trailing) ->
  Forall chunk_wf cs -> chunk_wf cend ->
  process_chunks cs png_init = Some (out, st) ->
  process_chunk cend st = ChunkBreaks ->
  last_header cs None = Some hdr ->
  zlib (idat_payloads cs) = Some raw ->
  (forall fout data,
     apply_filters_to_data (width hdr) (height hdr) raw = (fout, Ok data) ->
     read_png zlib fs filename
     = (out ++ fout,
        Some (width hdr, height hdr, color_type hdr, bit_depth hdr, data)))
  /\ (forall fout e,
        apply_filters_to_data (width hdr) (height hdr) raw = (fout, Raise e) ->
        read_png zlib fs filename = (out ++ fout ++ [PrintUnexpected e], None)).
Proof.
  intros Hfs Hwf Hend Hrun Hbreak Hhdr Hz.
  rewrite (read_png_complete zlib fs filename cs cend trailing out st) by assumption.
  unfold decode_pixels, header_ints. cbn [pixel_data header].
  rewrite Hz, Hhdr, py_bind_lift_Ok. cbv zeta.
  split.
  - intros fout data ->. cbn. now rewrite app_nil_r.
  - intros fout e ->. cbn. now rewrite app_assoc.
Qed.

(** Witness for X15: a file with two header chunks, 16-bit then 8-bit. *)
Lemma read_png_result_witness :
  read_png sample_decompress
    (fun _ => Some (PNG_SIGNATURE
                      ++ flat_map chunk_bytes
                           [sample_ihdr 16 6; sample_ihdr 8 2; sample_idat]
                      ++ chunk_bytes sample_iend ++ []))
    "image.png"
  = ([PrintHeader 2 1 6 16; PrintHeader 2 1 2 8] ++ [],
     Some (2, 1, 2%Z, 8%Z, [255; 0; 0; 0; 255; 0]%Z)).
Proof.
  refine (proj1 (read_png_result sample_decompress _ "image.png"
                   [sample_ihdr 16 6; sample_ihdr 8 2; sample_idat] sample_iend []
                   [PrintHeader 2 1 6 16; PrintHeader 2 1 2 8]
                   {| header := Some (HeaderVars 2 1 8 2 0 0 0);
                      pixel_data := sample_payload |}
                   (HeaderVars 2 1 8 2 0 0 0) [0; 255; 0; 0; 0; 255; 0]%Z
                   eq_refl _ _ eq_refl eq_refl eq_refl eq_refl)
            [] [255; 0; 0; 0; 255; 0]%Z eq_refl).
  - repeat constructor.
  - repeat constructor.
Defined.

(** ** Chunks that stop or do not touch the decoding *)

Lemma unpack_header_wrong_length (data : bytes) :
  length data <> 13 -> unpack_header data = Raise StructError.
Proof.
  intros Hlen. unfold unpack_header.
  do 14 (destruct data as [|? data]; [try reflexivity; cbn in Hlen; lia|]).
  reflexivity.
Qed.

(** X16. An [IHDR] chunk whose payload is not exactly 13 bytes long stops
    the decoding: unpacking it raises [struct.error], the generic handler
    reports it and [read_png] returns [None], whatever follows. *)
Theorem header_of_wrong_length_is_reported (zlib : bytes -> option bytes)
    (fs : string -> option bytes) (filename : string)
    (cs : list chunk) (c : chunk) (rest : bytes)
    (out : list message) (st : png_state) :
  fs filename = Some (PNG_SIGNATURE ++ flat_map chunk_bytes cs ++ chunk_bytes c ++ rest) ->
  Forall chunk_wf cs -> chunk_wf c ->
  process_chunks cs png_init = Some (out, st) ->
  has_type "IHDR" c = true ->
  length (chunk_data c) <> 13 ->
  read_png zlib fs filename = (out ++ [PrintUnexpected StructError], None).
Proof.
  intros Hfs Hwf Hc Hrun Hty Hlen. unfold read_png. rewrite Hfs.
  rewrite read_png_file_signed by reflexivity.
  rewrite bool_decide_eq_true_2 by reflexivity. cbn [negb].
  rewrite (chunk_loop_chunks cs _ png_init st out Hwf Hrun).
  rewrite py_bind_after_printing, (chunk_loop_chunk c rest st Hc).
  unfold process_chunk. unfold has_type in Hty.
  destruct (decode_ascii (chunk_type c)) as [s|e]; [|discriminate].
  rewrite Hty, (unpack_header_wrong_length _ Hlen). cbn. now rewrite app_nil_r.
Qed.

(** Witness for X16: a header chunk of 12 bytes. *)
Lemma header_of_wrong_length_is_reported_witness :
  read_png sample_decompress
    (fun _ => Some (PNG_SIGNATURE ++ flat_map chunk_bytes []
                      ++ chunk_bytes (Chunk [0; 0; 0; 12] [73; 72; 68; 82]
                                        [0; 0; 0; 2; 0; 0; 0; 1; 8; 2; 0; 0]
                                        [0; 0; 0; 0])%Z
                      ++ chunk_bytes sample_idat))
    "image.png"
  = ([] ++ [PrintUnexpected StructError], None).
Proof.
  refine (header_of_wrong_length_is_reported sample_decompress _ "image.png"
            []
            (Chunk [0; 0; 0; 12] [73; 72; 68; 82]
                   [0; 0; 0; 2; 0; 0; 0; 1; 8; 2; 0; 0] [0; 0; 0; 0])%Z
            (chunk_bytes sample_idat) [] png_init
            eq_refl _ _ eq_refl eq_refl _).
  - constructor.
  - repeat constructor.
  - cbn. lia.
Defined.

(** X17. A chunk of any other ASCII type than [IHDR], [IDAT] and [IEND] is
    skipped: taking it out of the file changes what is printed, by one
    "Ignoring chunk type" line, and leaves the value returned as it is. *)
Theorem ancillary_chunk_is_ignored (zlib : bytes -> option bytes)
    (fs1 fs2 : string -> option bytes) (filename1 filename2 : string)
    (cs : list chunk) (c : chunk) (rest : bytes)
    (out : list message) (st : png_state) (s : string) :
  fs1 filename1
  = Some (PNG_SIGNATURE ++ flat_map chunk_bytes cs ++ chunk_bytes c ++ rest) ->
  fs2 filename2 = Some (PNG_SIGNATURE ++ flat_map chunk_bytes cs ++ rest) ->
  Forall chunk_wf cs -> chunk_wf c ->
  process_chunks cs png_init = Some (out, st) ->
  decode_ascii (chunk_type c) = Ok s ->
  s <> "IHDR"%string -> s <> "IDAT"%string -> s <> "IEND"%string ->
  snd (read_png zlib fs1 filename1) = snd (read_png zlib fs2 filename2)
  /\ exists out',
       fst (read_png zlib fs1 filename1) = out ++ PrintIgnoringChunk s :: out'
       /\ fst (read_png zlib fs2 filename2) = out ++ out'.
Proof.
  intros Hfs1 Hfs2 Hwf Hc Hrun Hs Hn1 Hn2 Hn3. unfold read_png.
  rewrite Hfs1, Hfs2.
  rewrite !read_png_file_signed by reflexivity.
  rewrite bool_decide_eq_true_2 by reflexivity. cbn [negb].
  rewrite !(chunk_loop_chunks cs _ png_init st out Hwf Hrun).
  rewrite !py_bind_after_printing, (chunk_loop_chunk c rest st Hc).
  unfold process_chunk. rewrite Hs.
  destruct (String.eqb_spec s "IHDR"); [contradiction|].
  destruct (String.eqb_spec s "IDAT"); [contradiction|].
  destruct (String.eqb_spec s "IEND"); [contradiction|].
  rewrite py_bind_after_printing.
  destruct (py_bind (chunk_loop rest st) _) as [out' [r|e]]; unfold after_printing;
    cbn [fst snd app].
  - split; [reflexivity|]. exists out'. auto.
  - split; [reflexivity|]. exists (out' ++ [PrintUnexpected e]).
    rewrite <- !app_assoc. auto.
Qed.

(** Witness for X17: the minimal 2x1 file with and without a [tEXt] chunk
    between the header and the data. *)
Lemma ancillary_chunk_is_ignored_witness :
  snd (read_png sample_decompress
         (fun _ => Some (PNG_SIGNATURE ++ flat_map chunk_bytes [sample_ihdr 8 2]
                           ++ chunk_bytes (Chunk [0; 0; 0; 2] [116; 69; 88; 116]
                                             [65; 0] [0; 0; 0; 0])%Z
                           ++ chunk_bytes sample_idat ++ chunk_bytes sample_iend))
         "a.png")
  = snd (read_png sample_decompress
           (fun _ => Some (PNG_SIGNATURE ++ flat_map chunk_bytes [sample_ihdr 8 2]
                             ++ chunk_bytes sample_idat ++ chunk_bytes sample_iend))
           "b.png").
Proof.
  refine (proj1 (ancillary_chunk_is_ignored sample_decompress _ _ "a.png" "b.png"
                   [sample_ihdr 8 2]
                   (Chunk [0; 0; 0; 2] [116; 69; 88; 116] [65; 0] [0; 0; 0; 0])%Z
                   (chunk_bytes sample_idat ++ chunk_bytes sample_iend)
                   [PrintHeader 2 1 2 8]
                   (set_header (HeaderVars 2 1 8 2 0 0 0) png_init) "tEXt"
                   eq_refl eq_refl _ _ eq_refl eq_refl _ _ _)).
  - repeat constructor.
  - repeat constructor.
  - discriminate.
  - discriminate.
  - discriminate.
Defined.

(** * The script *)

(** X18. The script is where the format is checked: it reaches its display
    loop only with a result of colour type 2 and bit depth 8 whose data has
    exactly [width * height * 3] bytes, and then with [width * height]
    pixels, at least one; a result of any other colour type or bit depth
    ends the run with the "not Truecolor" line. *)
Theorem script_displays_only_truecolor_8bit (zlib : bytes -> option bytes)
    (fs : string -> option bytes) (png_file : string) :
  (forall pixel_values,
     snd (script zlib fs png_file) = Ok (Some pixel_values) ->
     exists printed w h data,
       read_png zlib fs png_file = (printed, Some (w, h, 2%Z, 8%Z, data))
       /\ length data = w * h * 3
       /\ length pixel_values = w * h
       /\ 0 < w * h)
  /\ (forall printed w h ct bd data,
        read_png zlib fs png_file = (printed, Some (w, h, ct, bd, data)) ->
        ct <> 2%Z \/ bd <> 8%Z ->
        script zlib fs png_file
        = (map Printed printed
             ++ [PrintSuccess png_file; PrintDimensions w h ct bd;
                 PrintDataLength (length data)]
             ++ [PrintNotTruecolor],
           Ok None)).
Proof.
  split.
  - intros pixel_values. unfold script.
    destruct (read_png zlib fs png_file) as [printed [[[[[w h] ct] bd] data]|]];
      [|discriminate].
    destruct (Z.eqb_spec ct 2) as [->|Hct]; [|discriminate].
    destruct (Z.eqb_spec bd 8) as [->|Hbd]; [|discriminate].
    cbn [andb].
    destruct (Nat.eq_dec (length data) (w * h * 3)) as [Heq|Hne].
    + destruct (interpret_rgb_8bit_exact w h data Heq) as (pixels & -> & Hlen & _).
      destruct pixels as [|p ps]; [discriminate|].
      cbn [snd]. intros [= <-].
      exists printed, w, h, data. repeat split; auto.
      rewrite <- Hlen. cbn. lia.
    + rewrite (interpret_rgb_8bit_wrong_size w h data Hne). discriminate.
  - intros printed w h ct bd data Hread Hgate. unfold script. rewrite Hread.
    assert (Hfalse : (ct =? 2)%Z && (bd =? 8)%Z = false).
    { destruct (Z.eqb_spec ct 2); destruct (Z.eqb_spec bd 8); cbn; auto; lia. }
    rewrite Hfalse. now rewrite <- app_assoc.
Qed.

(** Witness for X18: the minimal 2x1 file declared with bit depth 16. *)
Lemma script_displays_only_truecolor_8bit_witness :
  script sample_decompress
    (fun _ => Some (PNG_SIGNATURE ++ chunk_bytes (sample_ihdr 16 2)
                      ++ chunk_bytes sample_idat ++ chunk_bytes sample_iend))
    "image.png"
  = (map Printed [PrintHeader 2 1 2 16]
       ++ [PrintSuccess "image.png"; PrintDimensions 2 1 2 16;
           PrintDataLength (length [255; 0; 0; 0; 255; 0]%Z)]
       ++ [PrintNotTruecolor],
     Ok None).
Proof.
  refine (proj2 (script_displays_only_truecolor_8bit sample_decompress
                   (fun _ => Some (PNG_SIGNATURE ++ chunk_bytes (sample_ihdr 16 2)
                                     ++ chunk_bytes sample_idat
                                     ++ chunk_bytes sample_iend))
                   "image.png")
            [PrintHeader 2 1 2 16] 2 1 2%Z 16%Z [255; 0; 0; 0; 255; 0]%Z eq_refl _).
  right. lia.
Defined.

(** * [test.py]: the assembler without a length test *)

Lemma collect_pixels_app (data : bytes) (idxs1 idxs2 : list nat) :
  forall acc,
    collect_pixels data (idxs1 ++ idxs2) acc
    = res_bind (collect_pixels data idxs1 acc)
               (fun acc' => collect_pixels data idxs2 acc').
Proof.
  induction idxs1 as [|i idxs1 IH]; intros acc; [reflexivity|].
  cbn [app collect_pixels].
  destruct (getitem data i); [|reflexivity]. cbn [res_bind].
  destruct (getitem data (i + 1)); [|reflexivity]. cbn [res_bind].
  destruct (getitem data (i + 2)); [|reflexivity]. cbn [res_bind].
  apply IH.
Qed.

Lemma collect_pixels_triples (data : bytes) (m : nat) (acc : list pixel) :
  length data = 3 * m ->
  collect_pixels data (range_step3 (length data)) acc = Ok (acc ++ triples data).
Proof.
  intros Hlen.
  destruct (collect_pixels_spec data m 0 acc) as (ps & Hps & Hl & Hnth); [lia|].
  replace (length data) with (m * 3) by lia. rewrite range_step3_mult, Hps.
  f_equal. f_equal. unfold triples.
  replace (length data / 3) with m by (rewrite Hlen, Nat.mul_comm, Nat.div_mul; lia).
  apply list_eq. intros j.
  destruct (le_lt_dec m j) as [Hge|Hlt].
  - rewrite !lookup_ge_None_2; [reflexivity| |lia].
    rewrite length_map, length_seq. lia.
  - destruct (Hnth j Hlt) as (r & g & b & Hr & Hg & Hb & Hj).
    transitivity (Some (r, g, b)); [exact Hj|].
    rewrite lookup_map_seq by lia. cbn [Nat.add] in *.
    now rewrite Hr, Hg, Hb.
Qed.

Lemma collect_pixels_ragged (data : bytes) (acc : list pixel) :
  length data mod 3 <> 0 ->
  collect_pixels data (range_step3 (length data)) acc = Raise IndexError.
Proof.
  intros Hmod. set (m := length data / 3).
  assert (Hlen : length data = 3 * m + length data mod 3)
    by (apply Nat.div_mod_eq).
  assert (Hr : length data mod 3 < 3) by (apply Nat.mod_upper_bound; lia).
  assert (Hsteps : range_step3 (length data)
                   = map (fun j => 3 * j) (seq 0 m) ++ [3 * m]).
  { unfold range_step3.
    replace ((length data + 2) / 3) with (S m).
    - rewrite seq_S, map_app. reflexivity.
    - apply (Nat.div_unique _ 3 (S m) (length data mod 3 - 1)); lia. }
  rewrite Hsteps, collect_pixels_app.
  destruct (collect_pixels_spec data m 0 acc) as (ps & -> & _); [lia|].
  cbn [res_bind collect_pixels].
  destruct (getitem_lt data (3 * m)) as (r & _ & ->); [lia|]. cbn [res_bind].
  destruct (le_lt_dec (length data) (3 * m + 1)) as [H1|H1].
  - now rewrite (getitem_ge data (3 * m + 1)) by lia.
  - destruct (getitem_lt data (3 * m + 1)) as (g & _ & ->); [lia|]. cbn [res_bind].
    now rewrite (getitem_ge data (3 * m + 2)) by lia.
Qed.

(** X19. The assembler of [test.py] has no length test: on data whose
    length is a multiple of 3 it returns all its triples, whatever the
    width and height; on any other length it raises [IndexError] at the
    last, incomplete triple. *)
Theorem unchecked_interpret_rgb_8bit (w h : nat) (data : bytes) :
  (length data mod 3 = 0 ->
   TestPy.interpret_rgb_8bit w h data = Ok (triples data)
   /\ length (triples data) = length data / 3)
  /\ (length data mod 3 <> 0 ->
      TestPy.interpret_rgb_8bit w h data = Raise IndexError).
Proof.
  unfold TestPy.interpret_rgb_8bit. split.
  - intros Hmod. split.
    + apply (collect_pixels_triples data (length data / 3) []).
      pose proof (Nat.div_mod_eq (length data) 3). lia.
    + unfold triples. now rewrite length_map, length_seq.
  - apply collect_pixels_ragged.
Qed.

(** * [test.py]: the reader with a palette *)

Lemma testpy_chunk_loop_chunk (c : chunk) (rest : bytes) (st : TestPy.png_state) :
  chunk_wf c ->
  TestPy.chunk_loop (chunk_bytes c ++ rest) st
  = match TestPy.process_chunk c st with
    | TestPy.ChunkRaises e => py_raise e
    | TestPy.ChunkBreaks => py_ret (Some st)
    | TestPy.ChunkContinues out st' =>
        after_printing out (TestPy.chunk_loop rest st')
    end.
Proof.
  intros (Hlen & Hty & Hdata & Hcrc).
  rewrite TestPy.chunk_loop_equation_1. cbv zeta.
  unfold chunk_bytes. rewrite <- !app_assoc.
  rewrite (take_app_length' (chunk_length c)) by (symmetry; exact Hlen).
  rewrite (drop_app_length' (chunk_length c)) by (symmetry; exact Hlen).
  destruct (decide (length (chunk_length c) = 4)) as [_|Hne]; [|contradiction].
  rewrite (take_app_length' (chunk_type c)) by (symmetry; exact Hty).
  rewrite (drop_app_length' (chunk_type c)) by (symmetry; exact Hty).
  rewrite Hty. cbn [Nat.eqb negb].
  unfold TestPy.process_chunk.
  destruct (decode_ascii (chunk_type c)) as [chunk_type_str|e]; [|reflexivity].
  rewrite (take_app_length' (chunk_data c)) by (symmetry; exact Hdata).
  rewrite (drop_app_length' (chunk_data c)) by (symmetry; exact Hdata).
  rewrite Hdata, Nat.eqb_refl. cbn [negb].
  rewrite (take_app_length' (chunk_crc c)) by (symmetry; exact Hcrc).
  rewrite (drop_app_length' (chunk_crc c)) by (symmetry; exact Hcrc).
  rewrite Hcrc. cbn [Nat.eqb negb].
  destruct (String.eqb chunk_type_str "IHDR").
  { destruct (unpack_header (chunk_data c)); reflexivity. }
  destruct (String.eqb chunk_type_str "IDAT").
  { now rewrite after_printing_nil. }
  destruct (String.eqb chunk_type_str "PLTE").
  { rewrite <- Hdata.
    destruct (collect_pixels (chunk_data c) _ (TestPy.palette st)); [|reflexivity].
    now rewrite after_printing_nil. }
  destruct (String.eqb chunk_type_str "IEND"); reflexivity.
Qed.

Lemma testpy_chunk_loop_chunks (cs : list chunk) (rest : bytes) :
  forall (st st' : TestPy.png_state) (out : list message),
    Forall chunk_wf cs ->
    TestPy.process_chunks cs st = Some (out, st') ->
    TestPy.chunk_loop (flat_map chunk_bytes cs ++ rest) st
    = after_printing out (TestPy.chunk_loop rest st').
Proof.
  induction cs as [|c cs IH]; intros st st' out Hwf Hrun.
  - cbn in Hrun. injection Hrun as <- <-. cbn. now rewrite after_printing_nil.
  - apply Forall_cons in Hwf as [Hc Hcs].
    cbn [flat_map TestPy.process_chunks] in *. rewrite <- app_assoc.
    rewrite (testpy_chunk_loop_chunk c _ st Hc).
    destruct (TestPy.process_chunk c st) as [e| |out1 st1]; try discriminate.
    destruct (TestPy.process_chunks cs st1) as [[out2 st2]|] eqn:Hrest; [|discriminate].
    injection Hrun as <- <-.
    rewrite (IH st1 st2 out2 Hcs Hrest). apply after_printing_app.
Qed.

Lemma collect_pixels_Ok_inv (data : bytes) (acc palette' : list pixel) :
  collect_pixels data (range_step3 (length data)) acc = Ok palette' ->
  length data mod 3 = 0 /\ palette' = acc ++ triples data.
Proof.
  intros Hrun. destruct (Nat.eq_dec (length data mod 3) 0) as [Hmod|Hmod].
  - split; [exact Hmod|].
    rewrite (collect_pixels_triples data (length data / 3) acc) in Hrun.
    + now injection Hrun as <-.
    + pose proof (Nat.div_mod_eq (length data) 3). lia.
  - rewrite (collect_pixels_ragged data acc Hmod) in Hrun. discriminate.
Qed.

Lemma testpy_process_chunks_state (cs : list chunk) :
  forall (st st' : TestPy.png_state) (out : list message),
    TestPy.process_chunks cs st = Some (out, st') ->
    TestPy.pixel_data st' = TestPy.pixel_data st ++ idat_payloads cs
    /\ TestPy.header st' = last_header cs (TestPy.header st)
    /\ TestPy.palette st' = TestPy.palette st ++ palette_entries cs.
Proof.
  induction cs as [|c cs IH]; intros st st' out Hrun.
  - cbn in Hrun. injection Hrun as <- <-. cbn. now rewrite !app_nil_r.
  - cbn [TestPy.process_chunks] in Hrun.
    destruct (TestPy.process_chunk c st) as [e| |out1 st1] eqn:Hproc; try discriminate.
    destruct (TestPy.process_chunks cs st1) as [[out2 st2]|] eqn:Hrest; [|discriminate].
    injection Hrun as <- <-.
    destruct (IH st1 st2 out2 Hrest) as (Hdata & Hhdr & Hpal).
    unfold idat_payloads, last_header, palette_entries in *.
    cbn [flat_map fold_left].
    unfold TestPy.process_chunk in Hproc.
    destruct (decode_ascii (chunk_type c)) as [s|e] eqn:Hs; [|discriminate].
    rewrite !(has_type_of_decode _ c s Hs).
    destruct (String.eqb_spec s "IHDR") as [->|Hn1].
    { destruct (unpack_header (chunk_data c)) as [hdr|e]; [|discriminate].
      injection Hproc as <- <-. cbn [String.eqb Ascii.eqb Bool.eqb].
      cbn [TestPy.set_header TestPy.pixel_data TestPy.header TestPy.palette] in *.
      auto. }
    destruct (String.eqb_spec s "IDAT") as [->|Hn2].
    { injection Hproc as <- <-. cbn [String.eqb Ascii.eqb Bool.eqb].
      cbn [TestPy.add_pixel_data TestPy.pixel_data TestPy.header TestPy.palette] in *.
      rewrite Hdata, <- app_assoc. auto. }
    destruct (String.eqb_spec s "PLTE") as [->|Hn3].
    { destruct (collect_pixels (chunk_data c) _ (TestPy.palette st)) as [pal|e] eqn:Hpl;
        [|discriminate].
      injection Hproc as <- <-.
      apply collect_pixels_Ok_inv in Hpl as [_ ->].
      cbn [TestPy.set_palette TestPy.pixel_data TestPy.header TestPy.palette] in *.
      rewrite Hpal, <- app_assoc. auto. }
    destruct (String.eqb_spec s "IEND") as [->|Hn4]; [discriminate|].
    injection Hproc as <- <-. auto.
Qed.

Lemma testpy_read_png_file_signed (zlib : bytes -> option bytes) (body : bytes) :
  TestPy.read_png_file zlib (PNG_SIGNATURE ++ body)
  = py_bind (TestPy.chunk_loop body TestPy.png_init)
      (fun broke =>
         match broke with
         | None => py_ret None
         | Some st => TestPy.decompress_pixels zlib st
         end).
Proof. reflexivity. Qed.

(** X20. [read_png] of [test.py] on a file whose chunks lead to [IEND] and
    whose [IDAT] payloads decompress: it returns the width, height and
    colour type of the last [IHDR] chunk ([None] each if there is none),
    the decompressed bytes as they are, still filtered, and as palette the
    byte triples of the [PLTE] payloads in stream order. *)
Theorem testpy_read_png_result (zlib : bytes -> option bytes)
    (fs : string -> option bytes) (filename : string)
    (cs : list chunk) (cend : chunk) (trailing : bytes)
    (out : list message) (st : TestPy.png_state) (raw : bytes) :
  fs filename
  = Some (PNG_SIGNATURE ++ flat_map chunk_bytes cs ++ chunk_bytes cend ++ trailing) ->
  Forall chunk_wf cs -> chunk_wf cend ->
  TestPy.process_chunks cs TestPy.png_init = Some (out, st) ->
  TestPy.process_chunk cend st = TestPy.ChunkBreaks ->
  zlib (idat_payloads cs) = Some raw ->
  TestPy.read_png zlib fs filename
  = (out,
     Some (option_map width (last_header cs None),
           option_map height (last_header cs None),
           option_map color_type (last_header cs None),
           raw, palette_entries cs)).
Proof.
  intros Hfs Hwf Hend Hrun Hbreak Hz. unfold TestPy.read_png. rewrite Hfs.
  rewrite testpy_read_png_file_signed.
  rewrite (testpy_chunk_loop_chunks cs _ TestPy.png_init st out Hwf Hrun).
  rewrite py_bind_after_printing.
  rewrite (testpy_chunk_loop_chunk cend trailing st Hend), Hbreak.
  destruct (testpy_process_chunks_state cs TestPy.png_init st out Hrun)
    as (Hdata & Hhdr & Hpal).
  cbn [TestPy.png_init TestPy.pixel_data TestPy.header TestPy.palette app] in *.
  unfold py_ret, py_bind, TestPy.decompress_pixels.
  rewrite Hdata, Hz, Hhdr, Hpal. cbn. now rewrite app_nil_r.
Qed.

(** Witness for X20: a file with a two-colour palette and no header. *)
Lemma testpy_read_png_result_witness :
  TestPy.read_png sample_decompress
    (fun _ => Some (PNG_SIGNATURE
                      ++ flat_map chunk_bytes
                           [Chunk [0; 0; 0; 6] [80; 76; 84; 69]
                                  [255; 0; 0; 0; 255; 0] [0; 0; 0; 0];
                            sample_idat]%Z
                      ++ chunk_bytes sample_iend ++ []))
    "image.png"
  = ([],
     Some (None, None, None, [0; 255; 0; 0; 0; 255; 0]%Z,
           palette_entries [Chunk [0; 0; 0; 6] [80; 76; 84; 69]
                                  [255; 0; 0; 0; 255; 0] [0; 0; 0; 0];
                            sample_idat]%Z)).
Proof.
  refine (testpy_read_png_result sample_decompress _ "image.png"
            [Chunk [0; 0; 0; 6] [80; 76; 84; 69] [255; 0; 0; 0; 255; 0] [0; 0; 0; 0];
             sample_idat]%Z
            sample_iend [] []
            {| TestPy.header := None; TestPy.pixel_data := sample_payload;
               TestPy.palette := [(255, 0, 0); (0, 255, 0)]%Z |}
            [0; 255; 0; 0; 0; 255; 0]%Z
            eq_refl _ _ eq_refl eq_refl eq_refl).
  - repeat constructor.
  - repeat constructor.
Defined.

(** X21. A [PLTE] chunk whose payload length is not a multiple of 3 stops
    the decoding of [test.py]: reading the last, incomplete entry raises
    [IndexError], the generic handler reports it and [read_png] returns
    [None], whatever follows. *)
Theorem testpy_ragged_palette_is_reported (zlib : bytes -> option bytes)
    (fs : string -> option bytes) (filename : string)
    (cs : list chunk) (c : chunk) (rest : bytes)
    (out : list message) (st : TestPy.png_state) :
  fs filename = Some (PNG_SIGNATURE ++ flat_map chunk_bytes cs ++ chunk_bytes c ++ rest) ->
  Forall chunk_wf cs -> chunk_wf c ->
  TestPy.process_chunks cs TestPy.png_init = Some (out, st) ->
  has_type "PLTE" c = true ->
  length (chunk_data c) mod 3 <> 0 ->
  TestPy.read_png zlib fs filename = (out ++ [PrintUnexpected IndexError], None).
Proof.
  intros Hfs Hwf Hc Hrun Hty Hmod. unfold TestPy.read_png. rewrite Hfs.
  rewrite testpy_read_png_file_signed.
  rewrite (testpy_chunk_loop_chunks cs _ TestPy.png_init st out Hwf Hrun).
  rewrite py_bind_after_printing, (testpy_chunk_loop_chunk c rest st Hc).
  unfold TestPy.process_chunk. unfold has_type in Hty.
  destruct (decode_ascii (chunk_type c)) as [s|e]; [|discriminate].
  apply String.eqb_eq in Hty. subst s. cbn [String.eqb Ascii.eqb Bool.eqb].
  rewrite (collect_pixels_ragged _ _ Hmod). cbn. now rewrite app_nil_r.
Qed.

(** Witness for X21: a palette chunk of four bytes. *)
Lemma testpy_ragged_palette_is_reported_witness :
  TestPy.read_png sample_decompress
    (fun _ => Some (PNG_SIGNATURE ++ flat_map chunk_bytes []
                      ++ chunk_bytes (Chunk [0; 0; 0; 4] [80; 76; 84; 69]
                                        [255; 0; 0; 7] [0; 0; 0; 0])%Z
                      ++ chunk_bytes sample_iend))
    "image.png"
  = ([] ++ [PrintUnexpected IndexError], None).
Proof.
  refine (testpy_ragged_palette_is_reported sample_decompress _ "image.png"
            []
            (Chunk [0; 0; 0; 4] [80; 76; 84; 69] [255; 0; 0; 7] [0; 0; 0; 0])%Z
            (chunk_bytes sample_iend) [] TestPy.png_init
            eq_refl _ _ eq_refl eq_refl _).
  - constructor.
  - repeat constructor.
  - cbn. lia.
Defined.

(** * [main.py]: the reader that raises *)

Lemma mainpy_read_chunks_chunk (c : chunk) (rest : bytes)
    (acc : list MainPy.raw_chunk) (s : string) :
  chunk_wf c ->
  decode_ascii (chunk_type c) = Ok s ->
  MainPy.read_chunks (chunk_bytes c ++ rest) acc
  = MainPy.read_chunks rest (acc ++ [raw_chunk_of c]).
Proof.
  intros (Hlen & Hty & Hdata & Hcrc) Hs.
  rewrite MainPy.read_chunks_equation_1. cbv zeta.
  unfold chunk_bytes, raw_chunk_of. rewrite <- !app_assoc.
  rewrite (take_app_length' (chunk_length c)) by (symmetry; exact Hlen).
  rewrite (drop_app_length' (chunk_length c)) by (symmetry; exact Hlen).
  destruct (chunk_length c) as [|b0 lb] eqn:Hlb; [discriminate|].
  destruct (decide (length (b0 :: lb) = 4)) as [_|Hne]; [|contradiction].
  rewrite (take_app_length' (chunk_type c)) by (symmetry; exact Hty).
  rewrite (drop_app_length' (chunk_type c)) by (symmetry; exact Hty).
  rewrite Hs.
  rewrite (take_app_length' (chunk_data c)) by (symmetry; exact Hdata).
  rewrite (drop_app_length' (chunk_data c)) by (symmetry; exact Hdata).
  rewrite (take_app_length' (chunk_crc c)) by (symmetry; exact Hcrc).
  rewrite (drop_app_length' (chunk_crc c)) by (symmetry; exact Hcrc).
  rewrite Hcrc. reflexivity.
Qed.

Lemma mainpy_read_chunks_all (cs : list chunk) (rest : bytes) :
  Forall chunk_wf cs ->
  Forall (fun c => exists s, decode_ascii (chunk_type c) = Ok s) cs ->
  forall acc,
    MainPy.read_chunks (flat_map chunk_bytes cs ++ rest) acc
    = MainPy.read_chunks rest (acc ++ map raw_chunk_of cs).
Proof.
  induction cs as [|c cs IH]; intros Hwf Hascii acc.
  - cbn. now rewrite app_nil_r.
  - apply Forall_cons in Hwf as [Hc Hcs].
    apply Forall_cons in Hascii as [[s Hs] Hrest].
    cbn [flat_map map]. rewrite <- app_assoc.
    rewrite (mainpy_read_chunks_chunk c _ acc s Hc Hs).
    rewrite (IH Hcs Hrest). now rewrite <- app_assoc.
Qed.

Lemma mainpy_read_chunks_end (acc : list MainPy.raw_chunk) :
  MainPy.read_chunks [] acc = Ok acc.
Proof. now rewrite MainPy.read_chunks_equation_1. Qed.

Lemma mainpy_unpack_ihdr_ok (data : bytes) :
  10 <= length data -> exists hdr, MainPy.unpack_ihdr data = Ok hdr.
Proof.
  intros Hlen. unfold MainPy.unpack_ihdr, MainPy.unpack_uint32.
  rewrite !slice_length.
  destruct (Nat.eqb_spec (Nat.min (4 - 0) (length data - 0)) 4); [|lia].
  cbn [res_bind].
  destruct (Nat.eqb_spec (Nat.min (8 - 4) (length data - 4)) 4); [|lia].
  cbn [res_bind].
  destruct (getitem_lt data 8) as (bd & _ & ->); [lia|].
  destruct (getitem_lt data 9) as (ct & _ & ->); [lia|].
  cbn. eauto.
Qed.

Lemma mainpy_process_chunks_state (cs : list chunk) :
  Forall (fun c => exists s, decode_ascii (chunk_type c) = Ok s) cs ->
  Forall (fun c => has_type "IHDR" c = true -> 10 <= length (chunk_data c)) cs ->
  forall st : MainPy.png_state,
    MainPy.process_chunks (map raw_chunk_of cs) st
    = Ok {| MainPy.header := last_header4 cs (MainPy.header st);
            MainPy.image_data := MainPy.image_data st ++ idat_payloads cs |}.
Proof.
  induction cs as [|c cs IH]; intros Hascii Hihdr st.
  - cbn. rewrite app_nil_r. now destruct st.
  - apply Forall_cons in Hascii as [[s Hs] Hrest].
    apply Forall_cons in Hihdr as [Hc Hcs].
    unfold last_header4, idat_payloads in *.
    cbn [map MainPy.process_chunks flat_map fold_left].
    unfold raw_chunk_of at 1. rewrite Hs.
    rewrite !(has_type_of_decode _ c s Hs) in *.
    destruct (String.eqb_spec s "IHDR") as [->|Hn1].
    { destruct (mainpy_unpack_ihdr_ok (chunk_data c) (Hc eq_refl)) as [hdr ->].
      cbn [res_bind String.eqb Ascii.eqb Bool.eqb].
      now rewrite (IH Hrest Hcs). }
    destruct (String.eqb_spec s "IDAT") as [->|Hn2].
    { rewrite (IH Hrest Hcs). cbn [MainPy.header MainPy.image_data].
      now rewrite <- app_assoc. }
    destruct (String.eqb s "IEND"); now rewrite (IH Hrest Hcs).
Qed.

(** X22. [read_png] of [main.py] on a file made of the signature and
    complete chunks with ASCII types, every [IHDR] payload having at least
    ten bytes: it reads all the chunks to the end of the file, whether or
    not there is an [IEND] chunk and also past one, and returns the four
    header values of the last [IHDR] chunk with the decompressed
    concatenation of all [IDAT] payloads; it raises [ValueError] when they
    do not decompress. *)
Theorem mainpy_read_png_result (zlib : bytes -> option bytes)
    (fs : string -> option bytes) (filename : string) (cs : list chunk) :
  fs filename = Some (PNG_SIGNATURE ++ flat_map chunk_bytes cs) ->
  Forall chunk_wf cs ->
  Forall (fun c => exists s, decode_ascii (chunk_type c) = Ok s) cs ->
  Forall (fun c => has_type "IHDR" c = true -> 10 <= length (chunk_data c)) cs ->
  MainPy.read_png zlib fs filename
  = match zlib (idat_payloads cs) with
    | Some raw =>
        MainPy.Returns {| MainPy.info_header := last_header4 cs None;
                          MainPy.decompressed_data := raw |}
    | None => MainPy.Raises MainPy.DecompressError
    end.
Proof.
  intros Hfs Hwf Hascii Hihdr. unfold MainPy.read_png. rewrite Hfs. cbv zeta.
  rewrite (take_app_length' PNG_SIGNATURE) by reflexivity.
  rewrite (drop_app_length' PNG_SIGNATURE) by reflexivity.
  rewrite bool_decide_eq_true_2 by reflexivity. cbn [negb].
  rewrite <- (app_nil_r (flat_map chunk_bytes cs)).
  rewrite (mainpy_read_chunks_all cs [] Hwf Hascii), mainpy_read_chunks_end.
  cbn [MainPy.lift app].
  rewrite (mainpy_process_chunks_state cs Hascii Hihdr). reflexivity.
Qed.

(** Witness for X22: a file without [IEND], its data after a 14-byte
    header chunk. *)
Lemma mainpy_read_png_result_witness :
  MainPy.read_png sample_decompress
    (fun _ => Some (PNG_SIGNATURE
                      ++ flat_map chunk_bytes
                           [Chunk [0; 0; 0; 14] [73; 72; 68; 82]
                                  [0; 0; 0; 2; 0; 0; 0; 1; 8; 2; 0; 0; 0; 0]
                                  [0; 0; 0; 0];
                            sample_idat]%Z))
    "image.png"
  = MainPy.Returns
      {| MainPy.info_header := Some (MainPy.HeaderVars 2 1 8 2);
         MainPy.decompressed_data := [0; 255; 0; 0; 0; 255; 0]%Z |}.
Proof.
  refine (mainpy_read_png_result sample_decompress _ "image.png"
            [Chunk [0; 0; 0; 14] [73; 72; 68; 82]
                   [0; 0; 0; 2; 0; 0; 0; 1; 8; 2; 0; 0; 0; 0] [0; 0; 0; 0];
             sample_idat]%Z
            eq_refl _ _ _).
  - repeat constructor.
  - repeat constructor; eexists; reflexivity.
  - repeat constructor; cbn; intros; lia.
Defined.

Lemma forallb_take {A} (p : A -> bool) (l : list A) (k : nat) :
  forallb p l = true -> forallb p (take k l) = true.
Proof.
  revert k. induction l as [|x l IH]; intros k Hl; [now destruct k|].
  destruct k as [|k]; [reflexivity|]. cbn in *.
  apply andb_true_iff in Hl as [Hx Hl]. now rewrite Hx, IH.
Qed.

Lemma decode_ascii_take (b : bytes) (k : nat) (s : string) :
  decode_ascii b = Ok s -> exists s', decode_ascii (take k b) = Ok s'.
Proof.
  unfold decode_ascii.
  destruct (forallb (fun v => (v <? 128)%Z) b) eqn:Hb; [|discriminate].
  intros _. rewrite (forallb_take _ b k Hb). eauto.
Qed.

(** The first loop on a non-empty proper prefix of a complete chunk. *)
Lemma mainpy_read_chunks_cut (c : chunk) (n : nat) (s : string)
    (acc : list MainPy.raw_chunk) :
  chunk_wf c ->
  decode_ascii (chunk_type c) = Ok s ->
  0 < n < length (chunk_bytes c) ->
  MainPy.read_chunks (take n (chunk_bytes c)) acc = Raise StructError.
Proof.
  intros Hwf Hs Hn. rewrite (chunk_bytes_length c Hwf) in Hn.
  destruct Hwf as (Hlen & Hty & Hdata & Hcrc).
  rewrite MainPy.read_chunks_equation_1. cbv zeta.
  destruct (le_lt_dec 4 n) as [Hge|Hlt].
  - unfold chunk_bytes. rewrite take_app_ge, Hlen by lia.
    rewrite (take_app_length' (chunk_length c)) by (symmetry; exact Hlen).
    rewrite (drop_app_length' (chunk_length c)) by (symmetry; exact Hlen).
    destruct (chunk_length c) as [|b0 lb] eqn:Hlb; [discriminate|].
    destruct (decide (length (b0 :: lb) = 4)) as [_|Hne]; [|contradiction].
    rewrite take_take, take_app_le by (rewrite Hty; lia).
    destruct (decode_ascii_take (chunk_type c) (Nat.min 4 (n - 4)) s Hs) as [s' ->].
    match goal with
    | |- context [negb (?a =? 4)] =>
        destruct (Nat.eqb_spec a 4) as [Heq|_]; [|reflexivity]
    end.
    rewrite length_take, !length_drop, length_take, !length_app in Heq.
    rewrite Hty, Hcrc, <- Hdata in Heq. lia.
  - rewrite take_take. replace (Nat.min 4 n) with n by lia.
    destruct (take n (chunk_bytes c)) as [|b0 p] eqn:Hp.
    + apply (f_equal length) in Hp. rewrite length_take in Hp.
      unfold chunk_bytes in Hp. rewrite !length_app in Hp. cbn in Hp. lia.
    + destruct (decide (length (b0 :: p) = 4)) as [Heq|_]; [|reflexivity].
      rewrite <- Hp, length_take in Heq. lia.
Qed.

(** X23. [read_png] of [main.py] never returns on a file cut inside a
    chunk: after the signature and complete chunks with ASCII types, a
    non-empty proper prefix of one more such chunk makes it raise
    [struct.error]. *)
Theorem mainpy_cut_file_raises (zlib : bytes -> option bytes)
    (fs : string -> option bytes) (filename : string)
    (cs : list chunk) (c : chunk) (n : nat) :
  fs filename
  = Some (PNG_SIGNATURE ++ flat_map chunk_bytes cs ++ take n (chunk_bytes c)) ->
  Forall chunk_wf cs ->
  Forall (fun c => exists s, decode_ascii (chunk_type c) = Ok s) cs ->
  chunk_wf c ->
  (exists s, decode_ascii (chunk_type c) = Ok s) ->
  0 < n < length (chunk_bytes c) ->
  MainPy.read_png zlib fs filename = MainPy.Raises (MainPy.Raised StructError).
Proof.
  intros Hfs Hwf Hascii Hc [s Hs] Hn. unfold MainPy.read_png. rewrite Hfs. cbv zeta.
  rewrite (take_app_length' PNG_SIGNATURE) by reflexivity.
  rewrite (drop_app_length' PNG_SIGNATURE) by reflexivity.
  rewrite bool_decide_eq_true_2 by reflexivity. cbn [negb].
  rewrite (mainpy_read_chunks_all cs _ Hwf Hascii).
  now rewrite (mainpy_read_chunks_cut c n s _ Hc Hs Hn).
Qed.

(** Witness for X23: the data chunk cut after 20 of its 30 bytes. *)
Lemma mainpy_cut_file_raises_witness :
  MainPy.read_png sample_decompress
    (fun _ => Some (PNG_SIGNATURE ++ flat_map chunk_bytes [sample_ihdr 8 2]
                      ++ take 20 (chunk_bytes sample_idat)))
    "image.png"
  = MainPy.Raises (MainPy.Raised StructError).
Proof.
  refine (mainpy_cut_file_raises sample_decompress _ "image.png"
            [sample_ihdr 8 2] sample_idat 20 eq_refl _ _ _ _ _).
  - repeat constructor.
  - repeat constructor; eexists; reflexivity.
  - repeat constructor.
  - eexists; reflexivity.
  - vm_compute. lia.
Defined.

(** * The engine reads the rows and nothing else *)

Lemma slice_take (l : bytes) (a b n : nat) :
  b <= n -> slice (take n l) a b = slice l a b.
Proof.
  intros Hb. unfold slice. destruct (le_lt_dec a b) as [Hab|Hab].
  - rewrite !take_drop_commute, take_take.
    now replace (Nat.min (a + (b - a)) n) with (a + (b - a)) by lia.
  - replace (b - a) with 0 by lia. reflexivity.
Qed.

Lemma defilter_row_take (w : nat) (data : bytes) (n row : nat) (st : defilter_state) :
  (row + 1) * (w * 3 + 1) <= n ->
  defilter_row w (take n data) row st = defilter_row w data row st.
Proof.
  intros Hn. unfold defilter_row. cbv zeta.
  rewrite slice_take by exact Hn.
  replace (getitem (take n data) (row * (w * 3 + 1)))
    with (getitem data (row * (w * 3 + 1))); [reflexivity|].
  unfold getitem. rewrite lookup_take_lt by lia. reflexivity.
Qed.

Lemma defilter_rows_take (w : nat) (data : bytes) (n : nat) (rows : list nat) :
  (forall r, In r rows -> (r + 1) * (w * 3 + 1) <= n) ->
  forall st, defilter_rows w (take n data) rows st = defilter_rows w data rows st.
Proof.
  induction rows as [|r rows IH]; intros Hrows st; [reflexivity|].
  cbn [defilter_rows]. rewrite defilter_row_take by (apply Hrows; now left).
  destruct (defilter_row w data r st) as [out [st1|e]]; cbn [py_bind]; [|reflexivity].
  rewrite IH; [reflexivity|]. intros r' Hr'. apply Hrows. now right.
Qed.

(** X24. The engine reads the first [h * (1 + w * 3)] bytes of the stream
    and nothing after them: cutting the stream at any later point leaves
    the printed lines and the outcome as they are. *)
Theorem bytes_after_last_row_are_ignored (w h n : nat) (data : bytes) :
  h * (1 + w * 3) <= n ->
  apply_filters_to_data w h (take n data) = apply_filters_to_data w h data.
Proof.
  intros Hn. unfold apply_filters_to_data.
  rewrite defilter_rows_take; [reflexivity|].
  intros r Hr. apply in_range in Hr.
  assert ((r + 1) * (w * 3 + 1) <= h * (w * 3 + 1))
    by (apply Nat.mul_le_mono_r; lia).
  lia.
Qed.

(** Witness for X24: a 1x1 stream followed by two more bytes. *)
Lemma bytes_after_last_row_are_ignored_witness :
  apply_filters_to_data 1 1 (take 4 [1; 7; 8; 9; 42; 43]%Z)
  = apply_filters_to_data 1 1 [1; 7; 8; 9; 42; 43]%Z.
Proof.
  apply (bytes_after_last_row_are_ignored 1 1 4 [1; 7; 8; 9; 42; 43]%Z). cbn. lia.
Defined.

(** * The box walker of [src/python/main.py] *)

Lemma mp4_read_box_header_at (c : bytes) (p : nat) (sz ty tl : bytes) :
  drop p c = sz ++ ty ++ tl ->
  length sz = 4 -> length ty = 4 -> Mp4.utf8_valid ty = true ->
  Mp4.read_box_header {| Mp4.content := c; Mp4.position := p |}
  = ([], Mp4.Done ((Z.of_nat (unpack_be32 sz), ty),
                   {| Mp4.content := c; Mp4.position := p + 8 |})).
Proof.
  intros Hd Hs Ht Hv.
  assert (H1 : take 4 (drop p c) = sz).
  { rewrite Hd. apply take_app_length'. symmetry. exact Hs. }
  assert (H2 : take 4 (drop (p + 4) c) = ty).
  { rewrite <- drop_drop, Hd. rewrite drop_app_length' by (symmetry; exact Hs).
    apply take_app_length'. symmetry. exact Ht. }
  unfold Mp4.read_box_header, Mp4.read_uint32, Mp4.bind, Mp4.read.
  cbn [Mp4.content Mp4.position]. rewrite H1, Hs.
  cbn [Nat.eqb Mp4.ret app Mp4.content Mp4.position]. rewrite H2.
  unfold Mp4.decode_utf8. rewrite Hv. cbn [Mp4.ret app]. rewrite Ht.
  replace (p + 4 + 4) with (p + 8) by lia. reflexivity.
Qed.

Lemma mp4_seek_forward (c : bytes) (p : nat) (size : nat) :
  Mp4.seek_cur (Z.of_nat size - 8) {| Mp4.content := c; Mp4.position := p + 8 |}
  = ([], Mp4.Done (tt, {| Mp4.content := c; Mp4.position := p + size |})).
Proof.
  unfold Mp4.seek_cur. cbn [Mp4.position Mp4.content].
  destruct (Z.ltb_spec (Z.of_nat (p + 8) + (Z.of_nat size - 8)) 0) as [H|H]; [lia|].
  replace (Z.to_nat (Z.of_nat (p + 8) + (Z.of_nat size - 8))) with (p + size) by lia.
  reflexivity.
Qed.

Lemma mp4_is_type_tag (ty : bytes) (name : string) :
  Mp4.is_type ty name = true <-> ty = Mp4.tag name.
Proof. unfold Mp4.is_type. apply bool_decide_eq_true. Qed.

(** One turn of the top-level loop over a box it skips. *)
Lemma mp4_top_level_box_skips (fuel : nat) (c : bytes) (p : nat) (b : box) (tl : bytes) :
  drop p c = box_size b ++ box_type b ++ tl ->
  skippable b ->
  Mp4.top_level_box fuel {| Mp4.content := c; Mp4.position := p |}
  = (skipped_box_lines b,
     Mp4.Done (tt, {| Mp4.content := c;
                      Mp4.position := p + unpack_be32 (box_size b) |})).
Proof.
  intros Hd (Hs & Ht & Hv & Hm).
  unfold Mp4.top_level_box, Mp4.bind at 1.
  rewrite (mp4_read_box_header_at c p _ _ tl Hd Hs Ht Hv).
  unfold skipped_box_lines, Mp4.bind, Mp4.say.
  destruct (Mp4.is_type (box_type b) "ftyp") eqn:Ef.
  { rewrite mp4_seek_forward. reflexivity. }
  destruct (Mp4.is_type (box_type b) "moov") eqn:Em.
  { apply mp4_is_type_tag in Em. contradiction. }
  destruct (Mp4.is_type (box_type b) "mdat") eqn:Ed;
    rewrite mp4_seek_forward; reflexivity.
Qed.

(** At the end of the file, or with fewer than four bytes left, the loop
    ends without a line. *)
Lemma mp4_top_level_loop_end (fuel loops : nat) (c : bytes) (p : nat) :
  length (drop p c) < 4 -> 0 < loops ->
  Mp4.top_level_loop fuel loops {| Mp4.content := c; Mp4.position := p |}
  = ([], Mp4.Done tt).
Proof.
  intros Hl Hp. destruct loops as [|loops]; [lia|].
  cbn [Mp4.top_level_loop].
  unfold Mp4.top_level_box, Mp4.read_box_header, Mp4.read_uint32, Mp4.bind at 1 2 3.
  unfold Mp4.read at 1. cbn [Mp4.content Mp4.position].
  rewrite take_ge by lia.
  destruct (Nat.eqb_spec (length (drop p c)) 4) as [E|E]; [lia|].
  reflexivity.
Qed.

Lemma drop_past (c : bytes) (p : nat) (a tl : bytes) :
  drop p c = a ++ tl -> drop (p + length a) c = tl.
Proof. intros H. rewrite <- drop_drop, H. apply drop_app_length. Qed.

Lemma mp4_read_uint32_at (c : bytes) (p : nat) (b tl : bytes) :
  drop p c = b ++ tl -> length b = 4 ->
  Mp4.read_uint32 {| Mp4.content := c; Mp4.position := p |}
  = ([], Mp4.Done (Z.of_nat (unpack_be32 b),
                   {| Mp4.content := c; Mp4.position := p + 4 |})).
Proof.
  intros Hd Hb.
  assert (H1 : take 4 (drop p c) = b).
  { rewrite Hd. apply take_app_length'. symmetry. exact Hb. }
  unfold Mp4.read_uint32, Mp4.bind, Mp4.read.
  cbn [Mp4.content Mp4.position]. rewrite H1, Hb. reflexivity.
Qed.

(** A [while] loop over a sequence of items, each of which one turn of
    the loop passes. *)
Lemma mp4_while_before_items {X : Type} (enc : X -> bytes)
    (out : X -> list Mp4.message) (body : Mp4.M unit) (xs : list X) :
  (forall x, In x xs ->
     0 < length (enc x)
     /\ forall c p tl, drop p c = enc x ++ tl ->
          body {| Mp4.content := c; Mp4.position := p |}
          = (out x, Mp4.Done (tt, {| Mp4.content := c;
                                     Mp4.position := p + length (enc x) |}))) ->
  forall fuel c p tl,
    drop p c = concat (map enc xs) ++ tl ->
    length xs < fuel ->
    Mp4.while_before fuel (Z.of_nat (p + length (concat (map enc xs)))) body
      {| Mp4.content := c; Mp4.position := p |}
    = (concat (map out xs),
       Mp4.Done (tt, {| Mp4.content := c;
                        Mp4.position := p + length (concat (map enc xs)) |})).
Proof.
  induction xs as [|x xs IH]; intros Hstep fuel c p tl Hd Hf.
  - destruct fuel as [|fuel]; [cbn in Hf; lia|].
    cbn [Mp4.while_before map concat length].
    unfold Mp4.bind, Mp4.tell. cbn [Mp4.position].
    rewrite Nat.add_0_r, Z.ltb_irrefl. reflexivity.
  - destruct fuel as [|fuel]; [cbn in Hf; lia|].
    destruct (Hstep x (or_introl eq_refl)) as [Hpos Hx].
    cbn [map concat] in Hd |- *. rewrite <- app_assoc in Hd.
    cbn [Mp4.while_before]. unfold Mp4.bind at 1, Mp4.tell. cbn [Mp4.position].
    rewrite length_app.
    destruct (Z.ltb_spec (Z.of_nat p)
                (Z.of_nat (p + (length (enc x) + length (concat (map enc xs))))))
      as [Hlt|Hge]; [|lia].
    unfold Mp4.bind. rewrite (Hx c p _ Hd).
    replace (p + (length (enc x) + length (concat (map enc xs))))
      with (p + length (enc x) + length (concat (map enc xs))) by lia.
    rewrite (IH (fun y Hy => Hstep y (or_intror Hy)) fuel c (p + length (enc x)) tl
               (drop_past c p _ _ Hd)) by (cbn in Hf; lia).
    reflexivity.
Qed.

(** A box one turn of a loop reads the header of and steps over. *)
Ltac mp4_skip_box Hd Hs Ht Hv :=
  unfold Mp4.bind at 1;
  rewrite (mp4_read_box_header_at _ _ _ _ _ Hd Hs Ht Hv);
  unfold Mp4.bind, Mp4.say;
  repeat match goal with
         | |- context [Mp4.is_type ?t ?n] =>
             let E := fresh "E" in
             destruct (Mp4.is_type t n) eqn:E;
             [try (apply mp4_is_type_tag in E; exfalso;
                   match goal with
                   | H : ~ In _ _ |- _ => apply H; rewrite E; cbn; tauto
                   end)|]
         end;
  cbn [orb]; rewrite ?mp4_seek_forward; try reflexivity.

Lemma box_wf_length (b : box) :
  box_wf b -> length (box_bytes b) = unpack_be32 (box_size b).
Proof.
  intros (Hs & Ht & Hu). unfold box_bytes. rewrite !length_app. lia.
Qed.

Lemma mp4_stsd_entry_at (c : bytes) (p : nat) (e : box) (tl : bytes) :
  drop p c = box_bytes e ++ tl -> entry_wf e ->
  Mp4.stsd_entry {| Mp4.content := c; Mp4.position := p |}
  = ([entry_line e],
     Mp4.Done (tt, {| Mp4.content := c;
                      Mp4.position := p + length (box_bytes e) |})).
Proof.
  intros Hd [Hwf Hv]. rewrite (box_wf_length e Hwf).
  destruct Hwf as (Hs & Ht & Hu).
  unfold box_bytes in Hd. rewrite <- !app_assoc in Hd.
  unfold Mp4.stsd_entry, entry_line.
  mp4_skip_box Hd Hs Ht Hv.
Qed.

Lemma mp4_repeat_times_entries (es : list box) :
  Forall entry_wf es ->
  forall c p tl,
    drop p c = concat (map box_bytes es) ++ tl ->
    Mp4.repeat_times (length es) Mp4.stsd_entry
      {| Mp4.content := c; Mp4.position := p |}
    = (map entry_line es,
       Mp4.Done (tt, {| Mp4.content := c;
                        Mp4.position := p + length (concat (map box_bytes es)) |})).
Proof.
  induction 1 as [|e es He Hes IH]; intros c p tl Hd.
  - cbn. rewrite Nat.add_0_r. reflexivity.
  - cbn [map concat length Mp4.repeat_times] in Hd |- *.
    rewrite <- app_assoc in Hd.
    unfold Mp4.bind. rewrite (mp4_stsd_entry_at c p e _ Hd He).
    rewrite (IH c _ tl (drop_past c p _ _ Hd)).
    rewrite length_app, Nat.add_assoc. reflexivity.
Qed.

Lemma mp4_parse_stsd_at (c : bytes) (p : nat) (stsd_size : Z)
    (flags entry_count : bytes) (es : list box) (tl : bytes) :
  drop p c = flags ++ entry_count ++ concat (map box_bytes es) ++ tl ->
  length flags = 4 -> length entry_count = 4 ->
  unpack_be32 entry_count = length es ->
  Forall entry_wf es ->
  Mp4.parse_stsd stsd_size {| Mp4.content := c; Mp4.position := p |}
  = (Mp4.EntryCount (Z.of_nat (unpack_be32 entry_count)) :: map entry_line es,
     Mp4.Done (tt, {| Mp4.content := c;
                      Mp4.position := p + 8 + length (concat (map box_bytes es)) |})).
Proof.
  intros Hd Hf Hc Hn Hes.
  pose proof (drop_past c p _ _ Hd) as Hd1. rewrite Hf in Hd1.
  pose proof (drop_past c (p + 4) _ _ Hd1) as Hd2. rewrite Hc in Hd2.
  unfold Mp4.parse_stsd, Mp4.bind at 1 2, Mp4.tell, Mp4.seek_cur.
  cbn [Mp4.position Mp4.content].
  destruct (Z.ltb_spec (Z.of_nat p + 4) 0) as [H|H]; [lia|].
  replace (Z.to_nat (Z.of_nat p + 4)) with (p + 4) by lia.
  unfold Mp4.bind at 1. rewrite (mp4_read_uint32_at c (p + 4) _ _ Hd1 Hc).
  unfold Mp4.bind, Mp4.say. rewrite Nat2Z.id, Hn.
  replace (p + 4 + 4) with (p + 8) in * by lia.
  rewrite (mp4_repeat_times_entries es Hes c (p + 8) tl Hd2). reflexivity.
Qed.

Lemma boxes_positive (it : item) : 1 <= boxes it.
Proof. destruct it; cbn; lia. Qed.

Lemma length_le_boxes (cs : list item) : length cs <= list_sum (map boxes cs).
Proof.
  induction cs as [|x cs IH]; [cbn; lia|].
  cbn [map length]. rewrite list_sum_cons. pose proof (boxes_positive x). lia.
Qed.

Lemma boxes_le_sum (x : item) (cs : list item) :
  In x cs -> boxes x <= list_sum (map boxes cs).
Proof.
  induction cs as [|y cs IH]; [intros []|].
  cbn [map]. rewrite list_sum_cons. intros [->|H]; [lia|]. apply IH in H. lia.
Qed.

Lemma item_bytes_positive (level : nat) (it : item) :
  item_wf level it -> 0 < length (item_bytes it).
Proof.
  intros H. inversion H; subst; cbn [item_bytes]; unfold box_bytes;
    rewrite ?length_app; try lia.
  destruct H1 as (Hs & _). lia.
Qed.

(** One turn of the loop of [parse_stbl]. *)
Lemma mp4_stbl_box_at (c : bytes) (p : nat) (it : item) (tl : bytes) :
  item_wf 5 it ->
  drop p c = item_bytes it ++ tl ->
  Mp4.stbl_box {| Mp4.content := c; Mp4.position := p |}
  = (item_lines 5 it,
     Mp4.Done (tt, {| Mp4.content := c;
                      Mp4.position := p + length (item_bytes it) |})).
Proof.
  intros Hwf Hd. inversion Hwf; subst; cbn [item_bytes item_lines found] in *.
  - rewrite (box_wf_length b) by assumption.
    match goal with H : box_wf b |- _ => destruct H as (Hs & Ht & Hu) end.
    unfold box_bytes in Hd. rewrite <- !app_assoc in Hd.
    unfold Mp4.stbl_box. mp4_skip_box Hd Hs Ht H1.
  - discriminate.
  - rewrite <- !app_assoc in Hd.
    unfold Mp4.stbl_box, Mp4.bind at 1.
    rewrite (mp4_read_box_header_at c p _ _ _ Hd) by (assumption || reflexivity).
    unfold Mp4.bind at 1, Mp4.say.
    assert (Hd8 : drop (p + 8) c
                  = flags ++ entry_count ++ concat (map box_bytes entries) ++ tl).
    { assert (Hsz : length size = 4) by assumption.
      pose proof (drop_past c p _ _ Hd) as Hd4.
      pose proof (drop_past c _ _ _ Hd4) as Hd8.
      rewrite <- Hd8. f_equal. rewrite Hsz. cbn. lia. }
    cbn [Mp4.is_type]. unfold Mp4.bind.
    replace (Mp4.is_type (Mp4.tag "stsd") "stsd") with true by reflexivity.
    rewrite (mp4_parse_stsd_at c (p + 8) _ flags entry_count entries tl Hd8)
      by assumption.
    rewrite !length_app. cbn [app].
    replace (p + 8 + 8 + length (concat (map box_bytes entries)))
      with (p + (length size + (length (Mp4.tag "stsd")
                 + (length flags + (length entry_count
                    + length (concat (map box_bytes entries)))))))
      by (cbn [length Mp4.tag]; cbn; lia).
    reflexivity.
Qed.

(** A loop of the form [end_position = tell() + size; while tell() <
    end_position: body] over the items of a container. *)
Lemma mp4_parse_items (level : nat) (body : Mp4.M unit) (fuel : nat)
    (cs : list item) :
  Forall (item_wf level) cs ->
  (forall x, In x cs ->
     forall c p tl, drop p c = item_bytes x ++ tl ->
       body {| Mp4.content := c; Mp4.position := p |}
       = (item_lines level x,
          Mp4.Done (tt, {| Mp4.content := c;
                           Mp4.position := p + length (item_bytes x) |}))) ->
  length cs < fuel ->
  forall c p tl,
    drop p c = concat (map item_bytes cs) ++ tl ->
    Mp4.bind Mp4.tell
      (fun pos =>
         Mp4.while_before fuel
           (pos + Z.of_nat (length (concat (map item_bytes cs)))) body)
      {| Mp4.content := c; Mp4.position := p |}
    = (concat (map (item_lines level) cs),
       Mp4.Done (tt, {| Mp4.content := c;
                        Mp4.position := p + length (concat (map item_bytes cs)) |})).
Proof.
  intros Hwf Hstep Hf c p tl Hd.
  unfold Mp4.bind, Mp4.tell. cbn [Mp4.position].
  rewrite <- Nat2Z.inj_add.
  rewrite (mp4_while_before_items item_bytes (item_lines level) body cs)
    with (tl := tl); [reflexivity| |exact Hd|exact Hf].
  intros x Hx. split.
  - apply (item_bytes_positive level). rewrite Forall_forall in Hwf. apply Hwf.
    apply list_elem_of_In. exact Hx.
  - intros c' p' tl'. apply Hstep. exact Hx.
Qed.

Lemma mp4_parse_stbl_at (fuel : nat) (cs : list item) :
  Forall (item_wf 5) cs ->
  length cs < fuel ->
  forall c p tl,
    drop p c = concat (map item_bytes cs) ++ tl ->
    Mp4.parse_stbl fuel (Z.of_nat (length (concat (map item_bytes cs))))
      {| Mp4.content := c; Mp4.position := p |}
    = (concat (map (item_lines 5) cs),
       Mp4.Done (tt, {| Mp4.content := c;
                        Mp4.position := p + length (concat (map item_bytes cs)) |})).
Proof.
  intros Hwf Hf. apply (mp4_parse_items 5 Mp4.stbl_box fuel cs Hwf); [|exact Hf].
  intros x Hx c p tl Hd. apply (mp4_stbl_box_at c p x tl); [|exact Hd].
  rewrite Forall_forall in Hwf. apply Hwf, list_elem_of_In, Hx.
Qed.

Ltac mp4_decide_types :=
  repeat match goal with
         | |- context [Mp4.is_type (Mp4.tag ?a) ?n] =>
             let v := eval vm_compute in (Mp4.is_type (Mp4.tag a) n) in
             change (Mp4.is_type (Mp4.tag a) n) with v
         end.

(** What a loop body does with the container box of its level, given
    what the loop one level down does with the children. *)
Ltac mp4_enter_container Hd Hsz Hu Hinner :=
  rewrite <- !app_assoc in Hd;
  unfold Mp4.bind at 1;
  rewrite (mp4_read_box_header_at _ _ _ _ _ Hd Hsz eq_refl eq_refl);
  unfold Mp4.bind at 1, Mp4.say; mp4_decide_types; cbn [orb];
  rewrite Hu;
  match goal with
  | |- context [(Z.of_nat (8 + ?n) - 8)%Z] =>
      replace (Z.of_nat (8 + n) - 8)%Z with (Z.of_nat n) by lia
  end;
  let Hd4 := fresh "Hd4" in
  let Hd8 := fresh "Hd8" in
  pose proof (drop_past _ _ _ _ Hd) as Hd4;
  pose proof (drop_past _ _ _ _ Hd4) as Hd8;
  rewrite Hsz in Hd8;
  change (length (Mp4.tag _)) with 4 in Hd8;
  rewrite <- Nat.add_assoc in Hd8; change (4 + 4) with 8 in Hd8;
  rewrite (Hinner _ _ _ Hd8);
  rewrite !length_app, Hsz; change (length (Mp4.tag _)) with 4;
  cbn [app];
  match goal with
  | |- context [?p + 8 + ?n] =>
      replace (p + 8 + n) with (p + (4 + (4 + n))) by lia
  end;
  reflexivity.

(** One turn of the loop of [parse_minf]. *)
Lemma mp4_minf_box_at (fuel : nat) (c : bytes) (p : nat) (it : item) (tl : bytes) :
  item_wf 4 it ->
  boxes it <= fuel ->
  drop p c = item_bytes it ++ tl ->
  Mp4.minf_box fuel {| Mp4.content := c; Mp4.position := p |}
  = (item_lines 4 it,
     Mp4.Done (tt, {| Mp4.content := c;
                      Mp4.position := p + length (item_bytes it) |})).
Proof.
  intros Hwf Hfuel Hd.
  inversion Hwf; subst; cbn [item_bytes item_lines found boxes] in *.
  - rewrite (box_wf_length b) by assumption.
    match goal with H : box_wf b |- _ => destruct H as (Hs & Ht & Hu) end.
    unfold box_bytes in Hd. rewrite <- !app_assoc in Hd.
    unfold Mp4.minf_box. mp4_skip_box Hd Hs Ht H1.
  - assert (Hsz : length size = 4) by assumption.
    assert (Hu : unpack_be32 size = 8 + length (concat (map item_bytes children)))
      by assumption.
    assert (Hcs : Forall (item_wf 5) children) by assumption.
    match goal with H : container_type _ = Some _ |- _ =>
      unfold container_type in H; injection H as <- end.
    pose proof (length_le_boxes children) as Hlen.
    unfold Mp4.minf_box.
    mp4_enter_container Hd Hsz Hu
      (mp4_parse_stbl_at fuel children Hcs ltac:(lia)).
Qed.

Ltac mp4_loop_of_items level body step :=
  let Hwf := fresh "Hwf" in
  let Hf := fresh "Hf" in
  intros Hwf Hf;
  match type of Hwf with
  | Forall _ ?cs => apply (mp4_parse_items level body _ cs Hwf)
  end;
  [|match goal with
    | |- length ?cs < _ => pose proof (length_le_boxes cs); lia
    end];
  let x := fresh "x" in
  let Hx := fresh "Hx" in
  let Hd := fresh "Hd" in
  intros x Hx c p tl Hd; eapply step;
  [rewrite Forall_forall in Hwf; apply Hwf, list_elem_of_In, Hx
  |pose proof (boxes_le_sum _ _ Hx); lia
  |exact Hd].

Lemma mp4_parse_minf_at (fuel : nat) (cs : list item) :
  Forall (item_wf 4) cs ->
  list_sum (map boxes cs) < fuel ->
  forall c p tl,
    drop p c = concat (map item_bytes cs) ++ tl ->
    Mp4.parse_minf fuel (Z.of_nat (length (concat (map item_bytes cs))))
      {| Mp4.content := c; Mp4.position := p |}
    = (concat (map (item_lines 4) cs),
       Mp4.Done (tt, {| Mp4.content := c;
                        Mp4.position := p + length (concat (map item_bytes cs)) |})).
Proof. mp4_loop_of_items 4 (Mp4.minf_box fuel) mp4_minf_box_at. Qed.

Lemma mp4_seek_past_handler (c : bytes) (p : nat) (size : nat) :
  Mp4.seek_cur (Z.of_nat size - 12) {| Mp4.content := c; Mp4.position := p + 12 |}
  = ([], Mp4.Done (tt, {| Mp4.content := c; Mp4.position := p + size |})).
Proof.
  unfold Mp4.seek_cur. cbn [Mp4.position Mp4.content].
  destruct (Z.ltb_spec (Z.of_nat (p + 12) + (Z.of_nat size - 12)) 0) as [H|H]; [lia|].
  replace (Z.to_nat (Z.of_nat (p + 12) + (Z.of_nat size - 12))) with (p + size) by lia.
  reflexivity.
Qed.

Ltac mp4_container_case Hwf Hd inner :=
  let Hsz := fresh "Hsz" in
  let Hu := fresh "Hu" in
  let Hcs := fresh "Hcs" in
  let Hlen := fresh "Hlen" in
  match type of Hwf with
  | item_wf ?level (Container ?size _ ?children) =>
      assert (Hsz : length size = 4) by assumption;
      assert (Hu : unpack_be32 size = 8 + length (concat (map item_bytes children)))
        by assumption;
      assert (Hcs : Forall (item_wf (S level)) children) by assumption;
      match goal with H : container_type _ = Some _ |- _ =>
        unfold container_type in H; injection H as <- end;
      pose proof (length_le_boxes children) as Hlen;
      mp4_enter_container Hd Hsz Hu (inner children Hcs ltac:(lia))
  end.

Ltac mp4_leaf_case b Hd :=
  rewrite (box_wf_length b) by assumption;
  let Hs := fresh "Hs" in
  let Ht := fresh "Ht" in
  let Hu := fresh "Hu" in
  let Hv := fresh "Hv" in
  assert (Hv : Mp4.utf8_valid (box_type b) = true) by assumption;
  match goal with H : box_wf b |- _ => destruct H as (Hs & Ht & Hu) end;
  unfold box_bytes in Hd; rewrite <- !app_assoc in Hd;
  mp4_skip_box Hd Hs Ht Hv.

(** One turn of the loop of [parse_mdia]. *)
Lemma mp4_mdia_box_at (fuel : nat) (c : bytes) (p : nat) (it : item) (tl : bytes) :
  item_wf 3 it ->
  boxes it <= fuel ->
  drop p c = item_bytes it ++ tl ->
  Mp4.mdia_box fuel {| Mp4.content := c; Mp4.position := p |}
  = (item_lines 3 it,
     Mp4.Done (tt, {| Mp4.content := c;
                      Mp4.position := p + length (item_bytes it) |})).
Proof.
  intros Hwf Hfuel Hd.
  inversion Hwf; subst; cbn [item_bytes item_lines found boxes] in *;
    unfold Mp4.mdia_box.
  - mp4_leaf_case b Hd.
  - mp4_container_case Hwf Hd (mp4_parse_minf_at fuel).
  - assert (Hsz : length size = 4) by assumption.
    assert (Hh : length handler_type = 4) by assumption.
    assert (Hu : unpack_be32 size = 12 + length rest) by assumption.
    assert (Hv : Mp4.utf8_valid handler_type = true) by assumption.
    rewrite <- !app_assoc in Hd.
    unfold Mp4.bind at 1.
    rewrite (mp4_read_box_header_at _ _ _ _ _ Hd Hsz eq_refl eq_refl).
    unfold Mp4.bind at 1, Mp4.say. mp4_decide_types.
    pose proof (drop_past _ _ _ _ Hd) as Hd4.
    pose proof (drop_past _ _ _ _ Hd4) as Hd8.
    rewrite Hsz in Hd8. change (length (Mp4.tag _)) with 4 in Hd8.
    rewrite <- Nat.add_assoc in Hd8. change (4 + 4) with 8 in Hd8.
    assert (Hr : take 4 (drop (p + 8) c) = handler_type).
    { rewrite Hd8. apply take_app_length'. symmetry. exact Hh. }
    unfold Mp4.bind at 1, Mp4.read. cbn [Mp4.content Mp4.position].
    rewrite Hr, Hh. unfold Mp4.bind at 1, Mp4.decode_utf8. rewrite Hv.
    unfold Mp4.bind, Mp4.ret.
    replace (p + 8 + 4) with (p + 12) by lia.
    rewrite mp4_seek_past_handler.
    rewrite !length_app, Hsz, Hh, Hu. change (length (Mp4.tag _)) with 4.
    cbn [app].
    replace (p + (12 + length rest)) with (p + (4 + (4 + (4 + length rest)))) by lia.
    reflexivity.
Qed.

Lemma mp4_parse_mdia_at (fuel : nat) (cs : list item) :
  Forall (item_wf 3) cs ->
  list_sum (map boxes cs) < fuel ->
  forall c p tl,
    drop p c = concat (map item_bytes cs) ++ tl ->
    Mp4.parse_mdia fuel (Z.of_nat (length (concat (map item_bytes cs))))
      {| Mp4.content := c; Mp4.position := p |}
    = (concat (map (item_lines 3) cs),
       Mp4.Done (tt, {| Mp4.content := c;
                        Mp4.position := p + length (concat (map item_bytes cs)) |})).
Proof. mp4_loop_of_items 3 (Mp4.mdia_box fuel) mp4_mdia_box_at. Qed.

(** One turn of the loop of [parse_trak]. *)
Lemma mp4_trak_box_at (fuel : nat) (c : bytes) (p : nat) (it : item) (tl : bytes) :
  item_wf 2 it ->
  boxes it <= fuel ->
  drop p c = item_bytes it ++ tl ->
  Mp4.trak_box fuel {| Mp4.content := c; Mp4.position := p |}
  = (item_lines 2 it,
     Mp4.Done (tt, {| Mp4.content := c;
                      Mp4.position := p + length (item_bytes it) |})).
Proof.
  intros Hwf Hfuel Hd.
  inversion Hwf; subst; cbn [item_bytes item_lines found boxes] in *;
    unfold Mp4.trak_box.
  - mp4_leaf_case b Hd.
  - mp4_container_case Hwf Hd (mp4_parse_mdia_at fuel).
Qed.

Lemma mp4_parse_trak_at (fuel : nat) (cs : list item) :
  Forall (item_wf 2) cs ->
  list_sum (map boxes cs) < fuel ->
  forall c p tl,
    drop p c = concat (map item_bytes cs) ++ tl ->
    Mp4.parse_trak fuel (Z.of_nat (length (concat (map item_bytes cs))))
      {| Mp4.content := c; Mp4.position := p |}
    = (concat (map (item_lines 2) cs),
       Mp4.Done (tt, {| Mp4.content := c;
                        Mp4.position := p + length (concat (map item_bytes cs)) |})).
Proof. mp4_loop_of_items 2 (Mp4.trak_box fuel) mp4_trak_box_at. Qed.

(** One turn of the loop of [parse_moov]. *)
Lemma mp4_moov_box_at (fuel : nat) (c : bytes) (p : nat) (it : item) (tl : bytes) :
  item_wf 1 it ->
  boxes it <= fuel ->
  drop p c = item_bytes it ++ tl ->
  Mp4.moov_box fuel {| Mp4.content := c; Mp4.position := p |}
  = (item_lines 1 it,
     Mp4.Done (tt, {| Mp4.content := c;
                      Mp4.position := p + length (item_bytes it) |})).
Proof.
  intros Hwf Hfuel Hd.
  inversion Hwf; subst; cbn [item_bytes item_lines found boxes] in *;
    unfold Mp4.moov_box.
  - mp4_leaf_case b Hd.
  - mp4_container_case Hwf Hd (mp4_parse_trak_at fuel).
Qed.

Lemma mp4_parse_moov_at (fuel : nat) (cs : list item) :
  Forall (item_wf 1) cs ->
  list_sum (map boxes cs) < fuel ->
  forall c p tl,
    drop p c = concat (map item_bytes cs) ++ tl ->
    Mp4.parse_moov fuel (Z.of_nat (length (concat (map item_bytes cs))))
      {| Mp4.content := c; Mp4.position := p |}
    = (concat (map (item_lines 1) cs),
       Mp4.Done (tt, {| Mp4.content := c;
                        Mp4.position := p + length (concat (map item_bytes cs)) |})).
Proof. mp4_loop_of_items 1 (Mp4.moov_box fuel) mp4_moov_box_at. Qed.

Lemma leaf_is_skippable (b : box) : item_wf 0 (Leaf b) -> skippable b.
Proof.
  intros H. inversion H; subst.
  match goal with H : box_wf b |- _ => destruct H as (Hs & Ht & Hu) end.
  repeat split; try assumption.
  intros E. match goal with H : ~ In _ _ |- _ => apply H end.
  left. symmetry. exact E.
Qed.

(** One turn of the loop of [parse_mp4]. *)
Lemma mp4_top_level_box_at (fuel : nat) (c : bytes) (p : nat) (it : item) (tl : bytes) :
  item_wf 0 it ->
  boxes it <= fuel ->
  drop p c = item_bytes it ++ tl ->
  Mp4.top_level_box fuel {| Mp4.content := c; Mp4.position := p |}
  = (item_lines 0 it,
     Mp4.Done (tt, {| Mp4.content := c;
                      Mp4.position := p + length (item_bytes it) |})).
Proof.
  intros Hwf Hfuel Hd.
  inversion Hwf; subst; cbn [item_bytes item_lines found boxes] in *.
  - rewrite (box_wf_length b) by assumption.
    unfold box_bytes in Hd. rewrite <- !app_assoc in Hd.
    apply (mp4_top_level_box_skips fuel c p b _ Hd), leaf_is_skippable, Hwf.
  - unfold Mp4.top_level_box.
    mp4_container_case Hwf Hd (mp4_parse_moov_at fuel).
Qed.

(** The loop of [parse_mp4] over the items at the start of what is left
    of the file. *)
Lemma mp4_top_level_loop_items (fuel : nat) (items : list item) :
  Forall (item_wf 0) items ->
  list_sum (map boxes items) <= fuel ->
  forall loops c p tl,
    drop p c = concat (map item_bytes items) ++ tl ->
    Mp4.top_level_loop fuel (length items + loops)
      {| Mp4.content := c; Mp4.position := p |}
    = (let '(out, r) :=
         Mp4.top_level_loop fuel loops
           {| Mp4.content := c;
              Mp4.position := p + length (concat (map item_bytes items)) |} in
       (concat (map (item_lines 0) items) ++ out, r)).
Proof.
  induction 1 as [|it items Hit Hitems IH]; intros Hf loops c p tl Hd.
  - cbn [map concat length app Nat.add]. rewrite Nat.add_0_r.
    destruct (Mp4.top_level_loop fuel loops _). reflexivity.
  - cbn [map concat length Nat.add] in Hd |- *. rewrite <- app_assoc in Hd.
    cbn [map] in Hf. rewrite list_sum_cons in Hf.
    cbn [Mp4.top_level_loop].
    rewrite (mp4_top_level_box_at fuel c p it _ Hit ltac:(lia) Hd).
    rewrite (IH ltac:(lia) loops c _ tl (drop_past c p _ _ Hd)).
    rewrite length_app, Nat.add_assoc.
    destruct (Mp4.top_level_loop fuel loops _). rewrite app_assoc. reflexivity.
Qed.

Ltac mp4_sample_wf :=
  repeat match goal with
         | |- Forall _ _ => constructor
         | |- item_wf _ (Leaf _) => apply leaf_wf
         | |- item_wf _ (Container _ _ _) => apply container_wf
         | |- item_wf _ (Handler _ _ _ _) => apply handler_wf
         | |- item_wf _ (Descriptions _ _ _ _ _) => apply descriptions_wf
         | |- box_wf _ => repeat split
         | |- entry_wf _ => split
         | |- _ = _ => reflexivity
         | |- _ <= _ => cbn; lia
         | |- ~ In _ _ => vm_compute; intuition discriminate
         end.

Lemma sample_movie_wf : Forall (item_wf 0) sample_movie.
Proof.
  unfold sample_movie, sample_moov, sample_mdia, sample_stsd, sample_ftyp.
  mp4_sample_wf.
Qed.

(** A file of well-formed boxes is walked to its end: the walker prints
    the line of every box once, parents before children and in file
    order, descends into ['moov'], ['trak'], ['mdia'], ['minf'], ['stbl']
    and ['stsd'], and ends without an error line. *)
Theorem well_formed_file_is_walked (fuel : nat) (items : list item) :
  Forall (item_wf 0) items ->
  list_sum (map boxes items) < fuel ->
  Mp4.parse_mp4 fuel (concat (map item_bytes items))
  = (concat (map (item_lines 0) items), Mp4.Done tt).
Proof.
  intros Hwf Hf. unfold Mp4.parse_mp4.
  pose proof (length_le_boxes items) as Hlen.
  replace fuel with (length items + (fuel - length items)) at 2 by lia.
  rewrite (mp4_top_level_loop_items fuel items Hwf ltac:(lia) _ _ 0 [])
    by (rewrite app_nil_r; reflexivity).
  rewrite mp4_top_level_loop_end.
  - rewrite app_nil_r. reflexivity.
  - cbn [Nat.add]. rewrite drop_all. cbn. lia.
  - lia.
Qed.

Lemma well_formed_file_is_walked_witness :
  Mp4.parse_mp4 12 (concat (map item_bytes sample_movie))
  = (concat (map (item_lines 0) sample_movie), Mp4.Done tt).
Proof.
  apply well_formed_file_is_walked; [exact sample_movie_wf | vm_compute; lia].
Defined.

(** The payload of the last box may stop short of what its size field
    announces, or be missing altogether: [seek] moves past the end of the
    file, the next read finds nothing, and the walk ends as it does for
    the complete file, without an error line. *)
Theorem truncated_last_box_is_accepted (fuel : nat) (items : list item)
    (b : box) (n : nat) :
  Forall (item_wf 0) items ->
  item_wf 0 (Leaf b) ->
  S (list_sum (map boxes items)) < fuel ->
  Mp4.parse_mp4 fuel
    (concat (map item_bytes items)
     ++ box_size b ++ box_type b ++ take n (box_payload b))
  = (concat (map (item_lines 0) (items ++ [Leaf b])), Mp4.Done tt).
Proof.
  intros Hwf Hb Hf. unfold Mp4.parse_mp4.
  pose proof (length_le_boxes items) as Hlen.
  set (c := concat (map item_bytes items)
            ++ box_size b ++ box_type b ++ take n (box_payload b)).
  replace fuel with (length items + S (fuel - length items - 1)) at 2 by lia.
  rewrite (mp4_top_level_loop_items fuel items Hwf ltac:(lia) _ c 0
             (box_size b ++ box_type b ++ take n (box_payload b)) eq_refl).
  cbn [Nat.add Mp4.top_level_loop].
  assert (Hd : drop (length (concat (map item_bytes items))) c
               = box_size b ++ box_type b ++ take n (box_payload b)).
  { unfold c. apply drop_app_length. }
  rewrite (mp4_top_level_box_skips fuel c _ b _ Hd (leaf_is_skippable b Hb)).
  rewrite mp4_top_level_loop_end.
  - rewrite map_app, concat_app. cbn [map concat item_lines].
    rewrite !app_nil_r. reflexivity.
  - inversion Hb; subst.
    match goal with H : box_wf b |- _ => destruct H as (Hs & Ht & Hu) end.
    rewrite length_drop. unfold c. rewrite !length_app, length_take. lia.
  - lia.
Qed.

Lemma truncated_last_box_is_accepted_witness :
  Mp4.parse_mp4 13
    (concat (map item_bytes sample_movie)
     ++ box_size sample_mdat ++ box_type sample_mdat
     ++ take 1 (box_payload sample_mdat))
  = (concat (map (item_lines 0) (sample_movie ++ [Leaf sample_mdat])),
     Mp4.Done tt).
Proof.
  apply truncated_last_box_is_accepted;
    [exact sample_movie_wf | unfold sample_mdat; mp4_sample_wf | vm_compute; lia].
Defined.

(** A box whose type is not well-formed UTF-8 ends the walk: the boxes
    before it are listed, one error line follows, and nothing after it is
    looked at. *)
Theorem undecodable_type_ends_walk (fuel : nat) (items : list item)
    (size type_ rest : bytes) :
  Forall (item_wf 0) items ->
  length size = 4 ->
  length type_ = 4 ->
  Mp4.utf8_valid type_ = false ->
  list_sum (map boxes items) < fuel ->
  Mp4.parse_mp4 fuel (concat (map item_bytes items) ++ size ++ type_ ++ rest)
  = (concat (map (item_lines 0) items)
     ++ [Mp4.ErrorProcessing Mp4.UnicodeDecodeError],
     Mp4.Done tt).
Proof.
  intros Hwf Hs Ht Hv Hf. unfold Mp4.parse_mp4.
  pose proof (length_le_boxes items) as Hlen.
  set (c := concat (map item_bytes items) ++ size ++ type_ ++ rest).
  replace fuel with (length items + S (fuel - length items - 1)) at 2 by lia.
  rewrite (mp4_top_level_loop_items fuel items Hwf ltac:(lia) _ c 0
             (size ++ type_ ++ rest) eq_refl).
  cbn [Nat.add Mp4.top_level_loop].
  assert (Hd : drop (length (concat (map item_bytes items))) c
               = size ++ type_ ++ rest).
  { unfold c. apply drop_app_length. }
  set (p := length (concat (map item_bytes items))) in *.
  assert (H1 : take 4 (drop p c) = size).
  { rewrite Hd. apply take_app_length'. symmetry. exact Hs. }
  assert (H2 : take 4 (drop (p + 4) c) = type_).
  { rewrite <- drop_drop, Hd. rewrite drop_app_length' by (symmetry; exact Hs).
    apply take_app_length'. symmetry. exact Ht. }
  unfold Mp4.top_level_box, Mp4.read_box_header, Mp4.read_uint32,
    Mp4.bind at 1 2 3, Mp4.read at 1.
  cbn [Mp4.content Mp4.position]. rewrite H1, Hs.
  cbn [Nat.eqb Mp4.ret]. unfold Mp4.bind at 1 2, Mp4.read.
  cbn [Mp4.content Mp4.position]. rewrite H2.
  unfold Mp4.decode_utf8. rewrite Hv. reflexivity.
Qed.

Lemma undecodable_type_ends_walk_witness :
  Mp4.parse_mp4 12
    (concat (map item_bytes sample_movie)
     ++ [0; 0; 0; 8]%Z ++ [169; 110; 97; 109]%Z ++ box_bytes sample_mdat)
  = (concat (map (item_lines 0) sample_movie)
     ++ [Mp4.ErrorProcessing Mp4.UnicodeDecodeError],
     Mp4.Done tt).
Proof.
  apply undecodable_type_ends_walk;
    [exact sample_movie_wf | reflexivity | reflexivity | reflexivity
    | vm_compute; lia].
Defined.

Lemma mp4_zero_size_loops (fuel : nat) (b : box) (rest : bytes) :
  skippable b ->
  unpack_be32 (box_size b) = 0 ->
  forall loops (bs : list box) c p,
    Forall (fun b' => item_wf 0 (Leaf b')) bs ->
    drop p c = concat (map box_bytes bs) ++ box_bytes b ++ rest ->
    snd (Mp4.top_level_loop fuel loops {| Mp4.content := c; Mp4.position := p |})
    = Mp4.OutOfFuel.
Proof.
  intros Hb Hz. induction loops as [|loops IH]; intros bs c p Hbs Hd; [reflexivity|].
  cbn [Mp4.top_level_loop]. destruct bs as [|b0 bs].
  - cbn [map concat app] in Hd.
    assert (Hd' : drop p c = box_size b ++ box_type b ++ box_payload b ++ rest).
    { rewrite Hd. unfold box_bytes. rewrite <- !app_assoc. reflexivity. }
    rewrite (mp4_top_level_box_skips fuel c p b _ Hd' Hb).
    rewrite Hz, Nat.add_0_r.
    specialize (IH [] c p (Forall_nil_2 _) Hd).
    destruct (Mp4.top_level_loop fuel loops _). exact IH.
  - apply Forall_cons_1 in Hbs as [Hb0 Hbs].
    cbn [map concat] in Hd. rewrite <- app_assoc in Hd.
    assert (Hd' : drop p c = box_size b0 ++ box_type b0
                              ++ box_payload b0 ++ concat (map box_bytes bs)
                              ++ box_bytes b ++ rest).
    { rewrite Hd. unfold box_bytes. rewrite <- !app_assoc. reflexivity. }
    rewrite (mp4_top_level_box_skips fuel c p b0 _ Hd' (leaf_is_skippable b0 Hb0)).
    specialize (IH bs c _ Hbs (drop_past c p (box_bytes b0) _ Hd)).
    inversion Hb0; subst.
    rewrite <- (box_wf_length b0) by assumption.
    destruct (Mp4.top_level_loop fuel loops _). exact IH.
Qed.

(** A size field of zero, which the format uses for a box that runs to
    the end of the file, stops the walk from ever ending: after the header
    [seek] goes back eight bytes, to the start of the same box, and the
    walker reads it again, however many turns it is given. *)
Theorem zero_size_box_never_ends (fuel : nat) (bs : list box) (b : box)
    (rest : bytes) :
  Forall (fun b' => item_wf 0 (Leaf b')) bs ->
  skippable b ->
  unpack_be32 (box_size b) = 0 ->
  snd (Mp4.parse_mp4 fuel (concat (map box_bytes bs) ++ box_bytes b ++ rest))
  = Mp4.OutOfFuel.
Proof.
  intros Hbs Hb Hz. unfold Mp4.parse_mp4.
  apply (mp4_zero_size_loops fuel b rest Hb Hz fuel bs _ 0 Hbs). reflexivity.
Qed.

Lemma zero_size_box_never_ends_witness :
  snd (Mp4.parse_mp4 1000
         (concat (map box_bytes [sample_ftyp])
          ++ box_bytes sample_open_mdat ++ [1; 2; 3]%Z))
  = Mp4.OutOfFuel.
Proof.
  apply (zero_size_box_never_ends 1000 [sample_ftyp] sample_open_mdat [1; 2; 3]%Z).
  - unfold sample_ftyp. mp4_sample_wf.
  - repeat split; vm_compute; discriminate.
  - reflexivity.
Defined.
